(** * Mennekes Amtron Modbus client: value codec and session layer

    A shallow embedding of [src/modbus-client.js] (class [ModbusClient]), of
    the register catalog [REGISTERS] with its helpers, and of the control
    methods of [src/amtron-controller.js], with the properties of the
    specification and further properties of the code stated against it.

    Conventions of the embedding:
    - a JavaScript number is a [spec_float] triple (sign, mantissa, exponent)
      denoting [(-1)^s * m * 2^e]; the operations below depend on the denoted
      value only, so integers are carried as [of_Z z] (exponent 0);
    - a Node [Buffer] is a list of bytes; reads outside the buffer give
      [undefined], writes outside are dropped, the [read*]/[write*] methods
      raise a [RangeError];
    - a method that can throw returns a [completion]; the methods of the
      client thread the instance and its surroundings (timers, emitted events,
      transport calls) through a state-and-exception monad [M];
    - every [await] is run to completion before the method continues: the
      interleaving of other callbacks at suspension points is not modelled. *)

From Stdlib Require Import ZArith Lia Bool List Ascii String.
From Stdlib Require Import Strings.Byte.
From Stdlib Require Import Floats.SpecFloat.
From stdpp Require Import base option list gmap strings.
From stdpp Require Import pretty.

Local Open Scope string_scope.
Local Open Scope list_scope.
Local Open Scope Z_scope.

(** ** JavaScript numbers *)

Definition number := spec_float.

Definition of_Z (z : Z) : number :=
  match z with
  | Z0 => S754_zero false
  | Zpos p => S754_finite false p 0
  | Zneg p => S754_finite true p 0
  end.

(** Truncation toward zero; [NaN] and the infinities go to [0], as in the
    modular conversions [ToInt32], [ToUint32] and [ToUint8]. *)
Definition to_integer (v : number) : Z :=
  match v with
  | S754_finite s m e =>
      let a := if 0 <=? e then Zpos m * 2 ^ e else Zpos m / 2 ^ (- e) in
      cond_Zopp s a
  | _ => 0
  end.

Definition exponent_of (v : number) : Z :=
  match v with S754_finite _ _ e => e | _ => 0 end.

(** The value of [v] in units of [2^e0], for [e0] at most the exponent of [v]. *)
Definition scaled (v : number) (e0 : Z) : Z :=
  match v with
  | S754_finite s m e => cond_Zopp s (Zpos m) * 2 ^ (e - e0)
  | _ => 0
  end.

Definition js_compare (a b : number) : option comparison :=
  match a, b with
  | S754_nan, _ | _, S754_nan => None
  | S754_infinity s1, S754_infinity s2 =>
      Some (match s1, s2 with
            | true, false => Lt
            | false, true => Gt
            | _, _ => Eq
            end)
  | S754_infinity s, _ => Some (if s then Lt else Gt)
  | _, S754_infinity s => Some (if s then Gt else Lt)
  | _, _ =>
      let e0 := Z.min (exponent_of a) (exponent_of b) in
      Some (scaled a e0 ?= scaled b e0)
  end.

(** [a < b], [a > b] and [a === b] on numbers. *)
Definition js_lt (a b : number) : bool :=
  match js_compare a b with Some Lt => true | _ => false end.

Definition js_gt (a b : number) : bool :=
  match js_compare a b with Some Gt => true | _ => false end.

Definition js_strict_eq (a b : number) : bool :=
  match js_compare a b with Some Eq => true | _ => false end.

Definition int32 (z : Z) : Z := (z + 2 ^ 31) mod 2 ^ 32 - 2 ^ 31.

Definition ToInt32 (v : number) : Z := int32 (to_integer v).
Definition ToUint32 (v : number) : Z := to_integer v mod 2 ^ 32.

(** The bitwise operators [<<], [>>], [>>>], [|] and [&]. *)
Definition js_shl (a b : number) : number :=
  of_Z (int32 (Z.shiftl (ToInt32 a) (ToUint32 b mod 32))).

Definition js_sar (a b : number) : number :=
  of_Z (Z.shiftr (ToInt32 a) (ToUint32 b mod 32)).

Definition js_shr (a b : number) : number :=
  of_Z (Z.shiftr (ToUint32 a) (ToUint32 b mod 32)).

Definition js_or (a b : number) : number :=
  of_Z (Z.lor (ToInt32 a) (ToInt32 b)).

Definition js_and (a b : number) : number :=
  of_Z (Z.land (ToInt32 a) (ToInt32 b)).

(** [a * b] for two integral operands whose product is below [2^53]. *)
Definition js_mul_int (a b : number) : number :=
  of_Z (to_integer a * to_integer b).

(** ** IEEE-754 single precision, as a [Float32Array] cell *)

(** Storing a number into a [Float32Array] rounds it to the nearest single
    (ties to even). *)
Definition fround (v : number) : number :=
  match v with
  | S754_finite s m e => binary_normalize 24 128 (cond_Zopp s (Zpos m)) e s
  | _ => v
  end.

Definition sign_bit (s : bool) : Z := if s then 2 ^ 31 else 0.

(** The 32-bit pattern of a single; NaN is stored as the positive quiet
    NaN (every NaN pattern reads back as NaN). *)
Definition bits_of_float32 (f : number) : Z :=
  match f with
  | S754_zero s => sign_bit s
  | S754_infinity s => sign_bit s + 255 * 2 ^ 23
  | S754_nan => 255 * 2 ^ 23 + 2 ^ 22
  | S754_finite s m e =>
      if 2 ^ 23 <=? Zpos m
      then sign_bit s + (e + 150) * 2 ^ 23 + (Zpos m - 2 ^ 23)
      else sign_bit s + Zpos m
  end.

(** The single denoted by a 32-bit pattern. *)
Definition float32_of_bits (x : Z) : number :=
  let s := Z.testbit x 31 in
  let ex := (x / 2 ^ 23) mod 2 ^ 8 in
  let frac := x mod 2 ^ 23 in
  if ex =? 255 then
    if frac =? 0 then S754_infinity s else S754_nan
  else if ex =? 0 then
    match frac with
    | Zpos p => S754_finite s p (-149)
    | _ => S754_zero s
    end
  else S754_finite s (Z.to_pos (frac + 2 ^ 23)) (ex - 150).

(** ** Errors and completions *)

(** [Error] carries the message of [new Error(message)] and of the
    rejections of the transport. [RangeError] stands for the errors raised by
    the [Buffer] methods and carries Node's error code; the message texts of
    these (fixed sentences filled in with numbers) contain neither
    [Port Not Open] nor [Timed Out]. *)
Inductive JsError :=
| Error (message : string)
| RangeError (code : string)
| TypeError (message : string).

Inductive completion (A : Type) :=
| Return (a : A)
| Throw (e : JsError).
Arguments Return {A} a.
Arguments Throw {A} e.

#[global] Instance completion_ret : MRet completion := fun A a => Return a.
#[global] Instance completion_bind : MBind completion := fun A B k c =>
  match c with
  | Return a => k a
  | Throw e => Throw e
  end.

(** [String.prototype.includes]. *)
Fixpoint includes (s pat : string) : bool :=
  if String.prefix pat s then true
  else match s with
       | EmptyString => false
       | String _ s' => includes s' pat
       end.

Definition message_includes (e : JsError) (pat : string) : bool :=
  match e with
  | Error m => includes m pat
  | RangeError _ => false
  | TypeError m => includes m pat
  end.

(** ** Buffers *)

Abbreviation Buffer := (list byte).

Definition byte_val (b : byte) : Z := Z.of_N (Byte.to_N b).

(** Storing an integer into a [Uint8Array] cell keeps it modulo 256. *)
Definition u8 (z : Z) : byte :=
  default x00 (Byte.of_N (Z.to_N (z mod 256))).

(** [Buffer.allocUnsafe(n)]: the content of the fresh buffer is unspecified;
    every byte the codec reads from such a buffer has been written before, so
    the initial content is taken to be zero. *)
Definition allocUnsafe (n : nat) : Buffer := replicate n x00.

Definition ERR_OUT_OF_RANGE : JsError := RangeError "ERR_OUT_OF_RANGE".
Definition ERR_BUFFER_OUT_OF_BOUNDS : JsError :=
  RangeError "ERR_BUFFER_OUT_OF_BOUNDS".

(** [boundsError(offset, buf.length - n)] for an access of [n] bytes at an
    integral offset. *)
Definition boundsError (buf : Buffer) (n : nat) : JsError :=
  if (length buf <? n)%nat then ERR_BUFFER_OUT_OF_BOUNDS else ERR_OUT_OF_RANGE.

(** [checkBounds(buf, offset, byteLength)]: both [buf[offset]] and
    [buf[offset + byteLength]] must be defined. *)
Definition in_bounds (buf : Buffer) (offset byteLength : nat) : bool :=
  match buf !! offset, buf !! (offset + byteLength)%nat with
  | Some _, Some _ => true
  | _, _ => false
  end.

Definition readUInt16BE (buf : Buffer) (offset : nat) : completion number :=
  match buf !! offset, buf !! (offset + 1)%nat with
  | Some first, Some last => Return (of_Z (byte_val first * 2 ^ 8 + byte_val last))
  | _, _ => Throw (boundsError buf 2)
  end.

(** [val | (val & 2 ** 15) * 0x1fffe] *)
Definition readInt16BE (buf : Buffer) (offset : nat) : completion number :=
  match buf !! offset, buf !! (offset + 1)%nat with
  | Some first, Some last =>
      let val := of_Z (byte_val first * 2 ^ 8 + byte_val last) in
      Return (js_or val (js_mul_int (js_and val (of_Z (2 ^ 15))) (of_Z 0x1fffe)))
  | _, _ => Throw (boundsError buf 2)
  end.

Definition readFloatBE (buf : Buffer) (offset : nat) : completion number :=
  match buf !! offset, buf !! (offset + 1)%nat,
        buf !! (offset + 2)%nat, buf !! (offset + 3)%nat with
  | Some b0, Some b1, Some b2, Some b3 =>
      Return (float32_of_bits (byte_val b0 * 2 ^ 24 + byte_val b1 * 2 ^ 16
                               + byte_val b2 * 2 ^ 8 + byte_val b3))
  | _, _, _, _ => Throw (boundsError buf 4)
  end.

(** [writeU_Int16BE(buf, value, offset, min, max)]: the value is checked
    against the range, then the offset against the buffer, then the two bytes
    [value >>> 8] and [value] are stored. *)
Definition writeU_Int16BE (buf : Buffer) (value : number) (offset : nat)
    (min max : Z) : completion Buffer :=
  if js_gt value (of_Z max) || js_lt value (of_Z min) then Throw ERR_OUT_OF_RANGE
  else if negb (in_bounds buf offset 1) then Throw (boundsError buf 2)
  else
    let buf := <[offset := u8 (to_integer (js_shr value (of_Z 8)))]> buf in
    Return (<[(offset + 1)%nat := u8 (to_integer value)]> buf).

Definition writeUInt16BE (buf : Buffer) (value : number) (offset : nat) :=
  writeU_Int16BE buf value offset 0 0xffff.

Definition writeInt16BE (buf : Buffer) (value : number) (offset : nat) :=
  writeU_Int16BE buf value offset (- 0x8000) 0x7fff.

Definition writeFloatBE (buf : Buffer) (val : number) (offset : nat)
    : completion Buffer :=
  if negb (in_bounds buf offset 3) then Throw (boundsError buf 4)
  else
    let x := bits_of_float32 (fround val) in
    let buf := <[offset := u8 (x / 2 ^ 24)]> buf in
    let buf := <[(offset + 1)%nat := u8 (x / 2 ^ 16)]> buf in
    let buf := <[(offset + 2)%nat := u8 (x / 2 ^ 8)]> buf in
    Return (<[(offset + 3)%nat := u8 x]> buf).

(** ** Strings produced by the codec *)

(** [buf.toString('ascii')]: the highest bit of each byte is cleared. *)
Definition ascii_char (b : byte) : ascii :=
  ascii_of_N (N.land (Byte.to_N b) 127).

Definition toString_ascii (buf : Buffer) : string :=
  string_of_list_ascii (map ascii_char buf).

(** [s.replace(/\0/g, '')] *)
Fixpoint remove_nul (s : string) : string :=
  match s with
  | EmptyString => EmptyString
  | String c s' =>
      if Ascii.eqb c zero then remove_nul s' else String c (remove_nul s')
  end.

(** White space and line terminators of [String.prototype.trim] among the
    characters below 256: TAB, LF, VT, FF, CR, SP and NBSP. *)
Definition is_white (c : ascii) : bool :=
  match N_of_ascii c with
  | 9 | 10 | 11 | 12 | 13 | 32 | 160 => true
  | _ => false
  end%N.

Fixpoint trimStart (s : string) : string :=
  match s with
  | EmptyString => EmptyString
  | String c s' => if is_white c then trimStart s' else s
  end.

Fixpoint trimEnd (s : string) : string :=
  match s with
  | EmptyString => EmptyString
  | String c s' =>
      match trimEnd s' with
      | EmptyString => if is_white c then EmptyString else String c EmptyString
      | t => String c t
      end
  end.

Definition trim (s : string) : string := trimEnd (trimStart s).

(** ** Register descriptors and decoded values *)

Record Register := {
  r_address : Z;
  r_length : nat;
  r_type : string;
  r_access : string
}.

Inductive JsValue :=
| JNum (n : number)
| JStr (s : string).

(** Reading [buffer[i]] and storing it into a [Uint8Array] cell: outside the
    buffer the read gives [undefined], which is stored as [0]. *)
Definition index_u8 (buffer : Buffer) (i : nat) : byte :=
  default x00 (buffer !! i).

(** The loop [for (let i = 0; i < buffer.length; i += 2)] of the ascii case;
    [fuel] bounds the number of iterations. *)
Fixpoint swap_loop (fuel : nat) (buffer swappedBuffer : Buffer) (i : nat) : Buffer :=
  match fuel with
  | O => swappedBuffer
  | S fuel =>
      if (i <? length buffer)%nat then
        let swappedBuffer := <[i := index_u8 buffer (i + 1)]> swappedBuffer in
        let swappedBuffer := <[(i + 1)%nat := index_u8 buffer i]> swappedBuffer in
        swap_loop fuel buffer swappedBuffer (i + 2)
      else swappedBuffer
  end.

Definition parseRegisterValue (register : Register) (buffer : Buffer)
    : completion JsValue :=
  if String.eqb (r_type register) "uint16" then
    v ← readUInt16BE buffer 0; mret (JNum v)
  else if String.eqb (r_type register) "uint32" then
    hi ← readUInt16BE buffer 2;
    lo ← readUInt16BE buffer 0;
    mret (JNum (js_or (js_shl hi (of_Z 16)) lo))
  else if String.eqb (r_type register) "int16" then
    v ← readInt16BE buffer 0; mret (JNum v)
  else if String.eqb (r_type register) "int32" then
    hi ← readInt16BE buffer 2;
    lo ← readInt16BE buffer 0;
    mret (JNum (js_or (js_shl hi (of_Z 16)) lo))
  else if String.eqb (r_type register) "float" then
    let tempBuffer := allocUnsafe 4 in
    w0 ← readUInt16BE buffer 0;
    tempBuffer ← writeUInt16BE tempBuffer w0 0;
    w1 ← readUInt16BE buffer 2;
    tempBuffer ← writeUInt16BE tempBuffer w1 2;
    v ← readFloatBE tempBuffer 0; mret (JNum v)
  else if String.eqb (r_type register) "ascii" then
    let swappedBuffer := allocUnsafe (length buffer) in
    let swappedBuffer := swap_loop (length buffer) buffer swappedBuffer 0 in
    mret (JStr (trim (remove_nul (toString_ascii swappedBuffer))))
  else Throw (Error ("Unknown register type: " +:+ r_type register)).

Definition encodeRegisterValue (register : Register) (value : number)
    : completion (list number) :=
  let buffer := allocUnsafe (r_length register * 2) in
  if String.eqb (r_type register) "uint16" then
    buffer ← writeUInt16BE buffer value 0;
    w0 ← readUInt16BE buffer 0; mret [w0]
  else if String.eqb (r_type register) "uint32" then
    buffer ← writeUInt16BE buffer (js_and value (of_Z 0xFFFF)) 0;
    buffer ← writeUInt16BE buffer (js_and (js_sar value (of_Z 16)) (of_Z 0xFFFF)) 2;
    w0 ← readUInt16BE buffer 0;
    w1 ← readUInt16BE buffer 2; mret [w0; w1]
  else if String.eqb (r_type register) "int16" then
    buffer ← writeInt16BE buffer value 0;
    w0 ← readUInt16BE buffer 0; mret [w0]
  else if String.eqb (r_type register) "int32" then
    buffer ← writeInt16BE buffer (js_and value (of_Z 0xFFFF)) 0;
    buffer ← writeInt16BE buffer (js_and (js_sar value (of_Z 16)) (of_Z 0xFFFF)) 2;
    w0 ← readUInt16BE buffer 0;
    w1 ← readUInt16BE buffer 2; mret [w0; w1]
  else if String.eqb (r_type register) "float" then
    let tempBuffer := allocUnsafe 4 in
    tempBuffer ← writeFloatBE tempBuffer value 0;
    w0 ← readUInt16BE tempBuffer 0;
    buffer ← writeUInt16BE buffer w0 0;
    w1 ← readUInt16BE tempBuffer 2;
    buffer ← writeUInt16BE buffer w1 2;
    w0 ← readUInt16BE buffer 0;
    w1 ← readUInt16BE buffer 2; mret [w0; w1]
  else Throw (Error ("Cannot encode type: " +:+ r_type register)).

(** The bytes of a holding-register response carrying the given 16-bit
    words: each word most significant byte first, words in wire order. *)
Definition word_bytes (w : Z) : Buffer := [u8 (w / 2 ^ 8); u8 w].

Definition buffer_of_words (ws : list Z) : Buffer :=
  flat_map word_bytes ws.

Definition buffer_of_registers (ws : list number) : Buffer :=
  buffer_of_words (map to_integer ws).

(** ** The register catalog

    [REGISTERS] of [registers.js], with the fields the client reads:
    [address], [length], [type] and [access]. *)

Definition mkRegister (address : Z) (length : nat) (type access : string)
    : Register :=
  {| r_address := address; r_length := length; r_type := type;
     r_access := access |}.

Definition register_table : list (string * Register) := [
  ("MODBUS_VERSION", mkRegister 0x0000 1 "uint16" "R");
  ("FIRMWARE_VERSION", mkRegister 0x0001 8 "ascii" "R");
  ("SERIAL_NUMBER", mkRegister 0x0013 8 "ascii" "R");
  ("EVSE_STATE", mkRegister 0x0100 1 "uint16" "R");
  ("AUTHORIZATION_STATUS", mkRegister 0x0101 1 "uint16" "R");
  ("DOWNGRADE", mkRegister 0x0102 1 "uint16" "R");
  ("PHASE_ROTATION", mkRegister 0x0103 1 "uint16" "R");
  ("CP_STATE", mkRegister 0x0108 1 "uint16" "R");
  ("SIGNALED_CURRENT", mkRegister 0x0114 2 "float" "R");
  ("DOWNGRADE_CURRENT", mkRegister 0x0300 2 "float" "R");
  ("CHARGING_CURRENT_EM", mkRegister 0x0302 2 "float" "RW");
  ("MAX_CURRENT_HOUSE", mkRegister 0x0304 2 "float" "R");
  ("MAX_CURRENT_EVSE", mkRegister 0x0306 2 "float" "R");
  ("PHASE_SWITCHING_MODE", mkRegister 0x030A 1 "uint16" "R");
  ("PHASE_OPTIONS_HW", mkRegister 0x030C 1 "uint16" "R");
  ("CABLE_LOCK_CONFIG", mkRegister 0x030D 1 "uint16" "R");
  ("MASTER_LOST_FALLBACK_CURRENT", mkRegister 0x030E 1 "uint16" "R");
  ("GRID_IMBALANCE", mkRegister 0x030F 1 "uint16" "R");
  ("GRID_IMBALANCE_THRESHOLD", mkRegister 0x0310 1 "uint16" "R");
  ("GRID_PHASES_CONNECTED", mkRegister 0x0311 1 "uint16" "R");
  ("AUTHORIZATION", mkRegister 0x0312 1 "uint16" "R");
  ("SOLAR_SUPPORTED_CHARGING_CURRENT", mkRegister 0x0313 1 "uint16" "R");
  ("PHASE_SWITCHING_PAUSE", mkRegister 0x0314 1 "uint16" "R");
  ("CURRENT_L1", mkRegister 0x0500 2 "float" "R");
  ("CURRENT_L2", mkRegister 0x0502 2 "float" "R");
  ("CURRENT_L3", mkRegister 0x0504 2 "float" "R");
  ("VOLTAGE_L1", mkRegister 0x0506 2 "float" "R");
  ("VOLTAGE_L2", mkRegister 0x0508 2 "float" "R");
  ("VOLTAGE_L3", mkRegister 0x050A 2 "float" "R");
  ("POWER_L1", mkRegister 0x050C 2 "float" "R");
  ("POWER_L2", mkRegister 0x050E 2 "float" "R");
  ("POWER_L3", mkRegister 0x0510 2 "float" "R");
  ("POWER_OVERALL", mkRegister 0x0512 2 "float" "R");
  ("MAXIMAL_EVSE_CURRENT", mkRegister 0x0706 1 "uint16" "RW");
  ("PHASE_ROTATION_SETTING", mkRegister 0x070A 1 "uint16" "RW");
  ("CONNECTED_PHASES", mkRegister 0x0710 1 "uint16" "RW");
  ("PHASE_USAGE_SOLAR_CHARGING", mkRegister 0x071A 1 "uint16" "RW");
  ("FALLBACK_CURRENT_MASTER_LOST", mkRegister 0x073A 1 "uint16" "RW");
  ("SOLAR_CHARGING_ACTIVE", mkRegister 0x073C 1 "uint16" "RW");
  ("PHASE_SWITCHING_PAUSE_SETTING", mkRegister 0x078C 1 "uint16" "RW");
  ("TEMPERATURE", mkRegister 0x0900 2 "float" "R");
  ("MAX_CURRENT_SESSION", mkRegister 0x0B00 2 "float" "R");
  ("CHARGED_ENERGY_SESSION", mkRegister 0x0B02 2 "float" "R");
  ("DURATION_SESSION", mkRegister 0x0B04 2 "uint32" "R");
  ("DETECTED_EV_PHASES", mkRegister 0x0B06 1 "uint16" "R");
  ("HEARTBEAT_EM", mkRegister 0x0D00 1 "uint16" "W");
  ("CABLE_LOCK_STATUS", mkRegister 0x0D02 1 "uint16" "R");
  ("SOLAR_CHARGING_MODE", mkRegister 0x0D03 1 "uint16" "RW");
  ("REQUESTED_PHASES", mkRegister 0x0D04 1 "uint16" "RW");
  ("CHARGING_RELEASE_EM", mkRegister 0x0D05 1 "uint16" "RW");
  ("LOCK_EVSE", mkRegister 0x0D06 1 "uint16" "RW");
  ("SYSTEM_RESTART", mkRegister 0x0D19 1 "uint16" "W");
  ("ACTIVE_ERROR_CODE", mkRegister 0x0E00 1 "uint16" "R");
  ("MASTER_LOST_FALLBACK_STATE", mkRegister 0x0E01 1 "uint16" "R");
  ("SWITCHED_PHASES", mkRegister 0x0E02 1 "uint16" "R");
  ("CHARGED_ENERGY_TOTAL", mkRegister 0x1000 2 "float" "R");
  ("CHARGING_SESSIONS_TOTAL", mkRegister 0x1002 2 "uint32" "R")
].

Definition REGISTERS : gmap string Register := list_to_map register_table.

(** [REGISTERS] is an object literal, so [REGISTERS[name]] also finds the
    properties inherited from [Object.prototype]: functions, and the
    prototype object itself for [__proto__]. All of them are truthy and none
    has an [access] property. *)
Definition Object_prototype : list string := [
  "constructor"; "__defineGetter__"; "__defineSetter__"; "hasOwnProperty";
  "__lookupGetter__"; "__lookupSetter__"; "isPrototypeOf";
  "propertyIsEnumerable"; "toString"; "valueOf"; "__proto__";
  "toLocaleString"
].

Inductive Property :=
| Own (register : Register)
| Inherited
| Undefined.

(** [REGISTERS[registerName]] *)
Definition REGISTERS_get (registerName : string) : Property :=
  match REGISTERS !! registerName with
  | Some register => Own register
  | None =>
      if bool_decide (registerName ∈ Object_prototype) then Inherited
      else Undefined
  end.

(** ** The client and its surroundings *)

(** The entries of [this.config] the retry and reconnection logic reads. *)
Record Config := {
  reconnectInterval : Z;
  maxRetries : Z
}.

(** [x || d] for an integer [x]: zero (like a missing entry) is falsy. *)
Definition or_default (x : option Z) (d : Z) : Z :=
  match x with
  | Some z => if z =? 0 then d else z
  | None => d
  end.

(** The configuration the constructor stores. *)
Definition constructor_config (reconnectInterval maxRetries : option Z)
    : Config :=
  {| reconnectInterval := or_default reconnectInterval 5000;
     maxRetries := or_default maxRetries 3 |}.

(** The calls made on the [modbus-serial] handle [this.client]. *)
Module ModbusRTU.
Inductive call :=
| connectRTU
| readHoldingRegisters (address : Z) (length : nat)
| writeRegister (address : Z) (value : number)
| writeRegisters (address : Z) (values : list number).
End ModbusRTU.

(** How the handle settles a call; [buffer] is the [data.buffer] of a read
    response and is ignored for the other calls. *)
Inductive Outcome :=
| Resolved (buffer : Buffer)
| Rejected (error : JsError).

(** The functions handed to [setTimeout] and [setInterval]. *)
Inductive Callback :=
| CbReconnect
| CbSendHeartbeat
| CbConnectionCheck.

Inductive TimerKind := Timeout | Interval.

Record Timer := {
  t_kind : TimerKind;
  t_ms : Z;
  t_callback : Callback
}.

Inductive Event :=
| Emit (event : string)
| EmitError (error : JsError)
| Wire (rq : ModbusRTU.call)
| Delay (ms : Z).

(** The mutable fields of the instance, followed by its surroundings: whether
    an ['error'] listener is attached, the pending timers, what has been
    observed so far, and the behaviour of the transport ([transport n rq]
    settles the [n]-th call when it is [rq]). *)
Record Client := {
  isConnected : bool;
  reconnecting : bool;
  heartbeatInterval : option nat;
  connectionCheckInterval : option nat;
  errorListener : bool;
  timers : gmap nat Timer;
  nextTimer : nat;
  trace : list Event;
  calls : nat;
  transport : nat -> ModbusRTU.call -> Outcome
}.

Definition set_isConnected (b : bool) (c : Client) : Client :=
  {| isConnected := b; reconnecting := reconnecting c;
     heartbeatInterval := heartbeatInterval c;
     connectionCheckInterval := connectionCheckInterval c;
     errorListener := errorListener c; timers := timers c;
     nextTimer := nextTimer c; trace := trace c; calls := calls c;
     transport := transport c |}.

Definition set_reconnecting (b : bool) (c : Client) : Client :=
  {| isConnected := isConnected c; reconnecting := b;
     heartbeatInterval := heartbeatInterval c;
     connectionCheckInterval := connectionCheckInterval c;
     errorListener := errorListener c; timers := timers c;
     nextTimer := nextTimer c; trace := trace c; calls := calls c;
     transport := transport c |}.

Definition set_heartbeatInterval (h : option nat) (c : Client) : Client :=
  {| isConnected := isConnected c; reconnecting := reconnecting c;
     heartbeatInterval := h;
     connectionCheckInterval := connectionCheckInterval c;
     errorListener := errorListener c; timers := timers c;
     nextTimer := nextTimer c; trace := trace c; calls := calls c;
     transport := transport c |}.

Definition set_connectionCheckInterval (h : option nat) (c : Client) : Client :=
  {| isConnected := isConnected c; reconnecting := reconnecting c;
     heartbeatInterval := heartbeatInterval c;
     connectionCheckInterval := h;
     errorListener := errorListener c; timers := timers c;
     nextTimer := nextTimer c; trace := trace c; calls := calls c;
     transport := transport c |}.

Definition set_timers (t : gmap nat Timer) (n : nat) (c : Client) : Client :=
  {| isConnected := isConnected c; reconnecting := reconnecting c;
     heartbeatInterval := heartbeatInterval c;
     connectionCheckInterval := connectionCheckInterval c;
     errorListener := errorListener c; timers := t;
     nextTimer := n; trace := trace c; calls := calls c;
     transport := transport c |}.

Definition observe (e : Event) (c : Client) : Client :=
  {| isConnected := isConnected c; reconnecting := reconnecting c;
     heartbeatInterval := heartbeatInterval c;
     connectionCheckInterval := connectionCheckInterval c;
     errorListener := errorListener c; timers := timers c;
     nextTimer := nextTimer c; trace := trace c ++ [e]; calls := calls c;
     transport := transport c |}.

Definition count_call (c : Client) : Client :=
  {| isConnected := isConnected c; reconnecting := reconnecting c;
     heartbeatInterval := heartbeatInterval c;
     connectionCheckInterval := connectionCheckInterval c;
     errorListener := errorListener c; timers := timers c;
     nextTimer := nextTimer c; trace := trace c; calls := S (calls c);
     transport := transport c |}.

(** ** The monad of the methods: state and exceptions *)

Definition M (A : Type) : Type := Client -> completion A * Client.

#[global] Instance M_ret : MRet M := fun A a c => (Return a, c).
#[global] Instance M_bind : MBind M := fun A B k m c =>
  match m c with
  | (Return a, c') => k a c'
  | (Throw e, c') => (Throw e, c')
  end.

Definition throw {A} (e : JsError) : M A := fun c => (Throw e, c).

(** [try { body } catch (error) { handler }] *)
Definition try_catch {A} (body : M A) (handler : JsError -> M A) : M A :=
  fun c =>
    match body c with
    | (Return a, c') => (Return a, c')
    | (Throw e, c') => handler e c'
    end.

Definition get {A} (f : Client -> A) : M A := fun c => (Return (f c), c).
Definition modify (f : Client -> Client) : M unit := fun c => (Return tt, f c).
Definition lift {A} (r : completion A) : M A := fun c => (r, c).

(** [this.emit(event)] for the events other than ['error']. *)
Definition emit (event : string) : M unit := modify (observe (Emit event)).

(** [this.emit('error', error)]: without a listener the emitter throws the
    error itself. *)
Definition emit_error (error : JsError) : M unit := fun c =>
  if errorListener c then (Return tt, observe (EmitError error) c)
  else (Throw error, c).

Definition setTimer (k : TimerKind) (ms : Z) (cb : Callback) : M nat :=
  fun c =>
    let id := nextTimer c in
    (Return id,
     set_timers (<[id := {| t_kind := k; t_ms := ms; t_callback := cb |}]> (timers c))
                (S id) c).

Definition setTimeout := setTimer Timeout.
Definition setInterval := setTimer Interval.

(** [clearInterval(id)] and [clearTimeout(id)] *)
Definition clearTimer (id : nat) : M unit :=
  modify (fun c => set_timers (delete id (timers c)) (nextTimer c) c).

(** [await this.delay(ms)] *)
Definition delay (ms : Z) : M unit := modify (observe (Delay ms)).

(** [await this.client.<rq>] *)
Definition await_client (rq : ModbusRTU.call) : M Buffer := fun c =>
  let c' := count_call (observe (Wire rq) c) in
  match transport c (calls c) rq with
  | Resolved buffer => (Return buffer, c')
  | Rejected error => (Throw error, c')
  end.

(** ** The methods of [ModbusClient] *)

Section Methods.
Variable config : Config.

Definition scheduleReconnect : M unit :=
  get reconnecting ≫= λ pending : bool,
  if pending then mret tt
  else
    modify (set_reconnecting true);;
    setTimeout (reconnectInterval config) CbReconnect;;
    mret tt.

Definition startConnectionMonitoring : M unit :=
  id ← setInterval 30000 CbConnectionCheck;
  modify (set_connectionCheckInterval (Some id)).

Definition stopConnectionMonitoring : M unit :=
  get connectionCheckInterval ≫= λ h : option nat,
  match h with
  | Some id =>
      clearTimer id;;
      modify (set_connectionCheckInterval None)
  | None => mret tt
  end.

(** [setID] and [setTimeout] on the handle only store their argument and
    are left out. *)
Definition connect : M unit :=
  try_catch
    (await_client ModbusRTU.connectRTU;;
     modify (set_isConnected true);;
     modify (set_reconnecting false);;
     emit "connected";;
     startConnectionMonitoring)
    (fun error =>
       modify (set_isConnected false);;
       emit_error error;;
       scheduleReconnect;;
       throw error).

(** The [catch] block shared by [readRegister] and [writeRegister];
    [retry] is the recursive call with [retryCount + 1]. *)
Definition retry_or_fail {A} (retry : M A) (retryCount : Z)
    (error : JsError) : M A :=
  if retryCount <? maxRetries config then
    delay 500;;
    retry
  else
    (if message_includes error "Port Not Open"
        || message_includes error "Timed Out"
     then
       modify (set_isConnected false);;
       emit "connectionLost";;
       scheduleReconnect
     else mret tt);;
    throw error.

Definition not_connected : JsError := Error "Not connected to Modbus device".

(** The error of [register.access.includes(...)] when [register] is an
    inherited property, which has no [access]. *)
Definition cannot_read_includes : JsError :=
  TypeError "Cannot read properties of undefined (reading 'includes')".

(** The [try] block of [readRegister]. *)
Definition read_attempt (register : Register) : M JsValue :=
  get isConnected ≫= λ connected : bool,
  if negb connected then throw not_connected
  else
    buffer ← await_client
      (ModbusRTU.readHoldingRegisters (r_address register)
                                      (r_length register));
    lift (parseRegisterValue register buffer).

(** The request [writeRegister] sends for the encoded words: function code
    0x06 with [buffer[0]] for one register, 0x10 otherwise. *)
Definition write_request (register : Register) (buffer : list number)
    : ModbusRTU.call :=
  if (r_length register =? 1)%nat then
    ModbusRTU.writeRegister (r_address register)
                            (default S754_nan (head buffer))
  else ModbusRTU.writeRegisters (r_address register) buffer.

(** The [try] block of [writeRegister]. *)
Definition write_attempt (register : Register) (value : number) : M unit :=
  get isConnected ≫= λ connected : bool,
  if negb connected then throw not_connected
  else
    buffer ← lift (encodeRegisterValue register value);
    await_client (write_request register buffer);;
    mret tt.

(** The body of [readRegister(registerName, retryCount)], with [retry] for
    [this.readRegister(registerName, retryCount + 1)]. *)
Definition readRegister_body (retry : M JsValue) (registerName : string)
    (retryCount : Z) : M JsValue :=
  match REGISTERS_get registerName with
  | Undefined => throw (Error ("Unknown register: " +:+ registerName))
  | Inherited =>
      throw cannot_read_includes
  | Own register =>
      if negb (includes (r_access register) "R") then
        throw (Error ("Register " +:+ registerName +:+ " is not readable"))
      else
        try_catch (read_attempt register) (retry_or_fail retry retryCount)
  end.

(** The recursion is on the retries that are left; the last branch is
    never taken (see [readRegister_unfold]). *)
Fixpoint readRegister_fuel (fuel : nat) (registerName : string)
    (retryCount : Z) : M JsValue :=
  readRegister_body
    (match fuel with
     | S fuel => readRegister_fuel fuel registerName (retryCount + 1)
     | O => throw (Error "no retry left")
     end)
    registerName retryCount.

Definition readRegister (registerName : string) (retryCount : Z)
    : M JsValue :=
  readRegister_fuel (Z.to_nat (maxRetries config - retryCount))
                    registerName retryCount.

(** The body of [writeRegister(registerName, value, retryCount)]. *)
Definition writeRegister_body (retry : M unit) (registerName : string)
    (value : number) (retryCount : Z) : M unit :=
  match REGISTERS_get registerName with
  | Undefined => throw (Error ("Unknown register: " +:+ registerName))
  | Inherited =>
      throw cannot_read_includes
  | Own register =>
      if negb (includes (r_access register) "W") then
        throw (Error ("Register " +:+ registerName +:+ " is not writable"))
      else
        try_catch (write_attempt register value)
                  (retry_or_fail retry retryCount)
  end.

Fixpoint writeRegister_fuel (fuel : nat) (registerName : string)
    (value : number) (retryCount : Z) : M unit :=
  writeRegister_body
    (match fuel with
     | S fuel => writeRegister_fuel fuel registerName value (retryCount + 1)
     | O => throw (Error "no retry left")
     end)
    registerName value retryCount.

Definition writeRegister (registerName : string) (value : number)
    (retryCount : Z) : M unit :=
  writeRegister_fuel (Z.to_nat (maxRetries config - retryCount))
                     registerName value retryCount.

Definition sendHeartbeat : M unit :=
  try_catch (writeRegister "HEARTBEAT_EM" (of_Z 0x55AA) 0)
            (fun _ => mret tt).

Definition startHeartbeat : M unit :=
  get heartbeatInterval ≫= λ h : option nat,
  match h with
  | Some _ => mret tt
  | None =>
      setTimeout 2000 CbSendHeartbeat;;
      id ← setInterval 9000 CbSendHeartbeat;
      modify (set_heartbeatInterval (Some id))
  end.

Definition stopHeartbeat : M unit :=
  get heartbeatInterval ≫= λ h : option nat,
  match h with
  | Some id =>
      clearTimer id;;
      modify (set_heartbeatInterval None)
  | None => mret tt
  end.

(** What a timer runs when it expires. *)
Definition run_callback (cb : Callback) : M unit :=
  match cb with
  | CbReconnect => try_catch connect (fun _ => mret tt)
  | CbSendHeartbeat => sendHeartbeat
  | CbConnectionCheck =>
      try_catch
        (readRegister "EVSE_STATE" 0;; mret tt)
        (fun _ =>
           modify (set_isConnected false);;
           emit "connectionLost";;
           scheduleReconnect)
  end.

(** The expiry of the pending timer [id]: a timeout is consumed, an
    interval stays armed. *)
Definition fire (id : nat) : M unit := fun c =>
  match timers c !! id with
  | None => (Return tt, c)
  | Some t =>
      let c' := match t_kind t with
                | Timeout => set_timers (delete id (timers c)) (nextTimer c) c
                | Interval => c
                end in
      run_callback (t_callback t) c'
  end.

End Methods.

(** A freshly constructed client, given its surroundings. *)
Definition new_client (listener : bool)
    (transport : nat -> ModbusRTU.call -> Outcome) : Client :=
  {| isConnected := false; reconnecting := false;
     heartbeatInterval := None; connectionCheckInterval := None;
     errorListener := listener; timers := ∅; nextTimer := 0%nat;
     trace := []; calls := 0%nat; transport := transport |}.

(** ** Vocabulary of the statements *)

(** [r] is the completion of a call that returned a number equal to the
    integer [z]. *)
Definition returns_number (r : completion JsValue) (z : Z) : Prop :=
  exists v, r = Return (JNum v) /\ js_strict_eq v (of_Z z) = true.

(** Encoding a value and decoding the words as the device hands them back. *)
Definition roundtrip (register : Register) (v : number) : completion JsValue :=
  words ← encodeRegisterValue register v;
  parseRegisterValue register (buffer_of_registers words).

(** The number is a single-precision value (a canonical triple, a zero, an
    infinity or NaN). *)
Definition is_float32 (v : number) : Prop := valid_binary 24 128 v = true.

(** The two's-complement reading of a 16-bit word. *)
Definition signed16 (w : Z) : Z := if 2 ^ 15 <=? w then w - 2 ^ 16 else w.

(** A 16-bit word. *)
Definition word (w : Z) : Prop := 0 <= w < 2 ^ 16.

(** The bytes of the words with the two bytes of every word exchanged, in
    word order. *)
Definition swapped_words (ws : list Z) : Buffer :=
  flat_map (fun w => [u8 w; u8 (w / 2 ^ 8)]) ws.

(** The text contains a NUL character. *)
Fixpoint has_nul (s : string) : bool :=
  match s with
  | EmptyString => false
  | String c s' => Ascii.eqb c zero || has_nul s'
  end.

(** The text starts, respectively ends, with white space. *)
Definition starts_white (s : string) : bool :=
  match s with
  | EmptyString => false
  | String c _ => is_white c
  end.

Fixpoint ends_white (s : string) : bool :=
  match s with
  | EmptyString => false
  | String c EmptyString => is_white c
  | String _ s' => ends_white s'
  end.

(** Identifiers at or above [nextTimer] are free. *)
Definition fresh_timers (c : Client) : Prop :=
  forall id, (nextTimer c <= id)%nat -> timers c !! id = None.

(** One failed transport call. *)
Definition wire_step (rq : ModbusRTU.call) (c : Client) : Client :=
  count_call (observe (Wire rq) c).

(** The client after [n + 1] failed attempts, each changing it by [step],
    with the pause before each retry. *)
Fixpoint after_attempts (step : Client -> Client) (n : nat) (c : Client)
    : Client :=
  match n with
  | O => step c
  | S n => after_attempts step n (observe (Delay 500) (step c))
  end.

(** The test of the [catch] blocks for a lost connection: the message of
    the error contains [Port Not Open] or [Timed Out]. *)
Definition indicates_lost (error : JsError) : bool :=
  message_includes error "Port Not Open" || message_includes error "Timed Out".

(** The end of the [catch] block once no retry is left. *)
Definition final_failure {A} (cfg : Config) (error : JsError) : M A :=
  (if indicates_lost error then
     modify (set_isConnected false);;
     emit "connectionLost";;
     scheduleReconnect cfg
   else mret tt);;
  throw error.

(** The timer a scheduled reconnect arms. *)
Definition reconnect_timer (cfg : Config) : Timer :=
  {| t_kind := Timeout; t_ms := reconnectInterval cfg; t_callback := CbReconnect |}.

(** The observations of [n + 1] attempts with request [rq] that all fail,
    with the pause before each retry. *)
Fixpoint failed_attempts (rq : ModbusRTU.call) (n : nat) : list Event :=
  match n with
  | O => [Wire rq]
  | S n => Wire rq :: Delay 500 :: failed_attempts rq n
  end.

(** [c'] is [c] after [n + 1] failed attempts with request [rq] followed by
    the connection-lost transition: marked disconnected, [connectionLost]
    emitted after the last attempt, and a reconnect pending (armed now
    unless one was pending already). *)
Definition lost_after (cfg : Config) (rq : ModbusRTU.call) (n : nat)
    (c c' : Client) : Prop :=
  isConnected c' = false
  /\ reconnecting c' = true
  /\ trace c' = trace c ++ failed_attempts rq n ++ [Emit "connectionLost"]
  /\ timers c' = if reconnecting c then timers c
                 else <[nextTimer c := reconnect_timer cfg]> (timers c).

(** The invariant of a run of failing attempts on a connected session whose
    transport rejects the calls numbered from [calls c0]. *)
Definition failing_run (c0 : Client) (k : nat) (c : Client) : Prop :=
  isConnected c = true
  /\ calls c = (calls c0 + k)%nat
  /\ transport c = transport c0.

(** The two timers of the keep-alive scheduler and the write they trigger. *)
Definition first_beat_timer : Timer :=
  {| t_kind := Timeout; t_ms := 2000; t_callback := CbSendHeartbeat |}.

Definition beat_timer : Timer :=
  {| t_kind := Interval; t_ms := 9000; t_callback := CbSendHeartbeat |}.

Definition heartbeat_request : ModbusRTU.call :=
  ModbusRTU.writeRegister 0x0D00 (of_Z 0x55AA).

(** The errors with which the [modbus-serial] handle rejects a call on a
    closed port and a call that got no answer within the timeout, by the
    message the library gives them. *)
Definition PortNotOpenError : JsError := Error "Port Not Open".
Definition TransactionTimedOutError : JsError := Error "Timed out".

(** Descriptors used in examples. *)
Definition MAX_CURRENT_EVSE : Register := mkRegister 0x0306 2 "float" "R".
Definition FIRMWARE_VERSION : Register := mkRegister 0x0001 8 "ascii" "R".
Definition DURATION_SESSION : Register := mkRegister 0x0B04 2 "uint32" "R".
Definition EVSE_STATE : Register := mkRegister 0x0100 1 "uint16" "R".
Definition HEARTBEAT_EM : Register := mkRegister 0x0D00 1 "uint16" "W".
Definition int32_register : Register := mkRegister 0 2 "int32" "RW".

(** The configuration a client gets when none is given. *)
Definition default_config : Config := constructor_config None None.

(** A transport that rejects every call with the given message. *)
Definition always_rejects (message : string) : nat -> ModbusRTU.call -> Outcome :=
  fun _ _ => Rejected (Error message).

(** A transport that times out once and answers every later call with the
    word [1]. *)
Definition times_out_once : nat -> ModbusRTU.call -> Outcome :=
  fun n _ =>
    match n with
    | O => Rejected (Error "Timed Out")
    | S _ => Resolved [x00; x01]
    end.

Definition always_resolves : nat -> ModbusRTU.call -> Outcome :=
  fun _ _ => Resolved [].

Definition connected_client (transport : nat -> ModbusRTU.call -> Outcome)
    : Client :=
  set_isConnected true (new_client true transport).

(** * Further functions *)

(** ** Catalog helpers of [registers.js] *)

(** [Object.values(REGISTERS)], in the order of the literal. *)
Definition registers_values : list Register := map snd register_table.

(** [getRegisterByAddress(address)], with [None] for [null]. *)
Definition getRegisterByAddress (address : Z) : option Register :=
  find (fun reg => r_address reg =? address) registers_values.

(** ** Further methods of [ModbusClient] *)

(** [getConnectionStatus()] *)
Definition getConnectionStatus : M bool := get isConnected.

(** The object [results] of [readMultipleRegisters]: its own properties
    ([None] stands for [null]) and whether its prototype has been replaced by
    [null]. *)
Record Results := {
  properties : gmap string (option JsValue);
  prototype_null : bool
}.

(** [{}] *)
Definition empty_object : Results :=
  {| properties := ∅; prototype_null := false |}.

(** [results[name] = v]. While the object has its prototype, an assignment
    to [__proto__] runs the setter inherited from [Object.prototype]: [null]
    replaces the prototype by [null], a number or a string is ignored, and no
    own property is created. Once the prototype is [null] no setter is found,
    and the assignment creates an own property as for every other name. *)
Definition set_result (name : string) (v : option JsValue) (results : Results)
    : Results :=
  if String.eqb name "__proto__" && negb (prototype_null results) then
    match v with
    | None => {| properties := properties results; prototype_null := true |}
    | Some _ => results
    end
  else
    {| properties := <[name := v]> (properties results);
       prototype_null := prototype_null results |}.

(** The loop of [readMultipleRegisters] over the names that are left. *)
Fixpoint readMultipleRegisters_loop (config : Config)
    (registerNames : list string) (results : Results) : M Results :=
  match registerNames with
  | [] => mret results
  | name :: rest =>
      results ← try_catch
        (v ← readRegister config name 0;
         mret (set_result name (Some v) results))
        (fun _ => mret (set_result name None results));
      readMultipleRegisters_loop config rest results
  end.

Definition readMultipleRegisters (config : Config)
    (registerNames : list string) : M Results :=
  readMultipleRegisters_loop config registerNames empty_object.

(** [disconnect()]. The handle's [isOpen] flag and the settlement of its
    [close()] are given by the caller of the model; [close()] is no register
    exchange and is not recorded among the transport calls. *)
Definition disconnect (isOpen : bool) (close : Outcome) : M unit :=
  stopHeartbeat;;
  stopConnectionMonitoring;;
  (if isOpen then
     match close with
     | Resolved _ => mret tt
     | Rejected error => throw error
     end
   else mret tt);;
  modify (set_isConnected false);;
  emit "disconnected".

(** ** Methods of [AmtronController] ([amtron-controller.js])

    Every method wraps its body in [try { ... } catch (error) { log; throw
    error }], which changes nothing and is left out. [this.client] is the
    client the methods above run on; values are numbers. *)

Definition MIN_CHARGING_CURRENT : Z := 6.
Definition MAX_CHARGING_CURRENT : Z := 32.

Definition current_out_of_range : JsError :=
  Error "Current must be between 6A and 32A".

Definition setChargingCurrent (config : Config) (ampere : number) : M unit :=
  if js_lt ampere (of_Z MIN_CHARGING_CURRENT)
     || js_gt ampere (of_Z MAX_CHARGING_CURRENT)
  then throw current_out_of_range
  else writeRegister config "CHARGING_CURRENT_EM" ampere 0.

Definition startCharging (config : Config) (current : number) : M unit :=
  setChargingCurrent config current;;
  delay 100;;
  writeRegister config "CHARGING_RELEASE_EM" (of_Z 1) 0.

Definition stopCharging (config : Config) : M unit :=
  writeRegister config "CHARGING_RELEASE_EM" (of_Z 0) 0.

Definition pauseCharging (config : Config) : M unit :=
  writeRegister config "CHARGING_CURRENT_EM" (of_Z 0) 0.

Definition resumeCharging (config : Config) (current : number) : M unit :=
  setChargingCurrent config current.

Definition invalid_phases : JsError :=
  Error "Phases must be 0 (all phases) or 1 (single phase)".

Definition setRequestedPhases (config : Config) (phases : number) : M unit :=
  if negb (js_strict_eq phases (of_Z 0)) && negb (js_strict_eq phases (of_Z 1))
  then throw invalid_phases
  else writeRegister config "REQUESTED_PHASES" phases 0.

Definition setLock (config : Config) (lock : bool) : M unit :=
  writeRegister config "LOCK_EVSE" (of_Z (if lock then 1 else 0)) 0.

(** [formatModbusVersion(version)]; the three numbers are printed in
    decimal. *)
Definition formatModbusVersion (version : number) : string :=
  let major := js_and (js_sar version (of_Z 8)) (of_Z 0xFF) in
  let minor := js_and (js_sar version (of_Z 4)) (of_Z 0x0F) in
  let patch := js_and version (of_Z 0x0F) in
  pretty (to_integer major) +:+ "." +:+ pretty (to_integer minor)
  +:+ "." +:+ pretty (to_integer patch).

(** [formatDuration(seconds)] for an integral number of seconds below
    [2^53], where the quotients are exact: [Math.floor(x / y)] is the floor
    division and [%] the remainder with the sign of the dividend. *)
Definition duration_parts (seconds : Z) : Z * Z * Z :=
  (seconds / 3600, Z.rem seconds 3600 / 60, Z.rem seconds 60).

Definition formatDuration (seconds : Z) : string :=
  let '(hours, minutes, secs) := duration_parts seconds in
  pretty hours +:+ "h " +:+ pretty minutes +:+ "m " +:+ pretty secs +:+ "s".

(** ** Vocabulary of the further statements *)

(** The number is an integer that fits a 16-bit word. *)
Definition is_word (v : number) : Prop := exists z, v = of_Z z /\ word z.

(** The number of bytes the decoder reads for a numeric type. *)
Definition bytes_needed (type : string) : nat :=
  if String.eqb type "uint16" || String.eqb type "int16" then 2%nat else 4%nat.

Definition numeric_type (type : string) : Prop :=
  type = "uint16" \/ type = "int16" \/ type = "uint32" \/ type = "int32"
  \/ type = "float".

(** The address ranges of two descriptors do not meet. *)
Definition disjoint_ranges (r1 r2 : Register) : Prop :=
  r_address r1 + Z.of_nat (r_length r1) <= r_address r2
  \/ r_address r2 + Z.of_nat (r_length r2) <= r_address r1.

(** The timer of the connection monitoring. *)
Definition monitor_timer : Timer :=
  {| t_kind := Interval; t_ms := 30000; t_callback := CbConnectionCheck |}.

(** [c'] is [c] after at most [n] transport calls, without the session
    having become connected. *)
Definition within_calls (n : nat) (c c' : Client) : Prop :=
  (calls c <= calls c' <= calls c + n)%nat
  /\ (isConnected c' = true -> isConnected c = true).

(** The timers left once the interval [h], if any, is cleared. *)
Definition cleared (h : option nat) (t : gmap nat Timer) : gmap nat Timer :=
  match h with
  | Some id => delete id t
  | None => t
  end.

(** A transport call with request [rq] that the handle resolves. *)
Definition resolves (c : Client) (n : nat) (rq : ModbusRTU.call) : Prop :=
  exists buffer, transport c n rq = Resolved buffer.

(** A transport that answers its first call, the connection, and rejects
    every later one as on a closed port. *)
Definition connects_only : nat -> ModbusRTU.call -> Outcome :=
  fun n _ =>
    match n with
    | O => Resolved []
    | S _ => Rejected PortNotOpenError
    end.

(** A client that was connected over [connects_only], lost the connection at
    the first tick of its monitoring interval and failed its one reconnect
    attempt: it is disconnected, the flag [reconnecting] is still set and no
    reconnect timer is armed. *)
Definition after_failed_reconnect : Client :=
  let c1 := snd (connect default_config (new_client true connects_only)) in
  let c2 := snd (fire default_config 0 c1) in
  snd (fire default_config 1 c2).

(** How often a name is requested. *)
Fixpoint occurrences (name : string) (names : list string) : nat :=
  match names with
  | [] => 0%nat
  | n :: rest => ((if String.eqb n name then 1 else 0) + occurrences name rest)%nat
  end.

Definition CHARGING_CURRENT_EM : Register := mkRegister 0x0302 2 "float" "RW".
Definition CHARGING_RELEASE_EM : Register := mkRegister 0x0D05 1 "uint16" "RW".

(** The 32-bit pattern is one of a NaN. *)
Definition nan_pattern (x : Z) : bool :=
  ((x / 2 ^ 23) mod 2 ^ 8 =? 255) && negb (x mod 2 ^ 23 =? 0).

(** The word count of a descriptor is the one its type is decoded from:
    one word for uint16, two for uint32 and float, any for ascii. *)
Definition layout_ok (register : Register) : bool :=
  (String.eqb (r_type register) "uint16" && (r_length register =? 1)%nat)
  || ((String.eqb (r_type register) "uint32"
       || String.eqb (r_type register) "float")
      && (r_length register =? 2)%nat)
  || String.eqb (r_type register) "ascii".

#[global] Instance Register_eq_dec : EqDecision Register.
Proof. solve_decision. Defined.

#[global] Instance disjoint_ranges_dec (r1 r2 : Register) :
  Decision (disjoint_ranges r1 r2).
Proof. unfold disjoint_ranges. apply _. Defined.

(** * Properties *)

(** ** Bytes and numbers *)

Lemma byte_val_range (b : byte) : 0 <= byte_val b < 256.
Proof.
  unfold byte_val. pose proof (Byte.to_N_bounded b) as H. lia.
Qed.

Lemma byte_val_u8 (z : Z) : byte_val (u8 z) = z mod 256.
Proof.
  unfold u8, byte_val.
  assert (Hr : 0 <= z mod 256 < 256) by (apply Z.mod_pos_bound; lia).
  destruct (Byte.of_N (Z.to_N (z mod 256))) as [b|] eqn:E; simpl.
  - apply Byte.to_of_N in E. rewrite E. lia.
  - apply Byte.of_N_None_iff in E. lia.
Qed.

Lemma u8_byte_val (b : byte) : u8 (byte_val b) = b.
Proof.
  pose proof (byte_val_range b) as Hr.
  unfold u8. rewrite Z.mod_small by lia.
  unfold byte_val. rewrite N2Z.id, Byte.of_to_N. reflexivity.
Qed.

Lemma u8_mod (z : Z) : u8 (z mod 256) = u8 z.
Proof. unfold u8. rewrite Z.mod_mod by lia. reflexivity. Qed.

Lemma to_integer_of_Z (z : Z) : to_integer (of_Z z) = z.
Proof. destruct z; simpl; lia. Qed.

Lemma js_compare_of_Z (a b : Z) : js_compare (of_Z a) (of_Z b) = Some (a ?= b).
Proof.
  destruct a, b; simpl; try reflexivity;
    rewrite ?Z.mul_1_r, ?Pos.mul_1_r; reflexivity.
Qed.

Lemma js_gt_of_Z (a b : Z) : js_gt (of_Z a) (of_Z b) = (b <? a).
Proof.
  unfold js_gt. rewrite js_compare_of_Z, Z.ltb_antisym, Z.leb_compare.
  destruct (a ?= b); reflexivity.
Qed.

Lemma js_lt_of_Z (a b : Z) : js_lt (of_Z a) (of_Z b) = (a <? b).
Proof.
  unfold js_lt. rewrite js_compare_of_Z. unfold Z.ltb.
  destruct (a ?= b); reflexivity.
Qed.

Lemma int32_small (z : Z) : - 2 ^ 31 <= z < 2 ^ 31 -> int32 z = z.
Proof. intros H. unfold int32. rewrite Z.mod_small; lia. Qed.

Lemma int32_range (z : Z) : - 2 ^ 31 <= int32 z < 2 ^ 31.
Proof.
  unfold int32. pose proof (Z.mod_pos_bound (z + 2 ^ 31) (2 ^ 32)). lia.
Qed.

Lemma ToInt32_of_Z (z : Z) : ToInt32 (of_Z z) = int32 z.
Proof. unfold ToInt32. rewrite to_integer_of_Z. reflexivity. Qed.

Lemma ToUint32_of_Z (z : Z) : ToUint32 (of_Z z) = z mod 2 ^ 32.
Proof. unfold ToUint32. rewrite to_integer_of_Z. reflexivity. Qed.

(** A word is rebuilt from its two bytes. *)
Lemma word_of_bytes (w : Z) :
  word w -> byte_val (u8 (w / 2 ^ 8)) * 2 ^ 8 + byte_val (u8 w) = w.
Proof.
  unfold word. intros H. rewrite !byte_val_u8.
  change (2 ^ 8) with 256. change (2 ^ 16) with 65536 in H.
  rewrite (Z.mod_small (w / 256)) by (split; [apply Z.div_pos | apply Z.div_lt_upper_bound]; lia).
  pose proof (Z.div_mod w 256). lia.
Qed.

(** ** Buffer accesses *)

Lemma js_shr_8 (w : Z) : 0 <= w < 2 ^ 32 -> js_shr (of_Z w) (of_Z 8) = of_Z (w / 2 ^ 8).
Proof.
  intros H. unfold js_shr. rewrite !ToUint32_of_Z.
  rewrite (Z.mod_small w) by lia.
  change (8 mod 2 ^ 32 mod 32) with 8.
  rewrite Z.shiftr_div_pow2 by lia. reflexivity.
Qed.

Lemma writeUInt16BE_ok (buf : Buffer) (w : Z) (offset : nat) :
  word w -> in_bounds buf offset 1 = true ->
  writeUInt16BE buf (of_Z w) offset
  = Return (<[(offset + 1)%nat := u8 w]> (<[offset := u8 (w / 2 ^ 8)]> buf)).
Proof.
  unfold word. intros Hw Hb. unfold writeUInt16BE, writeU_Int16BE.
  rewrite js_gt_of_Z, js_lt_of_Z, Hb.
  replace (65535 <? w) with false by (symmetry; apply Z.ltb_ge; lia).
  replace (w <? 0) with false by (symmetry; apply Z.ltb_ge; lia).
  simpl. rewrite js_shr_8 by lia. rewrite !to_integer_of_Z. reflexivity.
Qed.

Lemma writeUInt16BE_range (buf : Buffer) (v : Z) (offset : nat) :
  ~ word v -> writeUInt16BE buf (of_Z v) offset = Throw ERR_OUT_OF_RANGE.
Proof.
  unfold word. intros Hv. unfold writeUInt16BE, writeU_Int16BE.
  rewrite js_gt_of_Z, js_lt_of_Z.
  destruct (Z.ltb_spec 65535 v); [reflexivity|].
  destruct (Z.ltb_spec v 0); [reflexivity|]. lia.
Qed.

Lemma writeInt16BE_ok (buf : Buffer) (v : Z) (offset : nat) :
  - 2 ^ 15 <= v < 2 ^ 15 -> in_bounds buf offset 1 = true ->
  writeInt16BE buf (of_Z v) offset
  = Return (<[(offset + 1)%nat := u8 v]>
              (<[offset := u8 ((v mod 2 ^ 16) / 2 ^ 8)]> buf)).
Proof.
  intros Hv Hb. unfold writeInt16BE, writeU_Int16BE.
  rewrite js_gt_of_Z, js_lt_of_Z, Hb.
  replace (32767 <? v) with false by (symmetry; apply Z.ltb_ge; lia).
  replace (v <? - 32768) with false by (symmetry; apply Z.ltb_ge; lia).
  simpl negb. cbv iota. unfold js_shr. rewrite !ToUint32_of_Z.
  change (8 mod 2 ^ 32 mod 32) with 8.
  rewrite !to_integer_of_Z, Z.shiftr_div_pow2 by lia.
  replace (u8 (v mod 2 ^ 32 / 2 ^ 8)) with (u8 (v mod 2 ^ 16 / 2 ^ 8)); [reflexivity|].
  rewrite <- (u8_mod (v mod 2 ^ 16 / 2 ^ 8)), <- (u8_mod (v mod 2 ^ 32 / 2 ^ 8)).
  f_equal.
  change 256 with (2 ^ 8).
  rewrite <- !Z.land_ones, <- !Z.shiftr_div_pow2 by lia.
  apply Z.bits_inj'. intros n Hn.
  rewrite !Z.land_spec, !Z.shiftr_spec, !Z.land_spec by lia.
  destruct (Z.ltb_spec n 8).
  - rewrite !Z.ones_spec_low by lia. rewrite !andb_true_r. reflexivity.
  - rewrite (Z.ones_spec_high 8 n) by lia. rewrite !andb_false_r. reflexivity.
Qed.

Lemma readUInt16BE_0 (b0 b1 : byte) (rest : Buffer) :
  readUInt16BE (b0 :: b1 :: rest) 0
  = Return (of_Z (byte_val b0 * 2 ^ 8 + byte_val b1)).
Proof. reflexivity. Qed.

Lemma readUInt16BE_2 (b0 b1 b2 b3 : byte) (rest : Buffer) :
  readUInt16BE (b0 :: b1 :: b2 :: b3 :: rest) 2
  = Return (of_Z (byte_val b2 * 2 ^ 8 + byte_val b3)).
Proof. reflexivity. Qed.

Lemma readUInt16BE_word_0 (w : Z) (rest : Buffer) :
  word w -> readUInt16BE (word_bytes w ++ rest) 0 = Return (of_Z w).
Proof.
  intros H. unfold word_bytes. simpl app. rewrite readUInt16BE_0.
  rewrite word_of_bytes by assumption. reflexivity.
Qed.

Lemma readUInt16BE_word_2 (w0 w : Z) (rest : Buffer) :
  word w -> readUInt16BE (word_bytes w0 ++ word_bytes w ++ rest) 2 = Return (of_Z w).
Proof.
  intros H. unfold word_bytes. simpl app. rewrite readUInt16BE_2.
  rewrite word_of_bytes by assumption. reflexivity.
Qed.

Lemma buffer_of_words_2 (w0 w1 : Z) (rest : Buffer) :
  buffer_of_words [w0; w1] ++ rest = word_bytes w0 ++ word_bytes w1 ++ rest.
Proof. reflexivity. Qed.

Lemma allocUnsafe_two (n : nat) :
  (1 <= n)%nat -> exists rest, allocUnsafe (n * 2) = x00 :: x00 :: rest.
Proof.
  intros H. destruct n as [|n]; [lia|]. eexists. reflexivity.
Qed.

Lemma allocUnsafe_four (n : nat) :
  (2 <= n)%nat ->
  exists rest, allocUnsafe (n * 2) = x00 :: x00 :: x00 :: x00 :: rest.
Proof.
  intros H. destruct n as [|[|n]]; [lia|lia|]. eexists. reflexivity.
Qed.

Lemma writeUInt16BE_0 (b0 b1 : byte) (rest : Buffer) (w : Z) :
  word w ->
  writeUInt16BE (b0 :: b1 :: rest) (of_Z w) 0
  = Return (u8 (w / 2 ^ 8) :: u8 w :: rest).
Proof. intros H. rewrite writeUInt16BE_ok by (assumption || reflexivity). reflexivity. Qed.

Lemma writeUInt16BE_2 (b0 b1 b2 b3 : byte) (rest : Buffer) (w : Z) :
  word w ->
  writeUInt16BE (b0 :: b1 :: b2 :: b3 :: rest) (of_Z w) 2
  = Return (b0 :: b1 :: u8 (w / 2 ^ 8) :: u8 w :: rest).
Proof. intros H. rewrite writeUInt16BE_ok by (assumption || reflexivity). reflexivity. Qed.

Lemma bind_Return {A B} (a : A) (k : A -> completion B) :
  (Return a ≫= k) = k a.
Proof. reflexivity. Qed.

(** Selects the branch of the [switch] on [register.type]. *)
Ltac decide_eqb :=
  repeat match goal with
    | |- context [String.eqb ?a ?b] =>
        let v := eval vm_compute in (String.eqb a b) in
        change (String.eqb a b) with v
    end;
  cbv iota.

Ltac switch_on H :=
  unfold parseRegisterValue, encodeRegisterValue; rewrite H; decide_eqb.

(** ** Decoding *)

Lemma four_bytes (w0 w1 : Z) :
  word w0 -> word w1 ->
  byte_val (u8 (w0 / 2 ^ 8)) * 2 ^ 24 + byte_val (u8 w0) * 2 ^ 16
  + byte_val (u8 (w1 / 2 ^ 8)) * 2 ^ 8 + byte_val (u8 w1)
  = w0 * 2 ^ 16 + w1.
Proof.
  intros H0 H1.
  pose proof (word_of_bytes w0 H0). pose proof (word_of_bytes w1 H1). lia.
Qed.

(** The float case reads the two words in buffer order. *)
Lemma parse_float (register : Register) (w0 w1 : Z) (rest : Buffer) :
  r_type register = "float" -> word w0 -> word w1 ->
  parseRegisterValue register (buffer_of_words [w0; w1] ++ rest)
  = Return (JNum (float32_of_bits (w0 * 2 ^ 16 + w1))).
Proof.
  intros Hty H0 H1. switch_on Hty.
  rewrite buffer_of_words_2.
  rewrite readUInt16BE_word_0, bind_Return by assumption.
  change (allocUnsafe 4) with [x00; x00; x00; x00].
  rewrite writeUInt16BE_0, bind_Return by assumption.
  rewrite readUInt16BE_word_2, bind_Return by assumption.
  rewrite writeUInt16BE_2, bind_Return by assumption.
  unfold readFloatBE. cbn [lookup list_lookup Nat.add].
  rewrite bind_Return, four_bytes by assumption. reflexivity.
Qed.

(** C1, as amended: decoding a two-word float32 value keeps the four bytes
    in buffer order, the two bytes of word[0] before those of word[1], and
    reads them as a big-endian IEEE-754 single; in particular every buffer
    that starts with the word pair [0x41A0, 0x0000] decodes to 20. *)
Theorem C1_float_decode_buffer_order (register : Register) (w0 w1 : Z)
    (rest : Buffer) :
  r_type register = "float" -> word w0 -> word w1 ->
  parseRegisterValue register (buffer_of_words [w0; w1] ++ rest)
  = Return (JNum (float32_of_bits (w0 * 2 ^ 16 + w1)))
  /\ returns_number
       (parseRegisterValue register (buffer_of_words [0x41A0; 0x0000] ++ rest)) 20.
Proof.
  intros Hty H0 H1. split.
  - apply parse_float; assumption.
  - rewrite parse_float by (assumption || (unfold word; lia)).
    eexists. split; [reflexivity|]. vm_compute. reflexivity.
Qed.

(** The amended C1 at the descriptor of MAX_CURRENT_EVSE and the words
    [0x41A0, 0x0000]. *)
Lemma C1_float_decode_buffer_order_witness :
  r_type MAX_CURRENT_EVSE = "float" /\ word 0x41A0 /\ word 0x0000
  /\ parseRegisterValue MAX_CURRENT_EVSE (buffer_of_words [0x41A0; 0x0000] ++ [])
     = Return (JNum (float32_of_bits (0x41A0 * 2 ^ 16 + 0x0000)))
  /\ returns_number
       (parseRegisterValue MAX_CURRENT_EVSE
          (buffer_of_words [0x41A0; 0x0000] ++ [])) 20.
Proof.
  assert (H0 : word 0x41A0) by (unfold word; lia).
  assert (H1 : word 0x0000) by (unfold word; lia).
  split; [reflexivity|]. split; [exact H0|]. split; [exact H1|].
  apply (C1_float_decode_buffer_order MAX_CURRENT_EVSE 0x41A0 0x0000 []);
    [reflexivity | exact H0 | exact H1].
Defined.

(** C1, as stated, fails: the buffer holding the word pair [0x0000, 0x41A0]
    does not decode to 20 (it decodes to the subnormal 16800 * 2^-149). *)
Lemma C1_counterexample :
  ~ returns_number
      (parseRegisterValue MAX_CURRENT_EVSE (buffer_of_words [0x0000; 0x41A0])) 20.
Proof.
  intros [v [Hv Heq]].
  assert (Hp : parseRegisterValue MAX_CURRENT_EVSE (buffer_of_words [0x0000; 0x41A0])
               = Return (JNum (S754_finite false 16800 (-149)))) by (vm_compute; reflexivity).
  rewrite Hp in Hv. injection Hv as <-. vm_compute in Heq. discriminate.
Qed.

Lemma int32_high (z : Z) : 2 ^ 31 <= z < 2 ^ 32 -> int32 z = z - 2 ^ 32.
Proof.
  intros H. unfold int32.
  replace (z + 2 ^ 31) with (z - 2 ^ 31 + 1 * 2 ^ 32) by lia.
  rewrite Z_mod_plus_full, Z.mod_small; lia.
Qed.

Lemma testbit_word_high (lo n : Z) : word lo -> 16 <= n -> Z.testbit lo n = false.
Proof.
  unfold word. intros H Hn.
  rewrite <- (Z.mod_small lo (2 ^ 16)) by lia.
  apply Z.mod_pow2_bits_high. lia.
Qed.

Lemma lor_high_low (m lo : Z) : word lo -> Z.lor (m * 2 ^ 16) lo = m * 2 ^ 16 + lo.
Proof.
  intros H.
  assert (Hland : Z.land (m * 2 ^ 16) lo = 0).
  { apply Z.bits_inj'. intros n Hn. rewrite Z.land_spec, Z.bits_0.
    destruct (Z.ltb_spec n 16).
    - rewrite Z.mul_pow2_bits_low by lia. reflexivity.
    - rewrite (testbit_word_high lo n) by assumption. apply andb_false_r. }
  rewrite <- Z.lxor_lor by assumption. symmetry.
  apply Z.add_nocarry_lxor. assumption.
Qed.

(** [(hi << 16) | lo] on two words is the signed 32-bit reading of the
    pattern [hi * 2^16 + lo]. *)
Lemma js_or_shl_words (hi lo : Z) :
  word hi -> word lo ->
  js_or (js_shl (of_Z hi) (of_Z 16)) (of_Z lo) = of_Z (int32 (hi * 2 ^ 16 + lo)).
Proof.
  unfold word. intros Hh Hl. unfold js_or, js_shl.
  rewrite !ToInt32_of_Z, ToUint32_of_Z.
  change (16 mod 2 ^ 32 mod 32) with 16.
  rewrite (int32_small hi), (int32_small lo) by lia.
  rewrite Z.shiftl_mul_pow2 by lia.
  rewrite (int32_small (int32 _)) by apply int32_range.
  f_equal.
  destruct (Z.ltb_spec hi (2 ^ 15)).
  - rewrite !int32_small by lia. apply lor_high_low. unfold word; lia.
  - rewrite !int32_high by lia.
    replace (hi * 2 ^ 16 - 2 ^ 32) with ((hi - 2 ^ 16) * 2 ^ 16) by lia.
    rewrite lor_high_low by (unfold word; lia). lia.
Qed.

Lemma parse_uint32 (register : Register) (lo hi : Z) (rest : Buffer) :
  r_type register = "uint32" -> word lo -> word hi ->
  parseRegisterValue register (buffer_of_words [lo; hi] ++ rest)
  = Return (JNum (of_Z (int32 (hi * 2 ^ 16 + lo)))).
Proof.
  intros Hty Hl Hh. switch_on Hty.
  rewrite buffer_of_words_2.
  rewrite readUInt16BE_word_2, bind_Return by assumption.
  rewrite readUInt16BE_word_0, bind_Return by assumption.
  rewrite js_or_shl_words by assumption. reflexivity.
Qed.

(** Below [2^31] the uint32 decoding is the unsigned value, low word first. *)
Lemma parse_uint32_small (register : Register) (lo hi : Z) (rest : Buffer) :
  r_type register = "uint32" -> word lo -> 0 <= hi < 2 ^ 15 ->
  parseRegisterValue register (buffer_of_words [lo; hi] ++ rest)
  = Return (JNum (of_Z (hi * 2 ^ 16 + lo))).
Proof.
  intros Hty Hl Hh. rewrite parse_uint32 by (assumption || (unfold word; lia)).
  unfold word in Hl. rewrite int32_small by lia. reflexivity.
Qed.

(** From [2^31] on it is negative. *)
Lemma parse_uint32_large (register : Register) (lo hi : Z) (rest : Buffer) :
  r_type register = "uint32" -> word lo -> 2 ^ 15 <= hi < 2 ^ 16 ->
  parseRegisterValue register (buffer_of_words [lo; hi] ++ rest)
  = Return (JNum (of_Z (hi * 2 ^ 16 + lo - 2 ^ 32))).
Proof.
  intros Hty Hl Hh. rewrite parse_uint32 by (assumption || (unfold word; lia)).
  unfold word in Hl. rewrite int32_high by lia. reflexivity.
Qed.

(** C3, on the code: the uint32 register DURATION_SESSION holding the words
    [lo = 0x0000, hi = 0x8000] decodes to -2147483648, not to the unsigned
    value 0x8000 * 2^16 + 0 = 2147483648. *)
Theorem C3_uint32_decode_negative :
  REGISTERS !! "DURATION_SESSION" = Some DURATION_SESSION
  /\ parseRegisterValue DURATION_SESSION (buffer_of_words [0x0000; 0x8000])
     = Return (JNum (of_Z (- 2147483648)))
  /\ ~ returns_number
         (parseRegisterValue DURATION_SESSION (buffer_of_words [0x0000; 0x8000]))
         (0x8000 * 2 ^ 16 + 0x0000).
Proof.
  split; [vm_compute; reflexivity|].
  assert (Hp : parseRegisterValue DURATION_SESSION (buffer_of_words [0x0000; 0x8000])
               = Return (JNum (of_Z (- 2147483648)))) by (vm_compute; reflexivity).
  split; [exact Hp|].
  intros [v [Hv Heq]]. rewrite Hp in Hv. injection Hv as <-.
  vm_compute in Heq. discriminate.
Qed.

(** ** The ascii case *)

Lemma swap_loop_words (ws : list Z) :
  forall (pre done junk : Buffer) (fuel : nat),
    length pre = length done ->
    length junk = length (buffer_of_words ws) ->
    (length ws <= fuel)%nat ->
    swap_loop fuel (pre ++ buffer_of_words ws) (done ++ junk) (length pre)
    = done ++ swapped_words ws.
Proof.
  induction ws as [|w ws IH]; intros pre done junk fuel Hlen Hjunk Hfuel.
  - destruct junk; [|discriminate]. simpl. rewrite !app_nil_r.
    destruct fuel; simpl; [reflexivity|].
    rewrite Nat.ltb_irrefl. reflexivity.
  - destruct fuel as [|fuel]; [simpl in Hfuel; lia|].
    destruct junk as [|j0 [|j1 junk]]; try discriminate.
    change (buffer_of_words (w :: ws))
      with (u8 (w / 2 ^ 8) :: u8 w :: buffer_of_words ws) in *.
    change (swapped_words (w :: ws))
      with (u8 w :: u8 (w / 2 ^ 8) :: swapped_words ws).
    cbn [swap_loop].
    replace (length pre <? length (pre ++ u8 (w / 2 ^ 8) :: u8 w :: buffer_of_words ws))%nat
      with true by (symmetry; apply Nat.ltb_lt; rewrite length_app; simpl; lia).
    assert (H0 : index_u8 (pre ++ u8 (w / 2 ^ 8) :: u8 w :: buffer_of_words ws) (length pre)
                 = u8 (w / 2 ^ 8)).
    { unfold index_u8. rewrite list_lookup_middle by reflexivity. reflexivity. }
    assert (H1 : index_u8 (pre ++ u8 (w / 2 ^ 8) :: u8 w :: buffer_of_words ws) (length pre + 1)
                 = u8 w).
    { unfold index_u8.
      rewrite (lookup_app_r pre) by lia.
      replace (length pre + 1 - length pre)%nat with 1%nat by lia. reflexivity. }
    rewrite H0, H1.
    rewrite (insert_app_r_alt done) by lia.
    replace (length pre - length done)%nat with 0%nat by lia.
    rewrite (insert_app_r_alt done) by lia.
    replace (length pre + 1 - length done)%nat with 1%nat by lia.
    cbn [insert list_insert].
    replace (pre ++ u8 (w / 2 ^ 8) :: u8 w :: buffer_of_words ws)
      with ((pre ++ [u8 (w / 2 ^ 8); u8 w]) ++ buffer_of_words ws)
      by (rewrite <- app_assoc; reflexivity).
    replace (done ++ u8 w :: u8 (w / 2 ^ 8) :: junk)
      with ((done ++ [u8 w; u8 (w / 2 ^ 8)]) ++ junk)
      by (rewrite <- app_assoc; reflexivity).
    replace (length pre + 2)%nat with (length (pre ++ [u8 (w / 2 ^ 8); u8 w]))
      by (rewrite length_app; reflexivity).
    rewrite IH.
    + rewrite <- app_assoc. reflexivity.
    + rewrite !length_app. simpl. lia.
    + simpl in Hjunk. lia.
    + simpl in Hfuel. lia.
Qed.

Lemma length_buffer_of_words (ws : list Z) :
  length (buffer_of_words ws) = (2 * length ws)%nat.
Proof. induction ws as [|w ws IH]; simpl; [reflexivity | rewrite IH; lia]. Qed.

Lemma parse_ascii (register : Register) (ws : list Z) :
  r_type register = "ascii" ->
  parseRegisterValue register (buffer_of_words ws)
  = Return (JStr (trim (remove_nul (toString_ascii (swapped_words ws))))).
Proof.
  intros Hty. switch_on Hty.
  pose proof (swap_loop_words ws [] [] (allocUnsafe (length (buffer_of_words ws)))
                (length (buffer_of_words ws))) as H.
  simpl in H. rewrite H; [reflexivity|reflexivity| |].
  - unfold allocUnsafe. apply length_replicate.
  - rewrite length_buffer_of_words. lia.
Qed.

Lemma has_nul_remove_nul (s : string) : has_nul (remove_nul s) = false.
Proof.
  induction s as [|c s IH]; simpl; [reflexivity|].
  destruct (Ascii.eqb c zero) eqn:E; simpl; [assumption|].
  rewrite E. assumption.
Qed.

Lemma has_nul_trimStart (s : string) : has_nul s = false -> has_nul (trimStart s) = false.
Proof.
  induction s as [|c s IH]; simpl; [reflexivity|]. intros H.
  apply orb_false_iff in H as [Hc Hs].
  destruct (is_white c); [auto|]. simpl. rewrite Hc. assumption.
Qed.

Lemma has_nul_trimEnd (s : string) : has_nul s = false -> has_nul (trimEnd s) = false.
Proof.
  induction s as [|c s IH]; simpl; [reflexivity|]. intros H.
  apply orb_false_iff in H as [Hc Hs]. specialize (IH Hs).
  destruct (trimEnd s) as [|c' t].
  - destruct (is_white c); simpl; [reflexivity|]. rewrite Hc. reflexivity.
  - simpl. rewrite Hc. exact IH.
Qed.

Lemma starts_white_trimStart (s : string) : starts_white (trimStart s) = false.
Proof.
  induction s as [|c s IH]; simpl; [reflexivity|].
  destruct (is_white c) eqn:E; [assumption|]. simpl. assumption.
Qed.

Lemma starts_white_trimEnd (s : string) :
  starts_white s = false -> starts_white (trimEnd s) = false.
Proof.
  destruct s as [|c s]; simpl; [reflexivity|]. intros H.
  destruct (trimEnd s); [rewrite H|]; simpl; trivial.
Qed.

Lemma ends_white_trimEnd (s : string) : ends_white (trimEnd s) = false.
Proof.
  induction s as [|c s IH]; simpl; [reflexivity|].
  destruct (trimEnd s) as [|c' t].
  - destruct (is_white c) eqn:E; simpl; [reflexivity | assumption].
  - exact IH.
Qed.

(** C7, as amended: decoding an ascii register exchanges the two bytes of
    every word, concatenates the bytes in word order, removes every NUL
    character and trims the white space at both ends; the word pair
    [0x3256, 0x312E] decodes to the text V2.1. *)
Theorem C7_ascii_decode (register : Register) (ws : list Z) :
  r_type register = "ascii" ->
  let text := trim (remove_nul (toString_ascii (swapped_words ws))) in
  parseRegisterValue register (buffer_of_words ws) = Return (JStr text)
  /\ has_nul text = false
  /\ starts_white text = false
  /\ ends_white text = false
  /\ parseRegisterValue register (buffer_of_words [0x3256; 0x312E])
     = Return (JStr "V2.1").
Proof.
  intros Hty text. split; [apply parse_ascii; assumption|].
  split; [|split; [|split]].
  - apply has_nul_trimEnd, has_nul_trimStart, has_nul_remove_nul.
  - apply starts_white_trimEnd, starts_white_trimStart.
  - apply ends_white_trimEnd.
  - rewrite parse_ascii by assumption. vm_compute. reflexivity.
Qed.

(** The amended C7 at the descriptor of FIRMWARE_VERSION and the words
    [0x3256, 0x312E]. *)
Lemma C7_ascii_decode_witness :
  r_type FIRMWARE_VERSION = "ascii"
  /\ let text := trim (remove_nul (toString_ascii (swapped_words [0x3256; 0x312E]))) in
     parseRegisterValue FIRMWARE_VERSION (buffer_of_words [0x3256; 0x312E])
     = Return (JStr text)
     /\ has_nul text = false
     /\ starts_white text = false
     /\ ends_white text = false
     /\ parseRegisterValue FIRMWARE_VERSION (buffer_of_words [0x3256; 0x312E])
        = Return (JStr "V2.1").
Proof.
  split; [reflexivity|].
  apply (C7_ascii_decode FIRMWARE_VERSION [0x3256; 0x312E]). reflexivity.
Defined.

(** C7, as stated, fails: the word pair [0x3256, 0x312E] does not decode to
    the text V1. (with its final dot). *)
Lemma C7_counterexample :
  parseRegisterValue FIRMWARE_VERSION (buffer_of_words [0x3256; 0x312E])
  <> Return (JStr "V1.").
Proof. vm_compute. discriminate. Qed.

(** ** The retry recursion *)

Lemma REGISTERS_get_own (name : string) (register : Register) :
  REGISTERS !! name = Some register -> REGISTERS_get name = Own register.
Proof. unfold REGISTERS_get. intros ->. reflexivity. Qed.

Lemma retry_or_fail_last {A} (cfg : Config) (retry : M A) (rc : Z) (e : JsError) :
  maxRetries cfg <= rc -> retry_or_fail cfg retry rc e = final_failure cfg e.
Proof.
  intros H. unfold retry_or_fail, final_failure, indicates_lost.
  replace (rc <? maxRetries cfg) with false by (symmetry; apply Z.ltb_ge; lia).
  reflexivity.
Qed.

Lemma retry_or_fail_again {A} (cfg : Config) (retry : M A) (rc : Z)
    (e : JsError) (c : Client) :
  rc < maxRetries cfg ->
  retry_or_fail cfg retry rc e c = retry (observe (Delay 500) c).
Proof.
  intros H. unfold retry_or_fail.
  replace (rc <? maxRetries cfg) with true by (symmetry; apply Z.ltb_lt; lia).
  reflexivity.
Qed.

Lemma readRegister_body_last (cfg : Config) (r1 r2 : M JsValue) (name : string)
    (rc : Z) (c : Client) :
  maxRetries cfg <= rc ->
  readRegister_body cfg r1 name rc c = readRegister_body cfg r2 name rc c.
Proof.
  intros H. unfold readRegister_body.
  destruct (REGISTERS_get name) as [register| |]; try reflexivity.
  destruct (negb (includes (r_access register) "R")); try reflexivity.
  unfold try_catch. destruct (read_attempt register c) as [[a|e] c']; [reflexivity|].
  rewrite !retry_or_fail_last by assumption. reflexivity.
Qed.

(** [readRegister] satisfies the recursive equation of the source: the
    fuel never runs out. *)
Lemma readRegister_unfold (cfg : Config) (name : string) (rc : Z) (c : Client) :
  readRegister cfg name rc c
  = readRegister_body cfg (readRegister cfg name (rc + 1)) name rc c.
Proof.
  unfold readRegister. destruct (Z.ltb_spec rc (maxRetries cfg)).
  - replace (Z.to_nat (maxRetries cfg - rc))
      with (S (Z.to_nat (maxRetries cfg - (rc + 1)))) by lia.
    reflexivity.
  - replace (Z.to_nat (maxRetries cfg - rc)) with 0%nat by lia.
    simpl. apply readRegister_body_last. lia.
Qed.

Lemma writeRegister_body_last (cfg : Config) (r1 r2 : M unit) (name : string)
    (value : number) (rc : Z) (c : Client) :
  maxRetries cfg <= rc ->
  writeRegister_body cfg r1 name value rc c
  = writeRegister_body cfg r2 name value rc c.
Proof.
  intros H. unfold writeRegister_body.
  destruct (REGISTERS_get name) as [register| |]; try reflexivity.
  destruct (negb (includes (r_access register) "W")); try reflexivity.
  unfold try_catch.
  destruct (write_attempt register value c) as [[a|e] c']; [reflexivity|].
  rewrite !retry_or_fail_last by assumption. reflexivity.
Qed.

Lemma writeRegister_unfold (cfg : Config) (name : string) (value : number)
    (rc : Z) (c : Client) :
  writeRegister cfg name value rc c
  = writeRegister_body cfg (writeRegister cfg name value (rc + 1)) name value rc c.
Proof.
  unfold writeRegister. destruct (Z.ltb_spec rc (maxRetries cfg)).
  - replace (Z.to_nat (maxRetries cfg - rc))
      with (S (Z.to_nat (maxRetries cfg - (rc + 1)))) by lia.
    reflexivity.
  - replace (Z.to_nat (maxRetries cfg - rc)) with 0%nat by lia.
    simpl. apply writeRegister_body_last. lia.
Qed.

(** For a readable register the call is the [try] block under the retry
    handler. *)
Lemma readRegister_known (cfg : Config) (name : string) (register : Register)
    (rc : Z) (c : Client) :
  REGISTERS !! name = Some register ->
  includes (r_access register) "R" = true ->
  readRegister cfg name rc c
  = try_catch (read_attempt register)
              (retry_or_fail cfg (readRegister cfg name (rc + 1)) rc) c.
Proof.
  intros Hreg Hacc. rewrite readRegister_unfold. unfold readRegister_body.
  rewrite (REGISTERS_get_own _ _ Hreg), Hacc. reflexivity.
Qed.

Lemma writeRegister_known (cfg : Config) (name : string) (register : Register)
    (value : number) (rc : Z) (c : Client) :
  REGISTERS !! name = Some register ->
  includes (r_access register) "W" = true ->
  writeRegister cfg name value rc c
  = try_catch (write_attempt register value)
              (retry_or_fail cfg (writeRegister cfg name value (rc + 1)) rc) c.
Proof.
  intros Hreg Hacc. rewrite writeRegister_unfold. unfold writeRegister_body.
  rewrite (REGISTERS_get_own _ _ Hreg), Hacc. reflexivity.
Qed.

Section RetryLoop.
Context {A : Type}.
Variable cfg : Config.
Variable attempt : M A.
Variable f : Z -> M A.
Hypothesis f_unfold : forall rc c,
  f rc c = try_catch attempt (retry_or_fail cfg (f (rc + 1)) rc) c.

(** An attempt that succeeds ends the call. *)
Lemma retry_loop_success (rc : Z) (c c' : Client) (a : A) :
  attempt c = (Return a, c') -> f rc c = (Return a, c').
Proof. intros H. rewrite f_unfold. unfold try_catch. rewrite H. reflexivity. Qed.

(** An attempt that fails while a retry is left is followed by the pause
    and the next call. *)
Lemma retry_loop_again (rc : Z) (c c' : Client) (e : JsError) :
  attempt c = (Throw e, c') -> rc < maxRetries cfg ->
  f rc c = f (rc + 1) (observe (Delay 500) c').
Proof.
  intros H Hrc. rewrite f_unfold. unfold try_catch. rewrite H.
  apply retry_or_fail_again. assumption.
Qed.

Variable step : Client -> Client.
Variable err : nat -> JsError.
Variable Inv : nat -> Client -> Prop.
Variable bound : nat.
Hypothesis attempt_fails : forall k c,
  (k <= bound)%nat -> Inv k c -> attempt c = (Throw (err k), step c).
Hypothesis Inv_next : forall k c,
  Inv k c -> Inv (S k) (observe (Delay 500) (step c)).

(** When every attempt fails, the call fails after the retries that
    are left, with the error of the last attempt. *)
Lemma retry_loop_exhausted (n : nat) :
  forall (rc : Z) (k : nat) (c : Client),
    n = Z.to_nat (maxRetries cfg - rc) -> (k + n <= bound)%nat -> Inv k c ->
    f rc c = final_failure cfg (err (k + n)%nat) (after_attempts step n c).
Proof.
  induction n as [|n IH]; intros rc k c Hn Hk HI.
  - rewrite f_unfold. unfold try_catch.
    rewrite (attempt_fails k c) by (assumption || lia).
    rewrite retry_or_fail_last by lia.
    replace (k + 0)%nat with k by lia. reflexivity.
  - rewrite (retry_loop_again rc c (step c) (err k)) by
      (try apply attempt_fails; (assumption || lia)).
    rewrite (IH (rc + 1) (S k)) by (try apply Inv_next; (assumption || lia)).
    replace (S k + n)%nat with (k + S n)%nat by lia. reflexivity.
Qed.
End RetryLoop.

Lemma final_failure_other {A} (cfg : Config) (e : JsError) (c : Client) :
  indicates_lost e = false -> @final_failure A cfg e c = (Throw e, c).
Proof. intros H. unfold final_failure. rewrite H. reflexivity. Qed.

Lemma final_failure_lost {A} (cfg : Config) (e : JsError) (c : Client) :
  indicates_lost e = true ->
  exists c', @final_failure A cfg e c = (Throw e, c')
    /\ isConnected c' = false
    /\ reconnecting c' = true
    /\ trace c' = trace c ++ [Emit "connectionLost"]
    /\ timers c' = (if reconnecting c then timers c
                    else <[nextTimer c := reconnect_timer cfg]> (timers c)).
Proof.
  intros H. unfold final_failure. rewrite H.
  unfold scheduleReconnect, mbind, M_bind, modify, emit, get, throw.
  simpl. destruct (reconnecting c) eqn:Hr; simpl; eexists; repeat split;
    simpl; try reflexivity; assumption.
Qed.

Lemma after_attempts_id (n : nat) :
  forall c : Client,
    let c' := after_attempts (fun c => c) n c in
    trace c' = trace c ++ repeat (Delay 500) n
    /\ calls c' = calls c
    /\ isConnected c' = isConnected c
    /\ reconnecting c' = reconnecting c
    /\ timers c' = timers c.
Proof.
  induction n as [|n IH]; intros c; simpl.
  - rewrite app_nil_r. repeat split.
  - destruct (IH (observe (Delay 500) c)) as (Ht & Hc & Hi & Hr & Hm).
    rewrite Ht, Hc, Hi, Hr, Hm. simpl. rewrite <- app_assoc. repeat split.
Qed.

Lemma after_attempts_wire (rq : ModbusRTU.call) (n : nat) :
  forall c : Client,
    let c' := after_attempts (wire_step rq) n c in
    trace c' = trace c ++ failed_attempts rq n
    /\ calls c' = (calls c + S n)%nat
    /\ isConnected c' = isConnected c
    /\ reconnecting c' = reconnecting c
    /\ timers c' = timers c
    /\ nextTimer c' = nextTimer c.
Proof.
  induction n as [|n IH]; intros c; simpl.
  - repeat split. lia.
  - destruct (IH (observe (Delay 500) (wire_step rq c))) as (Ht & Hc & Hi & Hr & Hm & Hn).
    rewrite Ht, Hc, Hi, Hr, Hm, Hn. simpl. rewrite <- !app_assoc.
    repeat split. lia.
Qed.

(** ** Calls on a disconnected session *)

Lemma read_attempt_disconnected (register : Register) (c : Client) :
  isConnected c = false -> read_attempt register c = (Throw not_connected, c).
Proof.
  intros H. unfold read_attempt, mbind, M_bind, get. rewrite H. reflexivity.
Qed.

Lemma write_attempt_disconnected (register : Register) (value : number) (c : Client) :
  isConnected c = false ->
  write_attempt register value c = (Throw not_connected, c).
Proof.
  intros H. unfold write_attempt, mbind, M_bind, get. rewrite H. reflexivity.
Qed.

Lemma not_connected_not_lost : indicates_lost not_connected = false.
Proof. vm_compute. reflexivity. Qed.

Lemma readRegister_disconnected (cfg : Config) (name : string)
    (register : Register) (rc : Z) (c : Client) :
  REGISTERS !! name = Some register ->
  includes (r_access register) "R" = true ->
  isConnected c = false ->
  readRegister cfg name rc c
  = (Throw not_connected,
     after_attempts (fun c => c) (Z.to_nat (maxRetries cfg - rc)) c).
Proof.
  intros Hreg Hacc Hc.
  rewrite (retry_loop_exhausted cfg (read_attempt register) (readRegister cfg name)
             (fun rc c => readRegister_known cfg name register rc c Hreg Hacc)
             (fun c => c) (fun _ => not_connected)
             (fun _ c => isConnected c = false)
             (Z.to_nat (maxRetries cfg - rc))
             (fun k c _ H => read_attempt_disconnected register c H)
             (fun k c H => H)
             (Z.to_nat (maxRetries cfg - rc)) rc 0%nat c eq_refl (le_n _) Hc).
  apply final_failure_other, not_connected_not_lost.
Qed.

Lemma writeRegister_disconnected (cfg : Config) (name : string)
    (register : Register) (value : number) (rc : Z) (c : Client) :
  REGISTERS !! name = Some register ->
  includes (r_access register) "W" = true ->
  isConnected c = false ->
  writeRegister cfg name value rc c
  = (Throw not_connected,
     after_attempts (fun c => c) (Z.to_nat (maxRetries cfg - rc)) c).
Proof.
  intros Hreg Hacc Hc.
  rewrite (retry_loop_exhausted cfg (write_attempt register value)
             (writeRegister cfg name value)
             (fun rc c => writeRegister_known cfg name register value rc c Hreg Hacc)
             (fun c => c) (fun _ => not_connected)
             (fun _ c => isConnected c = false)
             (Z.to_nat (maxRetries cfg - rc))
             (fun k c _ H => write_attempt_disconnected register value c H)
             (fun k c H => H)
             (Z.to_nat (maxRetries cfg - rc)) rc 0%nat c eq_refl (le_n _) Hc).
  apply final_failure_other, not_connected_not_lost.
Qed.

(** C4, as amended: a readRegister or writeRegister call on a known,
    accessible register made while the session is not connected (and staying
    so) fails with the NotConnected error after the retries of the retry
    budget, each preceded by the 500 ms pause: the error is not surfaced
    immediately. No transport call is made, nothing is emitted, and the
    connection state and the timers are left as they were. *)
Theorem C4_not_connected_fails_after_retries (cfg : Config)
    (rname wname : string) (rreg wreg : Register) (value : number) (c : Client) :
  REGISTERS !! rname = Some rreg -> includes (r_access rreg) "R" = true ->
  REGISTERS !! wname = Some wreg -> includes (r_access wreg) "W" = true ->
  isConnected c = false ->
  let c' := after_attempts (fun c => c) (Z.to_nat (maxRetries cfg)) c in
  readRegister cfg rname 0 c = (Throw not_connected, c')
  /\ writeRegister cfg wname value 0 c = (Throw not_connected, c')
  /\ trace c' = trace c ++ repeat (Delay 500) (Z.to_nat (maxRetries cfg))
  /\ calls c' = calls c
  /\ isConnected c' = false
  /\ reconnecting c' = reconnecting c
  /\ timers c' = timers c.
Proof.
  intros Hr Har Hw Haw Hc c'.
  destruct (after_attempts_id (Z.to_nat (maxRetries cfg)) c) as (Ht & Hk & Hi & Hrc & Hm).
  split; [|split].
  - rewrite (readRegister_disconnected cfg rname rreg 0 c) by assumption.
    rewrite Z.sub_0_r. reflexivity.
  - rewrite (writeRegister_disconnected cfg wname wreg value 0 c) by assumption.
    rewrite Z.sub_0_r. reflexivity.
  - subst c'. rewrite Hi. auto.
Qed.

(** The amended C4 on a fresh, disconnected client with the default
    configuration, for EVSE_STATE (readable) and HEARTBEAT_EM (writable). *)
Lemma C4_not_connected_fails_after_retries_witness :
  let c := new_client true always_resolves in
  let c' := after_attempts (fun c => c) (Z.to_nat (maxRetries default_config)) c in
  (REGISTERS !! "EVSE_STATE" = Some EVSE_STATE
   /\ includes (r_access EVSE_STATE) "R" = true
   /\ REGISTERS !! "HEARTBEAT_EM" = Some HEARTBEAT_EM
   /\ includes (r_access HEARTBEAT_EM) "W" = true
   /\ isConnected c = false)
  /\ readRegister default_config "EVSE_STATE" 0 c = (Throw not_connected, c')
  /\ writeRegister default_config "HEARTBEAT_EM" (of_Z 0x55AA) 0 c
     = (Throw not_connected, c')
  /\ trace c' = trace c ++ repeat (Delay 500) (Z.to_nat (maxRetries default_config))
  /\ calls c' = calls c
  /\ isConnected c' = false
  /\ reconnecting c' = reconnecting c
  /\ timers c' = timers c.
Proof.
  assert (H1 : REGISTERS !! "EVSE_STATE" = Some EVSE_STATE) by (vm_compute; reflexivity).
  assert (H2 : REGISTERS !! "HEARTBEAT_EM" = Some HEARTBEAT_EM) by (vm_compute; reflexivity).
  intros c c'. split.
  - repeat split; assumption || reflexivity.
  - apply (C4_not_connected_fails_after_retries default_config
             "EVSE_STATE" "HEARTBEAT_EM" EVSE_STATE HEARTBEAT_EM (of_Z 0x55AA) c);
      assumption || reflexivity.
Defined.

(** C4, as stated, fails: with the default configuration, readRegister on
    the readable register EVSE_STATE of a disconnected session does not fail
    immediately; three pauses of 500 ms are observed before the error. *)
Lemma C4_counterexample :
  let c := new_client true always_resolves in
  let r := readRegister default_config "EVSE_STATE" 0 c in
  fst r = Throw not_connected
  /\ trace (snd r) = [Delay 500; Delay 500; Delay 500]
  /\ ~ (trace (snd r) = trace c).
Proof.
  vm_compute. repeat split. discriminate.
Qed.

(** ** Transport failures *)

Lemma read_attempt_rejected (register : Register) (c : Client) (e : JsError) :
  isConnected c = true ->
  transport c (calls c)
    (ModbusRTU.readHoldingRegisters (r_address register) (r_length register))
  = Rejected e ->
  read_attempt register c
  = (Throw e,
     wire_step (ModbusRTU.readHoldingRegisters (r_address register)
                                               (r_length register)) c).
Proof.
  intros Hc Ht. unfold read_attempt, mbind, M_bind, get, await_client.
  rewrite Hc. simpl. rewrite Ht. reflexivity.
Qed.

Lemma write_attempt_rejected (register : Register) (value : number)
    (words : list number) (c : Client) (e : JsError) :
  isConnected c = true ->
  encodeRegisterValue register value = Return words ->
  transport c (calls c) (write_request register words) = Rejected e ->
  write_attempt register value c
  = (Throw e, wire_step (write_request register words) c).
Proof.
  intros Hc He Ht. unfold write_attempt, mbind, M_bind, get, lift, await_client.
  rewrite Hc, He. simpl. rewrite Ht. reflexivity.
Qed.

Lemma read_attempt_connected (register : Register) (c : Client) :
  isConnected c = true ->
  read_attempt register c
  = (match transport c (calls c)
             (ModbusRTU.readHoldingRegisters (r_address register)
                                             (r_length register)) with
     | Resolved buffer => parseRegisterValue register buffer
     | Rejected e => Throw e
     end,
     wire_step (ModbusRTU.readHoldingRegisters (r_address register)
                                               (r_length register)) c).
Proof.
  intros Hc. unfold read_attempt, mbind, M_bind, get, await_client, lift.
  rewrite Hc. simpl. destruct (transport c (calls c) _) as [buffer|e]; simpl.
  - destruct (parseRegisterValue register buffer); reflexivity.
  - reflexivity.
Qed.

Lemma write_attempt_connected (register : Register) (value : number)
    (words : list number) (c : Client) :
  isConnected c = true ->
  encodeRegisterValue register value = Return words ->
  write_attempt register value c
  = (match transport c (calls c) (write_request register words) with
     | Resolved _ => Return tt
     | Rejected e => Throw e
     end,
     wire_step (write_request register words) c).
Proof.
  intros Hc He. unfold write_attempt, mbind, M_bind, get, await_client, lift.
  rewrite Hc, He. simpl.
  destruct (transport c (calls c) _) as [buffer|e]; reflexivity.
Qed.

Lemma failing_run_next (rq : ModbusRTU.call) (c0 : Client) (k : nat) (c : Client) :
  failing_run c0 k c -> failing_run c0 (S k) (observe (Delay 500) (wire_step rq c)).
Proof.
  intros (Hc & Hk & Ht). unfold failing_run. simpl.
  rewrite Hk. repeat split; (assumption || lia).
Qed.

Section AllAttemptsFail.
Variable cfg : Config.
Variable c : Client.
Variable err : nat -> JsError.
Abbreviation n := (Z.to_nat (maxRetries cfg)).
Hypothesis connected : isConnected c = true.
Hypothesis rejected : forall k rq,
  (k <= n)%nat -> transport c (calls c + k)%nat rq = Rejected (err k).

Lemma readRegister_all_rejected (name : string) (register : Register) :
  REGISTERS !! name = Some register ->
  includes (r_access register) "R" = true ->
  readRegister cfg name 0 c
  = final_failure cfg (err n)
      (after_attempts
         (wire_step (ModbusRTU.readHoldingRegisters (r_address register)
                                                    (r_length register))) n c).
Proof.
  intros Hreg Hacc.
  apply (retry_loop_exhausted cfg (read_attempt register) (readRegister cfg name)
           (fun rc c => readRegister_known cfg name register rc c Hreg Hacc)
           (wire_step (ModbusRTU.readHoldingRegisters (r_address register)
                                                      (r_length register)))
           err (failing_run c) n) with (rc := 0) (k := 0%nat).
  - intros k c1 Hk (Hc & Hcalls & Ht). apply read_attempt_rejected; [assumption|].
    rewrite Ht, Hcalls. apply rejected. assumption.
  - intros k c1. apply failing_run_next.
  - rewrite Z.sub_0_r. reflexivity.
  - lia.
  - unfold failing_run. repeat split; (assumption || lia).
Qed.

Lemma writeRegister_all_rejected (name : string) (register : Register)
    (value : number) (words : list number) :
  REGISTERS !! name = Some register ->
  includes (r_access register) "W" = true ->
  encodeRegisterValue register value = Return words ->
  writeRegister cfg name value 0 c
  = final_failure cfg (err n)
      (after_attempts (wire_step (write_request register words)) n c).
Proof.
  intros Hreg Hacc Henc.
  apply (retry_loop_exhausted cfg (write_attempt register value)
           (writeRegister cfg name value)
           (fun rc c => writeRegister_known cfg name register value rc c Hreg Hacc)
           (wire_step (write_request register words))
           err (failing_run c) n) with (rc := 0) (k := 0%nat).
  - intros k c1 Hk (Hc & Hcalls & Ht).
    apply write_attempt_rejected; [assumption|assumption|].
    rewrite Ht, Hcalls. apply rejected. assumption.
  - intros k c1. apply failing_run_next.
  - rewrite Z.sub_0_r. reflexivity.
  - lia.
  - unfold failing_run. repeat split; (assumption || lia).
Qed.

Lemma final_failure_after_attempts {A} (rq : ModbusRTU.call) :
  indicates_lost (err n) = true ->
  exists c', @final_failure A cfg (err n) (after_attempts (wire_step rq) n c)
             = (Throw (err n), c')
             /\ lost_after cfg rq n c c'.
Proof.
  intros Hlost.
  destruct (@final_failure_lost A cfg (err n) (after_attempts (wire_step rq) n c) Hlost)
    as (c' & Hg & Hi & Hr & Ht & Hm).
  destruct (after_attempts_wire rq n c) as (Ht' & _ & _ & Hr' & Hm' & Hn').
  exists c'. split; [exact Hg|]. unfold lost_after.
  rewrite Hi, Hr, Ht, Hm, Ht', Hr', Hm', Hn', <- app_assoc. repeat split.
Qed.
End AllAttemptsFail.

(** When every attempt of the retry budget fails and the message of the last
    error contains [Port Not Open] or [Timed Out], the session marks itself
    disconnected, emits [connectionLost] and has a reconnect scheduled, once
    the retries are exhausted. *)
Lemma connection_lost_after_last_retry (cfg : Config)
    (rname wname : string) (rreg wreg : Register) (value : number)
    (words : list number) (err : nat -> JsError) (c : Client) :
  REGISTERS !! rname = Some rreg -> includes (r_access rreg) "R" = true ->
  REGISTERS !! wname = Some wreg -> includes (r_access wreg) "W" = true ->
  encodeRegisterValue wreg value = Return words ->
  isConnected c = true ->
  (forall k rq, (k <= Z.to_nat (maxRetries cfg))%nat ->
                transport c (calls c + k)%nat rq = Rejected (err k)) ->
  indicates_lost (err (Z.to_nat (maxRetries cfg))) = true ->
  let n := Z.to_nat (maxRetries cfg) in
  exists cr cw,
    readRegister cfg rname 0 c = (Throw (err n), cr)
    /\ lost_after cfg (ModbusRTU.readHoldingRegisters (r_address rreg)
                                                     (r_length rreg)) n c cr
    /\ writeRegister cfg wname value 0 c = (Throw (err n), cw)
    /\ lost_after cfg (write_request wreg words) n c cw.
Proof.
  intros Hr Har Hw Haw Henc Hc Hrej Hlost n.
  destruct (@final_failure_after_attempts cfg c err JsValue
              (ModbusRTU.readHoldingRegisters (r_address rreg) (r_length rreg)) Hlost)
    as (cr & Hgr & Hlr).
  destruct (@final_failure_after_attempts cfg c err unit (write_request wreg words) Hlost)
    as (cw & Hgw & Hlw).
  exists cr, cw. split; [|split; [|split]].
  - rewrite (readRegister_all_rejected cfg c err Hc Hrej rname rreg Hr Har). exact Hgr.
  - exact Hlr.
  - rewrite (writeRegister_all_rejected cfg c err Hc Hrej wname wreg value words Hw Haw Henc).
    exact Hgw.
  - exact Hlw.
Qed.

Lemma failed_attempts_no_emit (rq : ModbusRTU.call) (event : string) (n : nat) :
  ~ In (Emit event) (failed_attempts rq n).
Proof.
  induction n as [|n IH]; simpl.
  - intros [H|[]]. discriminate.
  - intros [H|[H|H]]; [discriminate | discriminate | exact (IH H)].
Qed.

(** The test of the [catch] blocks is case-sensitive: it finds [Timed Out],
    which the message of the transport's timeout error does not contain. *)
Lemma timeout_not_lost :
  indicates_lost TransactionTimedOutError = false
  /\ indicates_lost (Error "Timed Out") = true
  /\ indicates_lost PortNotOpenError = true.
Proof. vm_compute. repeat split. Qed.

(** C5, on the code: a timeout does not trigger the connection-lost
    transition. When the transport rejects every attempt of a read or write,
    the last one included, with its timeout error (message [Timed out]), the
    call throws that error after the retries and the session is left
    connected: [connectionLost] is not emitted and no reconnect is scheduled.
    The [catch] blocks look for the text [Timed Out], which that message does
    not contain. *)
Theorem C5_timeout_not_detected (cfg : Config)
    (rname wname : string) (rreg wreg : Register) (value : number)
    (words : list number) (c : Client) :
  REGISTERS !! rname = Some rreg -> includes (r_access rreg) "R" = true ->
  REGISTERS !! wname = Some wreg -> includes (r_access wreg) "W" = true ->
  encodeRegisterValue wreg value = Return words ->
  isConnected c = true ->
  (forall k rq, (k <= Z.to_nat (maxRetries cfg))%nat ->
                transport c (calls c + k)%nat rq
                = Rejected TransactionTimedOutError) ->
  let n := Z.to_nat (maxRetries cfg) in
  let rrq := ModbusRTU.readHoldingRegisters (r_address rreg) (r_length rreg) in
  let wrq := write_request wreg words in
  let cr := after_attempts (wire_step rrq) n c in
  let cw := after_attempts (wire_step wrq) n c in
  readRegister cfg rname 0 c = (Throw TransactionTimedOutError, cr)
  /\ writeRegister cfg wname value 0 c = (Throw TransactionTimedOutError, cw)
  /\ isConnected cr = true /\ isConnected cw = true
  /\ reconnecting cr = reconnecting c /\ reconnecting cw = reconnecting c
  /\ timers cr = timers c /\ timers cw = timers c
  /\ trace cr = trace c ++ failed_attempts rrq n
  /\ trace cw = trace c ++ failed_attempts wrq n
  /\ ~ In (Emit "connectionLost") (failed_attempts rrq n)
  /\ ~ In (Emit "connectionLost") (failed_attempts wrq n)
  /\ indicates_lost TransactionTimedOutError = false
  /\ indicates_lost (Error "Timed Out") = true.
Proof.
  intros Hr Har Hw Haw Henc Hc Hrej n rrq wrq cr cw.
  destruct timeout_not_lost as (Hno & Hyes & _).
  destruct (after_attempts_wire rrq n c) as (Htr & _ & Hir & Hrr & Hmr & _).
  destruct (after_attempts_wire wrq n c) as (Htw & _ & Hiw & Hrw & Hmw & _).
  split; [|split].
  - rewrite (readRegister_all_rejected cfg c (fun _ => TransactionTimedOutError)
               Hc Hrej rname rreg Hr Har).
    apply final_failure_other. exact Hno.
  - rewrite (writeRegister_all_rejected cfg c (fun _ => TransactionTimedOutError)
               Hc Hrej wname wreg value words Hw Haw Henc).
    apply final_failure_other. exact Hno.
  - subst cr cw. rewrite Hir, Hiw.
    repeat split; try assumption; apply failed_attempts_no_emit.
Qed.

(** C5 on a connected client whose transport answers every call with its
    timeout error, with the default configuration. *)
Lemma C5_timeout_not_detected_witness :
  let c := connected_client (fun _ _ => Rejected TransactionTimedOutError) in
  let n := Z.to_nat (maxRetries default_config) in
  let rrq := ModbusRTU.readHoldingRegisters (r_address EVSE_STATE)
                                            (r_length EVSE_STATE) in
  let wrq := write_request HEARTBEAT_EM [of_Z 0x55AA] in
  let cr := after_attempts (wire_step rrq) n c in
  let cw := after_attempts (wire_step wrq) n c in
  (REGISTERS !! "EVSE_STATE" = Some EVSE_STATE
   /\ includes (r_access EVSE_STATE) "R" = true
   /\ REGISTERS !! "HEARTBEAT_EM" = Some HEARTBEAT_EM
   /\ includes (r_access HEARTBEAT_EM) "W" = true
   /\ encodeRegisterValue HEARTBEAT_EM (of_Z 0x55AA) = Return [of_Z 0x55AA]
   /\ isConnected c = true
   /\ (forall k rq, (k <= n)%nat ->
                    transport c (calls c + k)%nat rq
                    = Rejected TransactionTimedOutError))
  /\ readRegister default_config "EVSE_STATE" 0 c
     = (Throw TransactionTimedOutError, cr)
  /\ writeRegister default_config "HEARTBEAT_EM" (of_Z 0x55AA) 0 c
     = (Throw TransactionTimedOutError, cw)
  /\ isConnected cr = true /\ isConnected cw = true
  /\ reconnecting cr = reconnecting c /\ reconnecting cw = reconnecting c
  /\ timers cr = timers c /\ timers cw = timers c
  /\ trace cr = trace c ++ failed_attempts rrq n
  /\ trace cw = trace c ++ failed_attempts wrq n
  /\ ~ In (Emit "connectionLost") (failed_attempts rrq n)
  /\ ~ In (Emit "connectionLost") (failed_attempts wrq n)
  /\ indicates_lost TransactionTimedOutError = false
  /\ indicates_lost (Error "Timed Out") = true.
Proof.
  assert (H1 : REGISTERS !! "EVSE_STATE" = Some EVSE_STATE) by (vm_compute; reflexivity).
  assert (H2 : REGISTERS !! "HEARTBEAT_EM" = Some HEARTBEAT_EM) by (vm_compute; reflexivity).
  assert (H3 : encodeRegisterValue HEARTBEAT_EM (of_Z 0x55AA) = Return [of_Z 0x55AA])
    by (vm_compute; reflexivity).
  intros c n rrq wrq cr cw. split.
  - repeat split; try assumption; reflexivity.
  - apply (C5_timeout_not_detected default_config
             "EVSE_STATE" "HEARTBEAT_EM" EVSE_STATE HEARTBEAT_EM
             (of_Z 0x55AA) [of_Z 0x55AA] c);
      try assumption; reflexivity.
Defined.

(** ** Reconnection *)

Lemma scheduleReconnect_pending (cfg : Config) (c : Client) :
  reconnecting c = true -> scheduleReconnect cfg c = (Return tt, c).
Proof.
  intros H. unfold scheduleReconnect, mbind, M_bind, get. rewrite H. reflexivity.
Qed.

Lemma scheduleReconnect_arms (cfg : Config) (c : Client) :
  reconnecting c = false ->
  scheduleReconnect cfg c
  = (Return tt,
     set_timers (<[nextTimer c := reconnect_timer cfg]> (timers c))
                (S (nextTimer c)) (set_reconnecting true c)).
Proof.
  intros H. unfold scheduleReconnect, mbind, M_bind, get. rewrite H. reflexivity.
Qed.

(** A scheduled reconnect attempt whose [connect()] fails leaves no reconnect
    pending, and the flag [reconnecting] stays set, so that every later
    request to schedule one is dropped. *)
Lemma failed_reconnect_attempt (cfg : Config) (c : Client) (e : JsError) :
  reconnecting c = false ->
  timers c !! nextTimer c = None ->
  transport c (calls c) ModbusRTU.connectRTU = Rejected e ->
  let c1 := snd (scheduleReconnect cfg c) in
  let r := fire cfg (nextTimer c) c1 in
  timers c1 = <[nextTimer c := reconnect_timer cfg]> (timers c)
  /\ fst r = Return tt
  /\ timers (snd r) = timers c
  /\ reconnecting (snd r) = true
  /\ isConnected (snd r) = false
  /\ scheduleReconnect cfg (snd r) = (Return tt, snd r).
Proof.
  intros Hr Hfresh Ht c1 r. subst r c1.
  rewrite scheduleReconnect_arms by assumption. simpl.
  split; [reflexivity|].
  unfold fire. simpl. rewrite lookup_insert_eq. simpl.
  rewrite (delete_insert_id _ _ _ Hfresh).
  unfold try_catch, connect, try_catch, mbind, M_bind, await_client, emit_error,
    modify, throw. simpl. rewrite Ht. simpl.
  destruct (errorListener c) eqn:Hl; simpl.
  - unfold scheduleReconnect, mbind, M_bind, get. simpl. repeat split.
  - repeat split.
Qed.

(** C6, on the code: after a scheduled reconnect attempt whose connect()
    call fails, no further reconnect attempt is scheduled. The timer of the
    attempt is consumed, [reconnecting] is still set, and the
    [scheduleReconnect()] call made by the failed [connect()], like every
    later one, returns without arming a timer. *)
Theorem C6_failed_reconnect_not_rescheduled :
  let c0 := new_client true (always_rejects "Port Not Open") in
  let c1 := snd (scheduleReconnect default_config c0) in
  let c2 := snd (fire default_config 0 c1) in
  timers c1 = {[ 0%nat := reconnect_timer default_config ]}
  /\ trace c2 = [Wire ModbusRTU.connectRTU; EmitError (Error "Port Not Open")]
  /\ isConnected c2 = false
  /\ reconnecting c2 = true
  /\ timers c2 = ∅
  /\ scheduleReconnect default_config c2 = (Return tt, c2).
Proof. vm_compute. repeat split. Qed.

(** ** Validation of the register name and of its access rights *)

Lemma readRegister_undefined (cfg : Config) (name : string) (rc : Z) (c : Client) :
  REGISTERS_get name = Undefined ->
  readRegister cfg name rc c = (Throw (Error ("Unknown register: " +:+ name)), c).
Proof.
  intros H. rewrite readRegister_unfold. unfold readRegister_body.
  rewrite H. reflexivity.
Qed.

Lemma writeRegister_undefined (cfg : Config) (name : string) (value : number)
    (rc : Z) (c : Client) :
  REGISTERS_get name = Undefined ->
  writeRegister cfg name value rc c
  = (Throw (Error ("Unknown register: " +:+ name)), c).
Proof.
  intros H. rewrite writeRegister_unfold. unfold writeRegister_body.
  rewrite H. reflexivity.
Qed.

Lemma readRegister_inherited (cfg : Config) (name : string) (rc : Z) (c : Client) :
  REGISTERS_get name = Inherited ->
  readRegister cfg name rc c = (Throw cannot_read_includes, c).
Proof.
  intros H. rewrite readRegister_unfold. unfold readRegister_body.
  rewrite H. reflexivity.
Qed.

Lemma writeRegister_inherited (cfg : Config) (name : string) (value : number)
    (rc : Z) (c : Client) :
  REGISTERS_get name = Inherited ->
  writeRegister cfg name value rc c = (Throw cannot_read_includes, c).
Proof.
  intros H. rewrite writeRegister_unfold. unfold writeRegister_body.
  rewrite H. reflexivity.
Qed.

Lemma readRegister_not_readable (cfg : Config) (name : string)
    (register : Register) (rc : Z) (c : Client) :
  REGISTERS !! name = Some register ->
  includes (r_access register) "R" = false ->
  readRegister cfg name rc c
  = (Throw (Error ("Register " +:+ name +:+ " is not readable")), c).
Proof.
  intros Hreg Hacc. rewrite readRegister_unfold. unfold readRegister_body.
  rewrite (REGISTERS_get_own _ _ Hreg), Hacc. reflexivity.
Qed.

Lemma writeRegister_not_writable (cfg : Config) (name : string)
    (register : Register) (value : number) (rc : Z) (c : Client) :
  REGISTERS !! name = Some register ->
  includes (r_access register) "W" = false ->
  writeRegister cfg name value rc c
  = (Throw (Error ("Register " +:+ name +:+ " is not writable")), c).
Proof.
  intros Hreg Hacc. rewrite writeRegister_unfold. unfold writeRegister_body.
  rewrite (REGISTERS_get_own _ _ Hreg), Hacc. reflexivity.
Qed.

(** A name that is not in the catalog never reaches the transport: the call
    throws and leaves the client, with its count of transport calls and its
    observations, as it was. *)
Lemma readRegister_unknown_no_io (cfg : Config) (name : string) (rc : Z) (c : Client) :
  REGISTERS !! name = None ->
  exists e, readRegister cfg name rc c = (Throw e, c).
Proof.
  intros H. destruct (REGISTERS_get name) as [register| |] eqn:E.
  - unfold REGISTERS_get in E. rewrite H in E.
    destruct (bool_decide _) in E; discriminate.
  - eexists. apply readRegister_inherited. assumption.
  - eexists. apply readRegister_undefined. assumption.
Qed.

(** C8, on the code: [constructor] is not a name of the catalog, yet
    readRegister does not fail with the UnknownRegister error on it: the
    lookup finds the inherited property and the access check throws a
    TypeError. No transport call is made. *)
Theorem C8_inherited_name_type_error (cfg : Config) (c : Client) :
  REGISTERS !! "constructor" = None
  /\ readRegister cfg "constructor" 0 c = (Throw cannot_read_includes, c)
  /\ cannot_read_includes <> Error ("Unknown register: " +:+ "constructor").
Proof.
  split; [vm_compute; reflexivity|]. split; [|discriminate].
  apply readRegister_inherited. vm_compute. reflexivity.
Qed.

(** C10, on the code: for the unknown names [toString] and [__proto__], on a
    session in any connection state, writeRegister and readRegister throw a
    TypeError instead of the UnknownRegister error (without retry, pause or
    change of state). *)
Theorem C10_inherited_name_not_unknown_register (cfg : Config)
    (value : number) (c : Client) :
  REGISTERS !! "toString" = None
  /\ REGISTERS !! "__proto__" = None
  /\ writeRegister cfg "toString" value 0 c = (Throw cannot_read_includes, c)
  /\ readRegister cfg "__proto__" 0 c = (Throw cannot_read_includes, c)
  /\ cannot_read_includes <> Error ("Unknown register: " +:+ "toString")
  /\ cannot_read_includes <> Error ("Unknown register: " +:+ "__proto__").
Proof.
  split; [vm_compute; reflexivity|]. split; [vm_compute; reflexivity|].
  split; [apply writeRegister_inherited; vm_compute; reflexivity|].
  split; [apply readRegister_inherited; vm_compute; reflexivity|].
  split; discriminate.
Qed.

(** Apart from the inherited names, validation comes before the connection
    check: whatever the connection state, a name that resolves to nothing
    and a register without the required access right make the call throw at
    once, leaving the client as it was. *)
Lemma validation_precedes_connection (cfg : Config) (name : string)
    (value : number) (c : Client) :
  (REGISTERS_get name = Undefined ->
     readRegister cfg name 0 c
     = (Throw (Error ("Unknown register: " +:+ name)), c)
     /\ writeRegister cfg name value 0 c
        = (Throw (Error ("Unknown register: " +:+ name)), c))
  /\ (forall register,
        REGISTERS !! name = Some register ->
        (includes (r_access register) "R" = false ->
           readRegister cfg name 0 c
           = (Throw (Error ("Register " +:+ name +:+ " is not readable")), c))
        /\ (includes (r_access register) "W" = false ->
              writeRegister cfg name value 0 c
              = (Throw (Error ("Register " +:+ name +:+ " is not writable")), c))).
Proof.
  split.
  - intros H. split; [apply readRegister_undefined | apply writeRegister_undefined];
      assumption.
  - intros register Hreg. split; intros Hacc.
    + apply readRegister_not_readable with register; assumption.
    + apply writeRegister_not_writable with register; assumption.
Qed.

(** ** The keep-alive scheduler *)

Lemma stopHeartbeat_not_running (c : Client) :
  heartbeatInterval c = None -> stopHeartbeat c = (Return tt, c).
Proof.
  intros H. unfold stopHeartbeat, mbind, M_bind, get. rewrite H. reflexivity.
Qed.

Lemma stopHeartbeat_running (c : Client) (id : nat) :
  heartbeatInterval c = Some id ->
  stopHeartbeat c
  = (Return tt,
     set_heartbeatInterval None (set_timers (delete id (timers c)) (nextTimer c) c)).
Proof.
  intros H. unfold stopHeartbeat, mbind, M_bind, get. rewrite H. reflexivity.
Qed.

Lemma startHeartbeat_not_running (c : Client) :
  heartbeatInterval c = None ->
  startHeartbeat c
  = (Return tt,
     set_heartbeatInterval (Some (S (nextTimer c)))
       (set_timers
          (<[S (nextTimer c) := beat_timer]>
             (<[nextTimer c := first_beat_timer]> (timers c)))
          (S (S (nextTimer c))) c)).
Proof.
  intros H. unfold startHeartbeat, mbind, M_bind, get. rewrite H. reflexivity.
Qed.

Lemma sendHeartbeat_connected (cfg : Config) (c : Client) :
  isConnected c = true -> resolves c (calls c) heartbeat_request ->
  sendHeartbeat cfg c = (Return tt, wire_step heartbeat_request c).
Proof.
  intros Hc [buffer Hres]. unfold sendHeartbeat, try_catch.
  assert (Hreg : REGISTERS !! "HEARTBEAT_EM" = Some HEARTBEAT_EM)
    by (vm_compute; reflexivity).
  assert (Henc : encodeRegisterValue HEARTBEAT_EM (of_Z 0x55AA) = Return [of_Z 0x55AA])
    by (vm_compute; reflexivity).
  rewrite (writeRegister_known cfg "HEARTBEAT_EM" HEARTBEAT_EM _ 0 c Hreg eq_refl).
  unfold try_catch.
  rewrite (write_attempt_connected HEARTBEAT_EM _ [of_Z 0x55AA] c Hc Henc).
  change (write_request HEARTBEAT_EM [of_Z 21930]) with heartbeat_request.
  rewrite Hres. reflexivity.
Qed.

(** The client after startHeartbeat followed by stopHeartbeat. *)
Lemma start_then_stop (c : Client) :
  fresh_timers c -> heartbeatInterval c = None ->
  snd (stopHeartbeat (snd (startHeartbeat c)))
  = set_heartbeatInterval None
      (set_timers (<[nextTimer c := first_beat_timer]> (timers c))
                  (S (S (nextTimer c))) c).
Proof.
  intros Hfresh Hnone.
  rewrite (startHeartbeat_not_running c Hnone). cbn [snd].
  match goal with
  | |- context [stopHeartbeat (set_heartbeatInterval (Some ?id) ?c0)] =>
      rewrite (stopHeartbeat_running (set_heartbeatInterval (Some id) c0) id eq_refl)
  end.
  simpl.
  assert (Hfree : (<[nextTimer c := first_beat_timer]> (timers c)) !! S (nextTimer c) = None).
  { rewrite lookup_insert_ne by lia. apply Hfresh. lia. }
  rewrite (delete_insert_id _ _ _ Hfree). reflexivity.
Qed.

(** C9, on the code: stopHeartbeat cancels the recurring interval timer
    only. The initial-delay trigger armed by startHeartbeat is not recorded
    and not cancelled: after startHeartbeat followed by stopHeartbeat it is
    still armed, and when it expires on a connected session whose transport
    answers, the heartbeat write is sent although the scheduler was stopped.
    Calling stopHeartbeat when the scheduler is not running has no effect. *)
Theorem C9_stopHeartbeat_cancels_interval_only (cfg : Config) (c : Client) :
  fresh_timers c -> heartbeatInterval c = None ->
  let c1 := snd (startHeartbeat c) in
  let c2 := snd (stopHeartbeat c1) in
  stopHeartbeat c = (Return tt, c)
  /\ timers c1 = <[S (nextTimer c) := beat_timer]>
                   (<[nextTimer c := first_beat_timer]> (timers c))
  /\ heartbeatInterval c1 = Some (S (nextTimer c))
  /\ fst (stopHeartbeat c1) = Return tt
  /\ timers c2 = <[nextTimer c := first_beat_timer]> (timers c)
  /\ timers c2 !! S (nextTimer c) = None
  /\ timers c2 !! nextTimer c = Some first_beat_timer
  /\ heartbeatInterval c2 = None
  /\ stopHeartbeat c2 = (Return tt, c2)
  /\ (isConnected c = true -> resolves c (calls c) heartbeat_request ->
      fst (fire cfg (nextTimer c) c2) = Return tt
      /\ trace (snd (fire cfg (nextTimer c) c2)) = trace c ++ [Wire heartbeat_request]
      /\ calls (snd (fire cfg (nextTimer c) c2)) = S (calls c)
      /\ timers (snd (fire cfg (nextTimer c) c2)) = timers c).
Proof.
  intros Hfresh Hnone c1 c2.
  split; [apply stopHeartbeat_not_running; assumption|].
  assert (Hc2 : c2 = set_heartbeatInterval None
                       (set_timers (<[nextTimer c := first_beat_timer]> (timers c))
                                   (S (S (nextTimer c))) c))
    by (apply start_then_stop; assumption).
  assert (Hfree : (<[nextTimer c := first_beat_timer]> (timers c)) !! S (nextTimer c) = None).
  { rewrite lookup_insert_ne by lia. apply Hfresh. lia. }
  assert (Hfree0 : timers c !! nextTimer c = None) by (apply Hfresh; lia).
  split; [subst c1; rewrite (startHeartbeat_not_running c Hnone); reflexivity|].
  split; [subst c1; rewrite (startHeartbeat_not_running c Hnone); reflexivity|].
  split.
  { subst c1. rewrite (startHeartbeat_not_running c Hnone). cbn [snd].
    match goal with
    | |- context [stopHeartbeat (set_heartbeatInterval (Some ?id) ?c0)] =>
        rewrite (stopHeartbeat_running (set_heartbeatInterval (Some id) c0) id eq_refl)
    end.
    reflexivity. }
  clearbody c2. subst c2. cbn [timers heartbeatInterval set_heartbeatInterval set_timers].
  split; [reflexivity|]. split; [exact Hfree|].
  split; [apply lookup_insert_eq|]. split; [reflexivity|].
  split; [apply stopHeartbeat_not_running; reflexivity|].
  intros Hc Hres. unfold fire.
  cbn [timers heartbeatInterval set_heartbeatInterval set_timers nextTimer].
  rewrite lookup_insert_eq.
  cbn [t_kind t_callback first_beat_timer run_callback].
  cbn [timers heartbeatInterval set_heartbeatInterval set_timers nextTimer].
  rewrite (delete_insert_id _ _ _ Hfree0).
  rewrite sendHeartbeat_connected by (assumption || exact Hres).
  cbn [fst snd]. simpl. repeat split.
Qed.

(** C9 on a connected client without timers whose transport answers. *)
Lemma C9_stopHeartbeat_cancels_interval_only_witness :
  let c := connected_client always_resolves in
  let c1 := snd (startHeartbeat c) in
  let c2 := snd (stopHeartbeat c1) in
  (fresh_timers c /\ heartbeatInterval c = None)
  /\ stopHeartbeat c = (Return tt, c)
  /\ timers c1 = <[S (nextTimer c) := beat_timer]>
                   (<[nextTimer c := first_beat_timer]> (timers c))
  /\ heartbeatInterval c1 = Some (S (nextTimer c))
  /\ fst (stopHeartbeat c1) = Return tt
  /\ timers c2 = <[nextTimer c := first_beat_timer]> (timers c)
  /\ timers c2 !! S (nextTimer c) = None
  /\ timers c2 !! nextTimer c = Some first_beat_timer
  /\ heartbeatInterval c2 = None
  /\ stopHeartbeat c2 = (Return tt, c2)
  /\ (isConnected c = true -> resolves c (calls c) heartbeat_request ->
      fst (fire default_config (nextTimer c) c2) = Return tt
      /\ trace (snd (fire default_config (nextTimer c) c2))
         = trace c ++ [Wire heartbeat_request]
      /\ calls (snd (fire default_config (nextTimer c) c2)) = S (calls c)
      /\ timers (snd (fire default_config (nextTimer c) c2)) = timers c).
Proof.
  assert (Hfresh : fresh_timers (connected_client always_resolves))
    by (intros id _; reflexivity).
  intros c c1 c2. split.
  - split; [exact Hfresh | reflexivity].
  - apply (C9_stopHeartbeat_cancels_interval_only default_config c);
      [exact Hfresh | reflexivity].
Defined.

(** On a connected client without timers whose transport answers,
    startHeartbeat followed at once by stopHeartbeat leaves the initial-delay
    trigger pending, and its expiry sends the heartbeat write. *)
Example heartbeat_sent_after_stop :
  let c := connected_client always_resolves in
  let c2 := snd (stopHeartbeat (snd (startHeartbeat c))) in
  let r := fire default_config 0 c2 in
  heartbeatInterval c2 = None
  /\ timers c2 !! 0%nat = Some first_beat_timer
  /\ fst r = Return tt
  /\ trace (snd r) = [Wire heartbeat_request].
Proof.
  vm_compute. repeat split.
Qed.

(** ** Round trips *)

Lemma digits2_pos_bounds (m : positive) :
  2 ^ (Zpos (digits2_pos m) - 1) <= Zpos m < 2 ^ Zpos (digits2_pos m).
Proof.
  induction m as [m IH|m IH|]; cbn [digits2_pos].
  - rewrite Pos2Z.inj_succ.
    replace (Z.succ (Zpos (digits2_pos m)) - 1) with (Z.succ (Zpos (digits2_pos m) - 1)) by lia.
    rewrite !Z.pow_succ_r by lia. lia.
  - rewrite Pos2Z.inj_succ.
    replace (Z.succ (Zpos (digits2_pos m)) - 1) with (Z.succ (Zpos (digits2_pos m) - 1)) by lia.
    rewrite !Z.pow_succ_r by lia. lia.
  - simpl. lia.
Qed.

(** A finite single is either normal, with a 24-bit mantissa, or subnormal,
    with a shorter mantissa at the least exponent. *)
Lemma float32_finite_cases (s : bool) (m : positive) (e : Z) :
  is_float32 (S754_finite s m e) ->
  fexp 24 128 (Zpos (digits2_pos m) + e) = e
  /\ e <= 104
  /\ ((2 ^ 23 <= Zpos m < 2 ^ 24 /\ - 149 <= e)
      \/ (Zpos m < 2 ^ 23 /\ e = - 149)).
Proof.
  unfold is_float32, valid_binary, bounded, canonical_mantissa.
  intros H. apply andb_true_iff in H as [Hc He].
  apply Z.eqb_eq in Hc. apply Z.leb_le in He.
  split; [exact Hc|]. split; [exact He|].
  pose proof (digits2_pos_bounds m) as Hd.
  unfold fexp, emin in Hc.
  destruct (Z.max_spec (Zpos (digits2_pos m) + e - 24) (3 - 128 - 24)) as [[Hlt Hmax]|[Hle Hmax]];
    rewrite Hmax in Hc.
  - destruct (Z.ltb_spec (Zpos m) (2 ^ 23)) as [Hm|Hm].
    + right. lia.
    + left. assert (Hd24 : Zpos (digits2_pos m) <= 24) by lia.
      split; [|lia]. split; [lia|].
      eapply Z.lt_le_trans; [apply Hd|]. apply Z.pow_le_mono_r; lia.
  - assert (Hd24 : Zpos (digits2_pos m) = 24) by lia.
    rewrite Hd24 in Hd. left. change (24 - 1) with 23 in Hd. lia.
Qed.

(** Storing a single into a [Float32Array] cell does not change it. *)
Lemma fround_float32 (v : number) : is_float32 v -> fround v = v.
Proof.
  destruct v as [s|s| |s m e]; try reflexivity.
  intros Hv. destruct (float32_finite_cases s m e Hv) as (Hc & He & _).
  assert (Hle : (e <=? 128 - 24) = true) by (apply Z.leb_le; lia).
  unfold fround, binary_normalize.
  destruct s;
    [change (cond_Zopp true (Zpos m)) with (Zneg m)
    |change (cond_Zopp false (Zpos m)) with (Zpos m)];
    cbv iota beta;
    unfold binary_round, shl_align; rewrite Hc, Z.sub_diag;
    unfold binary_round_aux, shr_fexp; cbn [Zdigits2 shr_record_of_loc];
    rewrite Hc, Z.sub_diag; cbn [shr shr_m loc_of_shr_record round_nearest_even];
    cbn [Zdigits2]; rewrite Hc, Z.sub_diag; cbn [shr shr_m]; rewrite Hle;
    reflexivity.
Qed.

Lemma bits_of_float32_range (v : number) :
  is_float32 v -> 0 <= bits_of_float32 v < 2 ^ 32.
Proof.
  destruct v as [s|s| |s m e]; intros Hv.
  - destruct s; vm_compute; split; congruence.
  - destruct s; vm_compute; split; congruence.
  - vm_compute. split; congruence.
  - destruct (float32_finite_cases s m e Hv) as (_ & He & [[Hm Hmin]|[Hm Hmin]]);
      unfold bits_of_float32, sign_bit.
    + replace (2 ^ 23 <=? Zpos m) with true by (symmetry; apply Z.leb_le; lia).
      destruct s; lia.
    + replace (2 ^ 23 <=? Zpos m) with false by (symmetry; apply Z.leb_gt; lia).
      destruct s; lia.
Qed.

Lemma testbit_31 (x : Z) (b : bool) (r : Z) :
  x = (if b then 2 ^ 31 else 0) + r -> 0 <= r < 2 ^ 31 -> Z.testbit x 31 = b.
Proof.
  intros -> Hr. rewrite Z.testbit_odd, Z.shiftr_div_pow2 by lia.
  destruct b.
  - replace ((2 ^ 31 + r) / 2 ^ 31) with 1; [reflexivity|].
    apply Z.div_unique with r; lia.
  - rewrite Z.add_0_l, Z.div_small by lia. reflexivity.
Qed.

(** The pattern of a single denotes that single. *)
Lemma float32_of_bits_of_float32 (v : number) :
  is_float32 v -> float32_of_bits (bits_of_float32 v) = v.
Proof.
  destruct v as [s|s| |s m e]; intros Hv;
    [destruct s; vm_compute; reflexivity
    |destruct s; vm_compute; reflexivity
    |vm_compute; reflexivity
    |].
  destruct (float32_finite_cases s m e Hv) as (_ & He & [[Hm Hmin]|[Hm Hmin]]);
    unfold bits_of_float32.
  - replace (2 ^ 23 <=? Zpos m) with true by (symmetry; apply Z.leb_le; lia).
    set (x := sign_bit s + (e + 150) * 2 ^ 23 + (Zpos m - 2 ^ 23)).
    assert (Hs : Z.testbit x 31 = s).
    { apply testbit_31 with ((e + 150) * 2 ^ 23 + (Zpos m - 2 ^ 23));
        [unfold x, sign_bit; lia | lia]. }
    assert (Hex : (x / 2 ^ 23) mod 2 ^ 8 = e + 150).
    { unfold x, sign_bit. destruct s.
      - replace (2 ^ 31 + (e + 150) * 2 ^ 23 + (Zpos m - 2 ^ 23))
          with ((Zpos m - 2 ^ 23) + (2 ^ 8 + (e + 150)) * 2 ^ 23) by lia.
        rewrite Z.div_add, Z.div_small by lia.
        rewrite Z.add_0_l.
        replace (2 ^ 8 + (e + 150)) with ((e + 150) + 1 * 2 ^ 8) by lia.
        rewrite Z_mod_plus_full. apply Z.mod_small. lia.
      - replace (0 + (e + 150) * 2 ^ 23 + (Zpos m - 2 ^ 23))
          with ((Zpos m - 2 ^ 23) + (e + 150) * 2 ^ 23) by lia.
        rewrite Z.div_add, Z.div_small by lia.
        rewrite Z.add_0_l. apply Z.mod_small. lia. }
    assert (Hfrac : x mod 2 ^ 23 = Zpos m - 2 ^ 23).
    { unfold x.
      replace (sign_bit s + (e + 150) * 2 ^ 23 + (Zpos m - 2 ^ 23))
        with ((Zpos m - 2 ^ 23)
              + ((if s then 2 ^ 8 else 0) + (e + 150)) * 2 ^ 23)
        by (unfold sign_bit; destruct s; lia).
      rewrite Z_mod_plus_full. apply Z.mod_small. lia. }
    unfold float32_of_bits. rewrite Hs, Hex, Hfrac.
    replace (e + 150 =? 255) with false by (symmetry; apply Z.eqb_neq; lia).
    replace (e + 150 =? 0) with false by (symmetry; apply Z.eqb_neq; lia).
    replace (Zpos m - 2 ^ 23 + 2 ^ 23) with (Zpos m) by lia.
    replace (e + 150 - 150) with e by lia. reflexivity.
  - replace (2 ^ 23 <=? Zpos m) with false by (symmetry; apply Z.leb_gt; lia).
    set (x := sign_bit s + Zpos m).
    assert (Hs : Z.testbit x 31 = s).
    { apply testbit_31 with (Zpos m); [unfold x, sign_bit; lia | lia]. }
    assert (Hex : (x / 2 ^ 23) mod 2 ^ 8 = 0).
    { unfold x, sign_bit. destruct s.
      - replace (2 ^ 31 + Zpos m) with (Zpos m + 2 ^ 8 * 2 ^ 23) by lia.
        rewrite Z.div_add, Z.div_small by lia. reflexivity.
      - rewrite Z.add_0_l, Z.div_small by lia. reflexivity. }
    assert (Hfrac : x mod 2 ^ 23 = Zpos m).
    { unfold x.
      replace (sign_bit s + Zpos m)
        with (Zpos m + (if s then 2 ^ 8 else 0) * 2 ^ 23)
        by (unfold sign_bit; destruct s; lia).
      rewrite Z_mod_plus_full. apply Z.mod_small. lia. }
    unfold float32_of_bits. rewrite Hs, Hex, Hfrac.
    change (0 =? 255) with false. change (0 =? 0) with true. cbv iota.
    subst e. reflexivity.
Qed.

Lemma parse_uint16 (register : Register) (w : Z) :
  r_type register = "uint16" -> word w ->
  parseRegisterValue register (buffer_of_words [w]) = Return (JNum (of_Z w)).
Proof.
  intros Hty Hw. switch_on Hty.
  change (buffer_of_words [w]) with (word_bytes w ++ []).
  rewrite readUInt16BE_word_0 by assumption. reflexivity.
Qed.

Lemma land_pow2 (w n : Z) :
  0 <= n -> Z.land w (2 ^ n) = if Z.testbit w n then 2 ^ n else 0.
Proof.
  intros Hn. apply Z.bits_inj'. intros k Hk.
  rewrite Z.land_spec, Z.pow2_bits_eqb by assumption.
  destruct (Z.eqb_spec n k) as [->|Hne].
  - rewrite andb_true_r. destruct (Z.testbit w k) eqn:E.
    + rewrite Z.pow2_bits_true by assumption. reflexivity.
    + rewrite Z.bits_0. reflexivity.
  - rewrite andb_false_r. destruct (Z.testbit w n).
    + rewrite Z.pow2_bits_false by assumption. reflexivity.
    + rewrite Z.bits_0. reflexivity.
Qed.

Lemma testbit_15 (w : Z) : word w -> Z.testbit w 15 = (2 ^ 15 <=? w).
Proof.
  unfold word. intros H.
  rewrite Z.testbit_odd, Z.shiftr_div_pow2 by lia.
  destruct (Z.leb_spec (2 ^ 15) w).
  - replace (w / 2 ^ 15) with 1; [reflexivity|].
    apply Z.div_unique with (w - 2 ^ 15); lia.
  - rewrite Z.div_small by lia. reflexivity.
Qed.

Lemma readInt16BE_word (w : Z) (rest : Buffer) :
  word w -> readInt16BE (word_bytes w ++ rest) 0 = Return (of_Z (signed16 w)).
Proof.
  intros Hw. unfold word_bytes, readInt16BE. cbn [app lookup list_lookup Nat.add].
  rewrite word_of_bytes by assumption. f_equal.
  unfold js_or, js_mul_int, js_and. rewrite !ToInt32_of_Z, !to_integer_of_Z.
  unfold word in Hw.
  rewrite (int32_small w), (int32_small (2 ^ 15)) by lia.
  rewrite land_pow2, (testbit_15 w) by (unfold word; lia).
  unfold signed16.
  destruct (Z.leb_spec (2 ^ 15) w).
  - change (int32 (2 ^ 15 * 131070)) with (-1 * 2 ^ 16).
    rewrite Z.lor_comm, lor_high_low by (unfold word; lia). f_equal. lia.
  - change (int32 (0 * 131070)) with 0. rewrite Z.lor_0_r. reflexivity.
Qed.

Lemma parse_int16 (register : Register) (w : Z) :
  r_type register = "int16" -> word w ->
  parseRegisterValue register (buffer_of_words [w])
  = Return (JNum (of_Z (signed16 w))).
Proof.
  intros Hty Hw. switch_on Hty.
  change (buffer_of_words [w]) with (word_bytes w ++ []).
  rewrite readInt16BE_word by assumption. reflexivity.
Qed.

(** The int32 case sign-extends the low word too: the words
    [lo = 0x8000, hi = 0x0000] of the value 32768 decode to -32768. *)
Example parse_int32_low_word_signed :
  parseRegisterValue int32_register (buffer_of_words [0x8000; 0x0000])
  = Return (JNum (of_Z (- 32768))).
Proof. vm_compute. reflexivity. Qed.

Lemma encode_uint16 (register : Register) (v : Z) :
  r_type register = "uint16" -> (1 <= r_length register)%nat -> word v ->
  encodeRegisterValue register (of_Z v) = Return [of_Z v].
Proof.
  intros Hty Hlen Hv. switch_on Hty.
  destruct (allocUnsafe_two _ Hlen) as [rest ->].
  rewrite writeUInt16BE_0, bind_Return by assumption.
  rewrite readUInt16BE_0, word_of_bytes by assumption. reflexivity.
Qed.

Lemma mod_word (v : Z) : word (v mod 2 ^ 16).
Proof. unfold word. apply Z.mod_pos_bound. lia. Qed.

Lemma u8_mod_word (v : Z) : u8 (v mod 2 ^ 16) = u8 v.
Proof.
  rewrite <- (u8_mod (v mod 2 ^ 16)), <- (u8_mod v). f_equal.
  change (2 ^ 16) with 65536. Z.div_mod_to_equations. lia.
Qed.

Lemma encode_int16 (register : Register) (v : Z) :
  r_type register = "int16" -> (1 <= r_length register)%nat ->
  - 2 ^ 15 <= v < 2 ^ 15 ->
  encodeRegisterValue register (of_Z v) = Return [of_Z (v mod 2 ^ 16)].
Proof.
  intros Hty Hlen Hv. switch_on Hty.
  destruct (allocUnsafe_two _ Hlen) as [rest ->].
  rewrite writeInt16BE_ok by (assumption || reflexivity).
  cbn [insert list_insert Nat.add]. rewrite bind_Return, readUInt16BE_0.
  rewrite <- (u8_mod_word v), word_of_bytes by apply mod_word. reflexivity.
Qed.

(** The two words [value & 0xFFFF] and [(value >> 16) & 0xFFFF]. *)
Lemma js_low_word (v : Z) :
  js_and (of_Z v) (of_Z 0xFFFF) = of_Z (v mod 2 ^ 16).
Proof.
  unfold js_and. rewrite !ToInt32_of_Z. f_equal.
  change (int32 65535) with (Z.ones 16). rewrite Z.land_ones by lia.
  unfold int32.
  change (2 ^ 32) with 4294967296. change (2 ^ 31) with 2147483648.
  change (2 ^ 16) with 65536. Z.div_mod_to_equations. lia.
Qed.

Lemma int32_shift_mod (v : Z) : (int32 v / 2 ^ 16) mod 2 ^ 16 = (v / 2 ^ 16) mod 2 ^ 16.
Proof.
  unfold int32.
  change (2 ^ 32) with 4294967296. change (2 ^ 31) with 2147483648.
  change (2 ^ 16) with 65536. Z.div_mod_to_equations. lia.
Qed.

Lemma js_high_word (v : Z) :
  js_and (js_sar (of_Z v) (of_Z 16)) (of_Z 0xFFFF) = of_Z ((v / 2 ^ 16) mod 2 ^ 16).
Proof.
  unfold js_sar. rewrite js_low_word. f_equal.
  rewrite ToInt32_of_Z, ToUint32_of_Z.
  change (16 mod 2 ^ 32 mod 32) with 16.
  rewrite Z.shiftr_div_pow2 by lia. apply int32_shift_mod.
Qed.

Lemma encode_uint32 (register : Register) (v : Z) :
  r_type register = "uint32" -> (2 <= r_length register)%nat ->
  encodeRegisterValue register (of_Z v)
  = Return [of_Z (v mod 2 ^ 16); of_Z ((v / 2 ^ 16) mod 2 ^ 16)].
Proof.
  intros Hty Hlen. switch_on Hty.
  destruct (allocUnsafe_four _ Hlen) as [rest ->].
  rewrite js_low_word, js_high_word.
  rewrite writeUInt16BE_0, bind_Return by apply mod_word.
  rewrite writeUInt16BE_2, bind_Return by apply mod_word.
  rewrite readUInt16BE_0, readUInt16BE_2, !bind_Return.
  rewrite !word_of_bytes by apply mod_word. reflexivity.
Qed.

Lemma buffer_of_registers_of_Z (ws : list Z) :
  buffer_of_registers (map of_Z ws) = buffer_of_words ws.
Proof.
  unfold buffer_of_registers. f_equal. rewrite map_map.
  rewrite <- (map_id ws) at 2. apply map_ext. apply to_integer_of_Z.
Qed.

Lemma roundtrip_uint16 (register : Register) (v : Z) :
  r_type register = "uint16" -> (1 <= r_length register)%nat -> word v ->
  roundtrip register (of_Z v) = Return (JNum (of_Z v)).
Proof.
  intros Hty Hlen Hv. unfold roundtrip.
  rewrite encode_uint16, bind_Return by assumption.
  change [of_Z v] with (map of_Z [v]).
  rewrite buffer_of_registers_of_Z. apply parse_uint16; assumption.
Qed.

Lemma roundtrip_int16 (register : Register) (v : Z) :
  r_type register = "int16" -> (1 <= r_length register)%nat ->
  - 2 ^ 15 <= v < 2 ^ 15 ->
  roundtrip register (of_Z v) = Return (JNum (of_Z v)).
Proof.
  intros Hty Hlen Hv. unfold roundtrip.
  rewrite encode_int16, bind_Return by assumption.
  change [of_Z (v mod 2 ^ 16)] with (map of_Z [v mod 2 ^ 16]).
  rewrite buffer_of_registers_of_Z.
  rewrite parse_int16 by (assumption || apply mod_word).
  do 3 f_equal. unfold signed16.
  destruct (Z.leb_spec (2 ^ 15) (v mod 2 ^ 16)) as [H|H].
  - assert (Hneg : v < 0).
    { destruct (Z.ltb_spec v 0); [assumption|].
      rewrite Z.mod_small in H; lia. }
    replace v with (v + 2 ^ 16 + (-1) * 2 ^ 16) at 1 by lia.
    rewrite Z_mod_plus_full, Z.mod_small; lia.
  - destruct (Z.ltb_spec v 0) as [Hneg|Hpos].
    + replace v with (v + 2 ^ 16 + (-1) * 2 ^ 16) in H by lia.
      rewrite Z_mod_plus_full, Z.mod_small in H; lia.
    + apply Z.mod_small. lia.
Qed.

(** The uint32 round trip yields the signed reading of the value. *)
Lemma roundtrip_uint32 (register : Register) (v : Z) :
  r_type register = "uint32" -> (2 <= r_length register)%nat ->
  0 <= v < 2 ^ 32 ->
  roundtrip register (of_Z v) = Return (JNum (of_Z (int32 v))).
Proof.
  intros Hty Hlen Hv. unfold roundtrip.
  rewrite encode_uint32, bind_Return by assumption.
  change [of_Z (v mod 2 ^ 16); of_Z ((v / 2 ^ 16) mod 2 ^ 16)]
    with (map of_Z [v mod 2 ^ 16; (v / 2 ^ 16) mod 2 ^ 16]).
  rewrite buffer_of_registers_of_Z.
  rewrite <- (app_nil_r (buffer_of_words _)).
  rewrite parse_uint32 by (assumption || apply mod_word).
  do 4 f_equal.
  rewrite (Z.mod_small (v / 2 ^ 16)) by
    (split; [apply Z.div_pos | apply Z.div_lt_upper_bound]; lia).
  pose proof (Z.div_mod v (2 ^ 16)). lia.
Qed.

Lemma roundtrip_uint32_small (register : Register) (v : Z) :
  r_type register = "uint32" -> (2 <= r_length register)%nat ->
  0 <= v < 2 ^ 31 ->
  roundtrip register (of_Z v) = Return (JNum (of_Z v)).
Proof.
  intros Hty Hlen Hv. rewrite roundtrip_uint32 by (assumption || lia).
  rewrite int32_small by lia. reflexivity.
Qed.

Lemma roundtrip_uint32_large (register : Register) (v : Z) :
  r_type register = "uint32" -> (2 <= r_length register)%nat ->
  2 ^ 31 <= v < 2 ^ 32 ->
  roundtrip register (of_Z v) = Return (JNum (of_Z (v - 2 ^ 32))).
Proof.
  intros Hty Hlen Hv. rewrite roundtrip_uint32 by (assumption || lia).
  rewrite int32_high by lia. reflexivity.
Qed.

Lemma high_bytes (x : Z) :
  0 <= x < 2 ^ 32 ->
  byte_val (u8 (x / 2 ^ 24)) * 2 ^ 8 + byte_val (u8 (x / 2 ^ 16)) = x / 2 ^ 16.
Proof.
  intros H. rewrite !byte_val_u8.
  change (2 ^ 32) with 4294967296 in H. change (2 ^ 24) with 16777216.
  change (2 ^ 16) with 65536. change (2 ^ 8) with 256.
  Z.div_mod_to_equations. lia.
Qed.

Lemma low_bytes (x : Z) :
  byte_val (u8 (x / 2 ^ 8)) * 2 ^ 8 + byte_val (u8 x) = x mod 2 ^ 16.
Proof.
  rewrite !byte_val_u8.
  change (2 ^ 16) with 65536. change (2 ^ 8) with 256.
  Z.div_mod_to_equations. lia.
Qed.

Lemma encode_float (register : Register) (v : number) :
  r_type register = "float" -> (2 <= r_length register)%nat -> is_float32 v ->
  encodeRegisterValue register v
  = Return [of_Z (bits_of_float32 v / 2 ^ 16); of_Z (bits_of_float32 v mod 2 ^ 16)].
Proof.
  intros Hty Hlen Hv. switch_on Hty.
  destruct (allocUnsafe_four _ Hlen) as [rest ->].
  pose proof (bits_of_float32_range v Hv) as Hx.
  set (x := bits_of_float32 v) in *.
  assert (Hhi : word (x / 2 ^ 16)).
  { unfold word. split; [apply Z.div_pos | apply Z.div_lt_upper_bound]; lia. }
  change (allocUnsafe 4) with [x00; x00; x00; x00].
  unfold writeFloatBE. rewrite fround_float32 by assumption. fold x.
  cbn [in_bounds lookup list_lookup Nat.add negb insert list_insert].
  rewrite bind_Return, readUInt16BE_0, high_bytes, bind_Return by assumption.
  rewrite writeUInt16BE_0, bind_Return by assumption.
  rewrite readUInt16BE_2, low_bytes, bind_Return.
  rewrite writeUInt16BE_2, bind_Return by apply mod_word.
  rewrite readUInt16BE_0, readUInt16BE_2, !bind_Return.
  rewrite !word_of_bytes by (assumption || apply mod_word). reflexivity.
Qed.

(** The float round trip is exact on every single-precision value. *)
Lemma roundtrip_float (register : Register) (v : number) :
  r_type register = "float" -> (2 <= r_length register)%nat -> is_float32 v ->
  roundtrip register v = Return (JNum v).
Proof.
  intros Hty Hlen Hv. unfold roundtrip.
  rewrite encode_float, bind_Return by assumption.
  pose proof (bits_of_float32_range v Hv) as Hx.
  set (x := bits_of_float32 v) in *.
  change [of_Z (x / 2 ^ 16); of_Z (x mod 2 ^ 16)]
    with (map of_Z [x / 2 ^ 16; x mod 2 ^ 16]).
  rewrite buffer_of_registers_of_Z, <- (app_nil_r (buffer_of_words _)).
  rewrite parse_float; [| assumption | | apply mod_word].
  - replace (x / 2 ^ 16 * 2 ^ 16 + x mod 2 ^ 16) with x
      by (pose proof (Z.div_mod x (2 ^ 16)); lia).
    unfold x. rewrite float32_of_bits_of_float32 by assumption. reflexivity.
  - unfold word. split; [apply Z.div_pos | apply Z.div_lt_upper_bound]; lia.
Qed.

Lemma writeInt16BE_range (buf : Buffer) (v : Z) (offset : nat) :
  ~ (- 2 ^ 15 <= v < 2 ^ 15) ->
  writeInt16BE buf (of_Z v) offset = Throw ERR_OUT_OF_RANGE.
Proof.
  intros Hv. unfold writeInt16BE, writeU_Int16BE.
  rewrite js_gt_of_Z, js_lt_of_Z.
  destruct (Z.ltb_spec 32767 v); [reflexivity|].
  destruct (Z.ltb_spec v (- 32768)); [reflexivity|]. lia.
Qed.

(** No negative value can be encoded as int32: the masked high word is
    rejected by the signed 16-bit write. *)
Lemma encode_int32_negative (register : Register) (v : Z) :
  r_type register = "int32" -> (2 <= r_length register)%nat ->
  - 2 ^ 31 <= v < 0 ->
  encodeRegisterValue register (of_Z v) = Throw ERR_OUT_OF_RANGE.
Proof.
  intros Hty Hlen Hv. switch_on Hty.
  destruct (allocUnsafe_four _ Hlen) as [rest ->].
  rewrite js_low_word, js_high_word.
  destruct (Z.ltb_spec (v mod 2 ^ 16) (2 ^ 15)) as [Hlo|Hlo].
  - pose proof (mod_word v) as Hw. unfold word in Hw.
    rewrite writeInt16BE_ok by (reflexivity || lia).
    cbn [insert list_insert Nat.add]. rewrite bind_Return.
    rewrite writeInt16BE_range; [reflexivity|].
    change (2 ^ 31) with 2147483648 in Hv. change (2 ^ 16) with 65536.
    change (2 ^ 15) with 32768.
    Z.div_mod_to_equations. lia.
  - rewrite writeInt16BE_range by lia. reflexivity.
Qed.

(** C2, on the code: the round trip fails for the 32-bit integer types.
    Encoding the uint32 value 2147483648 and decoding the words yields
    -2147483648, and encoding the int32 value -1 throws. *)
Theorem C2_roundtrip_fails_on_32bit_integers :
  r_type DURATION_SESSION = "uint32"
  /\ encodeRegisterValue DURATION_SESSION (of_Z 2147483648)
     = Return [of_Z 0x0000; of_Z 0x8000]
  /\ roundtrip DURATION_SESSION (of_Z 2147483648)
     = Return (JNum (of_Z (- 2147483648)))
  /\ ~ returns_number (roundtrip DURATION_SESSION (of_Z 2147483648)) 2147483648
  /\ r_type int32_register = "int32"
  /\ roundtrip int32_register (of_Z (- 1)) = Throw ERR_OUT_OF_RANGE.
Proof.
  assert (Hr : roundtrip DURATION_SESSION (of_Z 2147483648)
               = Return (JNum (of_Z (- 2147483648)))) by (vm_compute; reflexivity).
  split; [reflexivity|]. split; [vm_compute; reflexivity|].
  split; [exact Hr|]. split.
  - intros [v [Hv Heq]]. rewrite Hr in Hv. injection Hv as <-.
    vm_compute in Heq. discriminate.
  - split; [reflexivity | vm_compute; reflexivity].
Qed.

(** * Further properties *)

(** ** The codec on every input *)

Lemma two_bytes_word (b0 b1 : byte) : word (byte_val b0 * 2 ^ 8 + byte_val b1).
Proof.
  pose proof (byte_val_range b0). pose proof (byte_val_range b1).
  unfold word. lia.
Qed.

Lemma readUInt16BE_is_word (buf : Buffer) (offset : nat) (w : number) :
  readUInt16BE buf offset = Return w -> is_word w.
Proof.
  unfold readUInt16BE.
  destruct (buf !! offset) as [b0|]; [|discriminate].
  destruct (buf !! (offset + 1)%nat) as [b1|]; [|discriminate].
  intros H. injection H as <-. eexists. split; [reflexivity|].
  apply two_bytes_word.
Qed.

(** Inverts a sequence of steps that returned. *)
Ltac bind_inv H :=
  repeat match type of H with
    | (?c ≫= _) = Return _ =>
        let E := fresh "E" in
        destruct c eqn:E; [rewrite bind_Return in H | discriminate H]
    end.

Lemma encode_words (register : Register) (value : number) (words : list number) :
  encodeRegisterValue register value = Return words ->
  Forall is_word words
  /\ length words
     = if String.eqb (r_type register) "uint16"
          || String.eqb (r_type register) "int16" then 1%nat else 2%nat.
Proof.
  unfold encodeRegisterValue.
  destruct (String.eqb (r_type register) "uint16") eqn:T1.
  { intros H. bind_inv H. injection H as <-.
    split; [|reflexivity]. repeat constructor. eapply readUInt16BE_is_word; eassumption. }
  destruct (String.eqb (r_type register) "uint32") eqn:T2.
  { intros H. bind_inv H. injection H as <-.
    apply String.eqb_eq in T2. rewrite T2.
    split; [|reflexivity].
    repeat constructor; eapply readUInt16BE_is_word; eassumption. }
  destruct (String.eqb (r_type register) "int16") eqn:T3.
  { intros H. bind_inv H. injection H as <-.
    split; [|reflexivity]. repeat constructor. eapply readUInt16BE_is_word; eassumption. }
  destruct (String.eqb (r_type register) "int32") eqn:T4.
  { intros H. bind_inv H. injection H as <-.
    split; [|reflexivity].
    repeat constructor; eapply readUInt16BE_is_word; eassumption. }
  destruct (String.eqb (r_type register) "float") eqn:T5.
  { intros H. bind_inv H. injection H as <-.
    split; [|reflexivity].
    repeat constructor; eapply readUInt16BE_is_word; eassumption. }
  discriminate.
Qed.

Lemma length_swap_loop (fuel : nat) :
  forall (buffer swapped : Buffer) (i : nat),
    length (swap_loop fuel buffer swapped i) = length swapped.
Proof.
  induction fuel as [|fuel IH]; intros buffer swapped i; simpl; [reflexivity|].
  destruct (i <? length buffer)%nat; [|reflexivity].
  rewrite IH, !length_insert. reflexivity.
Qed.

Lemma length_toString_ascii (buf : Buffer) :
  String.length (toString_ascii buf) = length buf.
Proof.
  unfold toString_ascii. induction buf as [|b buf IH]; simpl; [reflexivity|].
  rewrite IH. reflexivity.
Qed.

Lemma length_remove_nul (s : string) :
  (String.length (remove_nul s) <= String.length s)%nat.
Proof.
  induction s as [|c s IH]; simpl; [lia|].
  destruct (Ascii.eqb c zero); simpl; lia.
Qed.

Lemma length_trimStart (s : string) :
  (String.length (trimStart s) <= String.length s)%nat.
Proof.
  induction s as [|c s IH]; simpl; [lia|].
  destruct (is_white c); simpl; lia.
Qed.

Lemma length_trimEnd (s : string) :
  (String.length (trimEnd s) <= String.length s)%nat.
Proof.
  induction s as [|c s IH]; simpl; [lia|].
  destruct (trimEnd s) as [|c' t]; [destruct (is_white c)|]; simpl in *; lia.
Qed.

Lemma parse_ascii_any (register : Register) (buffer : Buffer) :
  r_type register = "ascii" ->
  exists text,
    parseRegisterValue register buffer = Return (JStr text)
    /\ (String.length text <= length buffer)%nat
    /\ has_nul text = false
    /\ starts_white text = false
    /\ ends_white text = false.
Proof.
  intros Hty. switch_on Hty. eexists. split; [reflexivity|].
  split; [|split; [|split]].
  - unfold trim.
    etransitivity; [apply length_trimEnd|].
    etransitivity; [apply length_trimStart|].
    etransitivity; [apply length_remove_nul|].
    rewrite length_toString_ascii, length_swap_loop.
    unfold allocUnsafe. rewrite length_replicate. lia.
  - apply has_nul_trimEnd, has_nul_trimStart, has_nul_remove_nul.
  - apply starts_white_trimEnd, starts_white_trimStart.
  - apply ends_white_trimEnd.
Qed.

(** With the bytes it reads at hand, the decoder of a numeric type returns a
    number. *)
Lemma parse_numeric_long_enough (register : Register) (buffer : Buffer) :
  numeric_type (r_type register) ->
  (bytes_needed (r_type register) <= length buffer)%nat ->
  exists v, parseRegisterValue register buffer = Return (JNum v).
Proof.
  intros Hty Hlen.
  destruct Hty as [Hty|[Hty|[Hty|[Hty|Hty]]]]; rewrite Hty in Hlen;
    change (bytes_needed _) with 2%nat in Hlen || change (bytes_needed _) with 4%nat in Hlen.
  - destruct buffer as [|b0 [|b1 rest]]; simpl in Hlen; try lia.
    switch_on Hty. eexists. reflexivity.
  - destruct buffer as [|b0 [|b1 rest]]; simpl in Hlen; try lia.
    switch_on Hty. eexists. reflexivity.
  - destruct buffer as [|b0 [|b1 [|b2 [|b3 rest]]]]; simpl in Hlen; try lia.
    switch_on Hty. eexists. reflexivity.
  - destruct buffer as [|b0 [|b1 [|b2 [|b3 rest]]]]; simpl in Hlen; try lia.
    switch_on Hty. eexists. reflexivity.
  - destruct buffer as [|b0 [|b1 [|b2 [|b3 rest]]]]; simpl in Hlen; try lia.
    switch_on Hty.
    rewrite readUInt16BE_0, bind_Return.
    change (allocUnsafe 4) with [x00; x00; x00; x00].
    rewrite writeUInt16BE_0, bind_Return by apply two_bytes_word.
    rewrite readUInt16BE_2, bind_Return.
    rewrite writeUInt16BE_2, bind_Return by apply two_bytes_word.
    eexists. reflexivity.
Qed.

(** Without them it throws a [RangeError]. *)
Lemma parse_numeric_too_short (register : Register) (buffer : Buffer) :
  numeric_type (r_type register) ->
  (length buffer < bytes_needed (r_type register))%nat ->
  exists code, parseRegisterValue register buffer = Throw (RangeError code).
Proof.
  intros Hty Hlen.
  destruct Hty as [Hty|[Hty|[Hty|[Hty|Hty]]]]; rewrite Hty in Hlen;
    change (bytes_needed _) with 2%nat in Hlen || change (bytes_needed _) with 4%nat in Hlen.
  - destruct buffer as [|b0 [|b1 rest]]; simpl in Hlen; try lia;
      switch_on Hty; eexists; reflexivity.
  - destruct buffer as [|b0 [|b1 rest]]; simpl in Hlen; try lia;
      switch_on Hty; eexists; reflexivity.
  - destruct buffer as [|b0 [|b1 [|b2 [|b3 rest]]]]; simpl in Hlen; try lia;
      switch_on Hty; eexists; reflexivity.
  - destruct buffer as [|b0 [|b1 [|b2 [|b3 rest]]]]; simpl in Hlen; try lia;
      switch_on Hty; eexists; reflexivity.
  - destruct buffer as [|b0 [|b1 [|b2 [|b3 rest]]]]; simpl in Hlen; try lia;
      switch_on Hty; try (eexists; reflexivity).
    + rewrite readUInt16BE_0, bind_Return.
      change (allocUnsafe 4) with [x00; x00; x00; x00].
      rewrite writeUInt16BE_0, bind_Return by apply two_bytes_word.
      eexists. reflexivity.
    + rewrite readUInt16BE_0, bind_Return.
      change (allocUnsafe 4) with [x00; x00; x00; x00].
      rewrite writeUInt16BE_0, bind_Return by apply two_bytes_word.
      eexists. reflexivity.
Qed.

Lemma signed16_range (w : Z) : word w -> - 2 ^ 15 <= signed16 w < 2 ^ 15.
Proof.
  unfold word, signed16. intros H. destruct (Z.leb_spec (2 ^ 15) w); lia.
Qed.

Lemma signed16_mod (w : Z) : word w -> signed16 w mod 2 ^ 16 = w.
Proof.
  unfold word, signed16. intros H. destruct (Z.leb_spec (2 ^ 15) w).
  - replace (w - 2 ^ 16) with (w + (-1) * 2 ^ 16) by lia.
    rewrite Z_mod_plus_full. apply Z.mod_small. lia.
  - apply Z.mod_small. lia.
Qed.

(** X1: for the 16-bit integer types the round trip is exact: encoding a
    value of the type (an integer of 0..65535 for uint16, of -32768..32767
    for int16) and decoding the word returns the value. *)
Theorem roundtrip_16bit_exact (register : Register) (v : Z) :
  (r_type register = "uint16" /\ word v)
  \/ (r_type register = "int16" /\ - 2 ^ 15 <= v < 2 ^ 15) ->
  (1 <= r_length register)%nat ->
  roundtrip register (of_Z v) = Return (JNum (of_Z v)).
Proof.
  intros [[Hty Hv]|[Hty Hv]] Hlen.
  - apply roundtrip_uint16; assumption.
  - apply roundtrip_int16; assumption.
Qed.

Lemma roundtrip_16bit_exact_witness :
  ((r_type (mkRegister 0 1 "int16" "RW") = "uint16" /\ word (- 2))
   \/ (r_type (mkRegister 0 1 "int16" "RW") = "int16" /\ - 2 ^ 15 <= - 2 < 2 ^ 15))
  /\ (1 <= r_length (mkRegister 0 1 "int16" "RW"))%nat
  /\ roundtrip (mkRegister 0 1 "int16" "RW") (of_Z (- 2)) = Return (JNum (of_Z (- 2))).
Proof.
  assert (H : (r_type (mkRegister 0 1 "int16" "RW") = "uint16" /\ word (- 2))
              \/ (r_type (mkRegister 0 1 "int16" "RW") = "int16"
                  /\ - 2 ^ 15 <= - 2 < 2 ^ 15))
    by (right; split; [reflexivity | lia]).
  split; [exact H|]. split; [simpl; lia|].
  apply (roundtrip_16bit_exact (mkRegister 0 1 "int16" "RW") (- 2) H).
  simpl. lia.
Defined.

(** X2: the float round trip is exact on every single-precision value,
    zeros, infinities and NaN included. *)
Theorem float_roundtrip_exact (register : Register) (v : number) :
  r_type register = "float" -> (2 <= r_length register)%nat -> is_float32 v ->
  roundtrip register v = Return (JNum v).
Proof. apply roundtrip_float. Qed.

Lemma float_roundtrip_exact_witness :
  r_type CHARGING_CURRENT_EM = "float"
  /\ (2 <= r_length CHARGING_CURRENT_EM)%nat
  /\ is_float32 (S754_finite false 11010048 (- 20))
  /\ roundtrip CHARGING_CURRENT_EM (S754_finite false 11010048 (- 20))
     = Return (JNum (S754_finite false 11010048 (- 20))).
Proof.
  split; [reflexivity|]. split; [simpl; lia|]. split; [reflexivity|].
  apply (float_roundtrip_exact CHARGING_CURRENT_EM (S754_finite false 11010048 (- 20)));
    [reflexivity | simpl; lia | reflexivity].
Defined.

(** X3: encoding a uint32 value and decoding the two words returns the value
    read as a signed 32-bit integer: the value itself below 2^31, the value
    minus 2^32 from 2^31 on. *)
Theorem uint32_roundtrip_signed (register : Register) (v : Z) :
  r_type register = "uint32" -> (2 <= r_length register)%nat ->
  0 <= v < 2 ^ 32 ->
  roundtrip register (of_Z v)
  = Return (JNum (of_Z (if v <? 2 ^ 31 then v else v - 2 ^ 32))).
Proof.
  intros Hty Hlen Hv. destruct (Z.ltb_spec v (2 ^ 31)).
  - apply roundtrip_uint32_small; (assumption || lia).
  - apply roundtrip_uint32_large; (assumption || lia).
Qed.

Lemma uint32_roundtrip_signed_witness :
  r_type DURATION_SESSION = "uint32"
  /\ (2 <= r_length DURATION_SESSION)%nat
  /\ 0 <= 86400 < 2 ^ 32
  /\ roundtrip DURATION_SESSION (of_Z 86400)
     = Return (JNum (of_Z (if 86400 <? 2 ^ 31 then 86400 else 86400 - 2 ^ 32))).
Proof.
  split; [reflexivity|]. split; [simpl; lia|]. split; [lia|].
  apply (uint32_roundtrip_signed DURATION_SESSION 86400);
    [reflexivity | simpl; lia | lia].
Defined.

(** X4: the uint32 encoding never fails on an integer and wraps silently:
    the words are the low and the high half of the value modulo 2^32, so
    that values that differ by a multiple of 2^32 are encoded alike. *)
Theorem uint32_encode_wraps (register : Register) (v k : Z) :
  r_type register = "uint32" -> (2 <= r_length register)%nat ->
  encodeRegisterValue register (of_Z v)
  = Return [of_Z (v mod 2 ^ 16); of_Z ((v / 2 ^ 16) mod 2 ^ 16)]
  /\ encodeRegisterValue register (of_Z (v + k * 2 ^ 32))
     = encodeRegisterValue register (of_Z v).
Proof.
  intros Hty Hlen. split; [apply encode_uint32; assumption|].
  rewrite !encode_uint32 by assumption.
  assert (Hlo : (v + k * 2 ^ 32) mod 2 ^ 16 = v mod 2 ^ 16).
  { change (2 ^ 32) with 4294967296. change (2 ^ 16) with 65536.
    Z.div_mod_to_equations. lia. }
  assert (Hhi : ((v + k * 2 ^ 32) / 2 ^ 16) mod 2 ^ 16 = (v / 2 ^ 16) mod 2 ^ 16).
  { change (2 ^ 32) with 4294967296. change (2 ^ 16) with 65536.
    Z.div_mod_to_equations. lia. }
  rewrite Hlo, Hhi. reflexivity.
Qed.

Lemma uint32_encode_wraps_witness :
  r_type DURATION_SESSION = "uint32"
  /\ (2 <= r_length DURATION_SESSION)%nat
  /\ encodeRegisterValue DURATION_SESSION (of_Z 5)
     = Return [of_Z (5 mod 2 ^ 16); of_Z ((5 / 2 ^ 16) mod 2 ^ 16)]
  /\ encodeRegisterValue DURATION_SESSION (of_Z (5 + 1 * 2 ^ 32))
     = encodeRegisterValue DURATION_SESSION (of_Z 5).
Proof.
  split; [reflexivity|]. split; [simpl; lia|].
  apply (uint32_encode_wraps DURATION_SESSION 5 1); [reflexivity | simpl; lia].
Defined.



(** X6: whatever the value (an integer or not, NaN, an infinity), when
    encodeRegisterValue returns, every element it returns is an integer of
    0..65535, and there is one element for the 16-bit types and two for the
    others. *)
Theorem encode_returns_16bit_words (register : Register) (value : number)
    (words : list number) :
  encodeRegisterValue register value = Return words ->
  Forall is_word words
  /\ length words
     = if String.eqb (r_type register) "uint16"
          || String.eqb (r_type register) "int16" then 1%nat else 2%nat.
Proof. apply encode_words. Qed.

Lemma encode_returns_16bit_words_witness :
  encodeRegisterValue CHARGING_CURRENT_EM (S754_infinity false)
  = Return [of_Z 0x7F80; of_Z 0]
  /\ Forall is_word [of_Z 0x7F80; of_Z 0]
  /\ length [of_Z 0x7F80; of_Z 0]
     = if String.eqb (r_type CHARGING_CURRENT_EM) "uint16"
          || String.eqb (r_type CHARGING_CURRENT_EM) "int16" then 1%nat else 2%nat.
Proof.
  assert (H : encodeRegisterValue CHARGING_CURRENT_EM (S754_infinity false)
              = Return [of_Z 0x7F80; of_Z 0]) by (vm_compute; reflexivity).
  split; [exact H|].
  apply (encode_returns_16bit_words CHARGING_CURRENT_EM (S754_infinity false)
           [of_Z 0x7F80; of_Z 0] H).
Defined.

(** X7: for the numeric types the decoder returns a number exactly when the
    buffer holds the bytes it reads, two for uint16 and int16 and four for
    uint32, int32 and float; on a shorter buffer it throws a RangeError. *)
Theorem parse_numeric_needs_bytes (register : Register) (buffer : Buffer) :
  numeric_type (r_type register) ->
  ((bytes_needed (r_type register) <= length buffer)%nat ->
   exists v, parseRegisterValue register buffer = Return (JNum v))
  /\ ((length buffer < bytes_needed (r_type register))%nat ->
      exists code, parseRegisterValue register buffer = Throw (RangeError code)).
Proof.
  intros Hty. split; intros Hlen.
  - apply parse_numeric_long_enough; assumption.
  - apply parse_numeric_too_short; assumption.
Qed.

Lemma parse_numeric_needs_bytes_witness :
  numeric_type (r_type MAX_CURRENT_EVSE)
  /\ (((bytes_needed (r_type MAX_CURRENT_EVSE) <= length [x41; xa0; x00])%nat ->
       exists v, parseRegisterValue MAX_CURRENT_EVSE [x41; xa0; x00] = Return (JNum v))
      /\ ((length [x41; xa0; x00] < bytes_needed (r_type MAX_CURRENT_EVSE))%nat ->
          exists code, parseRegisterValue MAX_CURRENT_EVSE [x41; xa0; x00]
                       = Throw (RangeError code))).
Proof.
  assert (H : numeric_type (r_type MAX_CURRENT_EVSE))
    by (unfold numeric_type; simpl; tauto).
  split; [exact H|].
  apply (parse_numeric_needs_bytes MAX_CURRENT_EVSE [x41; xa0; x00] H).
Defined.

(** X8: the ascii decoder returns a text for every buffer, of even or odd
    length or empty; the text is no longer than the buffer, holds no NUL and
    has no white space at either end. The encoder has no ascii case: it
    throws for every value. *)
Theorem ascii_decode_total_encode_fails (register : Register) (buffer : Buffer)
    (value : number) :
  r_type register = "ascii" ->
  (exists text,
     parseRegisterValue register buffer = Return (JStr text)
     /\ (String.length text <= length buffer)%nat
     /\ has_nul text = false
     /\ starts_white text = false
     /\ ends_white text = false)
  /\ encodeRegisterValue register value = Throw (Error "Cannot encode type: ascii").
Proof.
  intros Hty. split; [apply parse_ascii_any; assumption|].
  switch_on Hty. reflexivity.
Qed.

Lemma ascii_decode_total_encode_fails_witness :
  r_type FIRMWARE_VERSION = "ascii"
  /\ (exists text,
        parseRegisterValue FIRMWARE_VERSION [x20; x41; x00] = Return (JStr text)
        /\ (String.length text <= length [x20; x41; x00])%nat
        /\ has_nul text = false
        /\ starts_white text = false
        /\ ends_white text = false)
  /\ encodeRegisterValue FIRMWARE_VERSION (of_Z 1)
     = Throw (Error "Cannot encode type: ascii").
Proof.
  split; [reflexivity|].
  apply (ascii_decode_total_encode_fails FIRMWARE_VERSION [x20; x41; x00] (of_Z 1)).
  reflexivity.
Defined.

(** X9: decoding then encoding gives the words back for the integer types
    uint16 and int16 (one word) and uint32 (two words, also when the decoded
    value is negative). *)
Theorem decode_encode_integer_words (register : Register) (ws : list Z) :
  ((r_type register = "uint16" \/ r_type register = "int16")
   /\ (1 <= r_length register)%nat /\ exists w, ws = [w] /\ word w)
  \/ (r_type register = "uint32" /\ (2 <= r_length register)%nat
      /\ exists lo hi, ws = [lo; hi] /\ word lo /\ word hi) ->
  exists v,
    parseRegisterValue register (buffer_of_words ws) = Return (JNum v)
    /\ encodeRegisterValue register v = Return (map of_Z ws).
Proof.
  intros [[Hty [Hlen [w [-> Hw]]]]|[Hty [Hlen [lo [hi [-> [Hlo Hhi]]]]]]].
  - destruct Hty as [Hty|Hty].
    + exists (of_Z w). split; [apply parse_uint16; assumption|].
      apply encode_uint16; assumption.
    + exists (of_Z (signed16 w)). split; [apply parse_int16; assumption|].
      rewrite encode_int16 by (assumption || apply signed16_range; assumption).
      rewrite signed16_mod by assumption. reflexivity.
  - exists (of_Z (int32 (hi * 2 ^ 16 + lo))). split.
    + rewrite <- (app_nil_r (buffer_of_words _)). apply parse_uint32; assumption.
    + rewrite encode_uint32 by assumption. unfold word in *.
      assert (H1 : int32 (hi * 2 ^ 16 + lo) mod 2 ^ 16 = lo).
      { unfold int32. change (2 ^ 32) with 4294967296.
        change (2 ^ 31) with 2147483648. change (2 ^ 16) with 65536 in *.
        Z.div_mod_to_equations. lia. }
      assert (H2 : (int32 (hi * 2 ^ 16 + lo) / 2 ^ 16) mod 2 ^ 16 = hi).
      { rewrite int32_shift_mod.
        change (2 ^ 16) with 65536 in *. Z.div_mod_to_equations. lia. }
      rewrite H1, H2. reflexivity.
Qed.

Lemma decode_encode_integer_words_witness :
  (((r_type DURATION_SESSION = "uint16" \/ r_type DURATION_SESSION = "int16")
    /\ (1 <= r_length DURATION_SESSION)%nat
    /\ exists w, [0x0000; 0x8000] = [w] /\ word w)
   \/ (r_type DURATION_SESSION = "uint32" /\ (2 <= r_length DURATION_SESSION)%nat
       /\ exists lo hi, [0x0000; 0x8000] = [lo; hi] /\ word lo /\ word hi))
  /\ exists v,
       parseRegisterValue DURATION_SESSION (buffer_of_words [0x0000; 0x8000])
       = Return (JNum v)
       /\ encodeRegisterValue DURATION_SESSION v = Return (map of_Z [0x0000; 0x8000]).
Proof.
  assert (H : ((r_type DURATION_SESSION = "uint16" \/ r_type DURATION_SESSION = "int16")
               /\ (1 <= r_length DURATION_SESSION)%nat
               /\ exists w, [0x0000; 0x8000] = [w] /\ word w)
              \/ (r_type DURATION_SESSION = "uint32"
                  /\ (2 <= r_length DURATION_SESSION)%nat
                  /\ exists lo hi, [0x0000; 0x8000] = [lo; hi] /\ word lo /\ word hi)).
  { right. split; [reflexivity|]. split; [simpl; lia|].
    exists 0x0000, 0x8000. split; [reflexivity|]. unfold word. lia. }
  split; [exact H|].
  apply (decode_encode_integer_words DURATION_SESSION [0x0000; 0x8000] H).
Defined.

(** X10: the 16-bit decoders read the first two bytes only: uint16 returns
    the word they hold, int16 its two's-complement value (the word minus
    65536 from 0x8000 on); the bytes that follow are ignored. *)
Theorem decode_16bit_values (register : Register) (w : Z) (rest : Buffer) :
  r_type register = "uint16" \/ r_type register = "int16" ->
  word w ->
  parseRegisterValue register (word_bytes w ++ rest)
  = Return (JNum (of_Z (if String.eqb (r_type register) "int16" && (2 ^ 15 <=? w)
                         then w - 2 ^ 16 else w))).
Proof.
  intros [Hty|Hty] Hw; switch_on Hty.
  - rewrite readUInt16BE_word_0 by assumption. reflexivity.
  - rewrite readInt16BE_word by assumption. reflexivity.
Qed.

Lemma decode_16bit_values_witness :
  (r_type (mkRegister 0 1 "int16" "R") = "uint16"
   \/ r_type (mkRegister 0 1 "int16" "R") = "int16")
  /\ word 0xFFFE
  /\ parseRegisterValue (mkRegister 0 1 "int16" "R") (word_bytes 0xFFFE ++ [x07])
     = Return (JNum (of_Z (if String.eqb (r_type (mkRegister 0 1 "int16" "R")) "int16"
                              && (2 ^ 15 <=? 0xFFFE)
                            then 0xFFFE - 2 ^ 16 else 0xFFFE))).
Proof.
  assert (Hw : word 0xFFFE) by (unfold word; lia).
  assert (Hty : r_type (mkRegister 0 1 "int16" "R") = "uint16"
                \/ r_type (mkRegister 0 1 "int16" "R") = "int16")
    by (right; reflexivity).
  split; [exact Hty|]. split; [exact Hw|].
  apply (decode_16bit_values (mkRegister 0 1 "int16" "R") 0xFFFE [x07] Hty Hw).
Defined.

Lemma digits2_pos_unique (m : positive) (k : Z) :
  1 <= k -> 2 ^ (k - 1) <= Zpos m < 2 ^ k -> Zpos (digits2_pos m) = k.
Proof.
  intros Hk Hm. pose proof (digits2_pos_bounds m) as Hd.
  assert (Hlt1 : Zpos (digits2_pos m) - 1 < k).
  { apply (Z.pow_lt_mono_r_iff 2); lia. }
  assert (Hlt2 : k - 1 < Zpos (digits2_pos m)).
  { apply (Z.pow_lt_mono_r_iff 2); lia. }
  lia.
Qed.

Lemma digits2_pos_below (m : positive) (k : Z) :
  0 <= k -> Zpos m < 2 ^ k -> Zpos (digits2_pos m) <= k.
Proof.
  intros Hk Hm. pose proof (digits2_pos_bounds m) as Hd.
  assert (Hlt : Zpos (digits2_pos m) - 1 < k).
  { apply (Z.pow_lt_mono_r_iff 2); lia. }
  lia.
Qed.

(** Every 32-bit pattern denotes a single-precision value. *)
Lemma float32_of_bits_valid (x : Z) : is_float32 (float32_of_bits x).
Proof.
  unfold float32_of_bits, is_float32.
  pose proof (Z.mod_pos_bound (x / 2 ^ 23) (2 ^ 8) ltac:(lia)) as Hex.
  pose proof (Z.mod_pos_bound x (2 ^ 23) ltac:(lia)) as Hfrac.
  destruct (Z.eqb_spec ((x / 2 ^ 23) mod 2 ^ 8) 255) as [E255|N255].
  { destruct (x mod 2 ^ 23 =? 0); reflexivity. }
  destruct (Z.eqb_spec ((x / 2 ^ 23) mod 2 ^ 8) 0) as [E0|N0].
  - destruct (x mod 2 ^ 23) as [|p|p] eqn:Ef; try reflexivity.
    unfold valid_binary, bounded, canonical_mantissa.
    apply andb_true_iff. split; [|reflexivity].
    apply Z.eqb_eq. unfold fexp, emin.
    pose proof (digits2_pos_below p 23 ltac:(lia) ltac:(lia)). lia.
  - set (ex := (x / 2 ^ 23) mod 2 ^ 8) in *.
    set (frac := x mod 2 ^ 23) in *.
    unfold valid_binary, bounded, canonical_mantissa.
    assert (Hm : Zpos (Z.to_pos (frac + 2 ^ 23)) = frac + 2 ^ 23)
      by (apply Z2Pos.id; lia).
    assert (Hd : Zpos (digits2_pos (Z.to_pos (frac + 2 ^ 23))) = 24).
    { apply digits2_pos_unique; [lia|]. rewrite Hm. change (24 - 1) with 23.
      change (2 ^ 24) with (2 * 2 ^ 23). lia. }
    apply andb_true_iff. split.
    + apply Z.eqb_eq. rewrite Hd. unfold fexp, emin. lia.
    + apply Z.leb_le. lia.
Qed.

(** Apart from the NaN patterns, a 32-bit pattern is the pattern of the
    single it denotes. *)
Lemma bits_of_float32_of_bits (x : Z) :
  0 <= x < 2 ^ 32 -> nan_pattern x = false ->
  bits_of_float32 (float32_of_bits x) = x.
Proof.
  intros Hx Hnan. unfold nan_pattern in Hnan. unfold float32_of_bits.
  pose proof (Z.mod_pos_bound (x / 2 ^ 23) (2 ^ 8) ltac:(lia)) as Hex.
  pose proof (Z.mod_pos_bound x (2 ^ 23) ltac:(lia)) as Hfrac.
  set (ex := (x / 2 ^ 23) mod 2 ^ 8) in *.
  set (frac := x mod 2 ^ 23) in *.
  set (b := 2 ^ 31 <=? x).
  assert (Hdec : x = (if b then 2 ^ 31 else 0) + ex * 2 ^ 23 + frac
                 /\ 0 <= ex * 2 ^ 23 + frac < 2 ^ 31).
  { unfold b, ex, frac. change (2 ^ 32) with 4294967296 in Hx.
    change (2 ^ 31) with 2147483648. change (2 ^ 23) with 8388608.
    change (2 ^ 8) with 256.
    destruct (Z.leb_spec 2147483648 x); Z.div_mod_to_equations; lia. }
  destruct Hdec as [Hxeq Hr].
  assert (Hs : Z.testbit x 31 = b).
  { apply testbit_31 with (ex * 2 ^ 23 + frac); [lia | assumption]. }
  rewrite Hs.
  assert (Hsign : sign_bit b = if b then 2 ^ 31 else 0) by reflexivity.
  destruct (Z.eqb_spec ex 255) as [E255|N255].
  { destruct (Z.eqb_spec frac 0) as [F0|FN]; [|discriminate Hnan].
    unfold bits_of_float32. rewrite Hsign. lia. }
  destruct (Z.eqb_spec ex 0) as [E0|N0].
  - destruct frac as [|p|p] eqn:Ef; unfold bits_of_float32; rewrite Hsign; try lia.
    replace (2 ^ 23 <=? Zpos p) with false by (symmetry; apply Z.leb_gt; lia).
    lia.
  - unfold bits_of_float32.
    assert (Hm : Zpos (Z.to_pos (frac + 2 ^ 23)) = frac + 2 ^ 23)
      by (apply Z2Pos.id; lia).
    rewrite Hm, Hsign.
    replace (2 ^ 23 <=? frac + 2 ^ 23) with true by (symmetry; apply Z.leb_le; lia).
    lia.
Qed.

(** X11: decoding two words as float and encoding the result gives the two
    words back, unless they hold one of the NaN patterns; the decoded number
    is always a single-precision value. *)
Theorem float_decode_encode_words (register : Register) (w0 w1 : Z) :
  r_type register = "float" -> (2 <= r_length register)%nat ->
  word w0 -> word w1 ->
  exists v,
    parseRegisterValue register (buffer_of_words [w0; w1]) = Return (JNum v)
    /\ is_float32 v
    /\ (nan_pattern (w0 * 2 ^ 16 + w1) = false ->
        encodeRegisterValue register v = Return [of_Z w0; of_Z w1]).
Proof.
  intros Hty Hlen H0 H1. exists (float32_of_bits (w0 * 2 ^ 16 + w1)).
  split; [|split].
  - rewrite <- (app_nil_r (buffer_of_words _)). apply parse_float; assumption.
  - apply float32_of_bits_valid.
  - intros Hnan.
    rewrite encode_float by (assumption || apply float32_of_bits_valid).
    unfold word in *.
    rewrite bits_of_float32_of_bits by (assumption || lia).
    assert (Hq : (w0 * 2 ^ 16 + w1) / 2 ^ 16 = w0).
    { change (2 ^ 16) with 65536 in *. Z.div_mod_to_equations. lia. }
    assert (Hr : (w0 * 2 ^ 16 + w1) mod 2 ^ 16 = w1).
    { change (2 ^ 16) with 65536 in *. Z.div_mod_to_equations. lia. }
    rewrite Hq, Hr. reflexivity.
Qed.

Lemma float_decode_encode_words_witness :
  r_type CHARGING_CURRENT_EM = "float"
  /\ (2 <= r_length CHARGING_CURRENT_EM)%nat
  /\ word 0x4180 /\ word 0x0000
  /\ exists v,
       parseRegisterValue CHARGING_CURRENT_EM (buffer_of_words [0x4180; 0x0000])
       = Return (JNum v)
       /\ is_float32 v
       /\ (nan_pattern (0x4180 * 2 ^ 16 + 0x0000) = false ->
           encodeRegisterValue CHARGING_CURRENT_EM v
           = Return [of_Z 0x4180; of_Z 0x0000]).
Proof.
  assert (H0 : word 0x4180) by (unfold word; lia).
  assert (H1 : word 0x0000) by (unfold word; lia).
  split; [reflexivity|]. split; [simpl; lia|]. split; [exact H0|]. split; [exact H1|].
  apply (float_decode_encode_words CHARGING_CURRENT_EM 0x4180 0x0000);
    [reflexivity | simpl; lia | exact H0 | exact H1].
Defined.

(** ** The catalog *)

Lemma catalog_entry (name : string) (register : Register) :
  REGISTERS !! name = Some register -> (name, register) ∈ register_table.
Proof.
  intros H. apply (elem_of_list_to_map_2 (M := gmap string)). exact H.
Qed.

Lemma catalog_layout :
  Forall (fun e : string * Register => layout_ok (snd e) = true) register_table.
Proof. apply (bool_decide_unpack _). vm_compute. exact I. Qed.

Lemma catalog_addresses :
  Forall (fun e : string * Register =>
            getRegisterByAddress (r_address (snd e)) = Some (snd e))
         register_table.
Proof. apply (bool_decide_unpack _). vm_compute. exact I. Qed.

Lemma catalog_ranges :
  Forall (fun e1 : string * Register =>
            Forall (fun e2 : string * Register =>
                      fst e1 = fst e2 \/ disjoint_ranges (snd e1) (snd e2))
                   register_table)
         register_table.
Proof. apply (bool_decide_unpack _). vm_compute. exact I. Qed.

Lemma layout_cases (register : Register) :
  layout_ok register = true ->
  (r_type register = "uint16" /\ r_length register = 1%nat)
  \/ ((r_type register = "uint32" \/ r_type register = "float")
      /\ r_length register = 2%nat)
  \/ r_type register = "ascii".
Proof.
  unfold layout_ok. intros H.
  apply orb_true_iff in H as [H|H]; [apply orb_true_iff in H as [H|H]|].
  - apply andb_true_iff in H as [Ht Hl]. left.
    split; [apply String.eqb_eq | apply Nat.eqb_eq]; assumption.
  - apply andb_true_iff in H as [Ht Hl]. right. left.
    split; [|apply Nat.eqb_eq; assumption].
    apply orb_true_iff in Ht as [Ht|Ht]; [left|right]; apply String.eqb_eq; assumption.
  - right. right. apply String.eqb_eq. assumption.
Qed.

(** X12: every register of the catalog is decodable from a response of its
    declared length: for each name of the catalog and each buffer of twice
    [length] bytes, parseRegisterValue returns a value. *)
Theorem catalog_registers_decode (name : string) (register : Register)
    (buffer : Buffer) :
  REGISTERS !! name = Some register ->
  length buffer = (2 * r_length register)%nat ->
  exists v, parseRegisterValue register buffer = Return v.
Proof.
  intros Hreg Hlen.
  pose proof (proj1 (Forall_forall _ _) catalog_layout _ (catalog_entry _ _ Hreg)) as Hl.
  simpl in Hl. apply layout_cases in Hl as [[Hty Hn]|[[Hty Hn]|Hty]].
  - destruct (parse_numeric_long_enough register buffer) as [v Hv].
    + left. assumption.
    + rewrite Hty. change (bytes_needed "uint16") with 2%nat. lia.
    + eauto.
  - destruct (parse_numeric_long_enough register buffer) as [v Hv].
    + destruct Hty as [Hty|Hty]; unfold numeric_type; tauto.
    + destruct Hty as [Hty|Hty]; rewrite Hty;
        change (bytes_needed _) with 4%nat; lia.
    + eauto.
  - destruct (parse_ascii_any register buffer Hty) as [text [Hp _]]. eauto.
Qed.

Lemma catalog_registers_decode_witness :
  REGISTERS !! "DURATION_SESSION" = Some DURATION_SESSION
  /\ length [xff; xff; xff; xff] = (2 * r_length DURATION_SESSION)%nat
  /\ exists v, parseRegisterValue DURATION_SESSION [xff; xff; xff; xff] = Return v.
Proof.
  assert (H : REGISTERS !! "DURATION_SESSION" = Some DURATION_SESSION)
    by (vm_compute; reflexivity).
  split; [exact H|]. split; [reflexivity|].
  apply (catalog_registers_decode "DURATION_SESSION" DURATION_SESSION
           [xff; xff; xff; xff] H).
  reflexivity.
Defined.

(** X13: the address ranges of the catalog do not overlap, and
    getRegisterByAddress inverts the catalog: for every register of the
    catalog it returns that register from its address, and two registers
    under different names occupy disjoint address ranges. *)
Theorem catalog_addresses_unique (name1 name2 : string) (r1 r2 : Register) :
  REGISTERS !! name1 = Some r1 -> REGISTERS !! name2 = Some r2 ->
  getRegisterByAddress (r_address r1) = Some r1
  /\ (name1 <> name2 -> disjoint_ranges r1 r2).
Proof.
  intros H1 H2. apply catalog_entry in H1. apply catalog_entry in H2. split.
  - exact (proj1 (Forall_forall _ _) catalog_addresses _ H1).
  - intros Hne.
    pose proof (proj1 (Forall_forall _ _) catalog_ranges _ H1) as Hall.
    destruct (proj1 (Forall_forall _ _) Hall _ H2) as [Heq|Hd]; [|exact Hd].
    simpl in Heq. contradiction.
Qed.

Lemma catalog_addresses_unique_witness :
  REGISTERS !! "FIRMWARE_VERSION" = Some FIRMWARE_VERSION
  /\ REGISTERS !! "EVSE_STATE" = Some EVSE_STATE
  /\ getRegisterByAddress (r_address FIRMWARE_VERSION) = Some FIRMWARE_VERSION
  /\ ("FIRMWARE_VERSION" <> "EVSE_STATE"
      -> disjoint_ranges FIRMWARE_VERSION EVSE_STATE).
Proof.
  assert (H1 : REGISTERS !! "FIRMWARE_VERSION" = Some FIRMWARE_VERSION)
    by (vm_compute; reflexivity).
  assert (H2 : REGISTERS !! "EVSE_STATE" = Some EVSE_STATE)
    by (vm_compute; reflexivity).
  split; [exact H1|]. split; [exact H2|].
  apply (catalog_addresses_unique "FIRMWARE_VERSION" "EVSE_STATE"
           FIRMWARE_VERSION EVSE_STATE H1 H2).
Defined.

(** X14: for every register of the catalog, the words encodeRegisterValue
    returns are as many as the register is long, and each fits 16 bits: a
    write never sends more or fewer words than the register holds. *)
Theorem catalog_encode_length (name : string) (register : Register)
    (value : number) (words : list number) :
  REGISTERS !! name = Some register ->
  encodeRegisterValue register value = Return words ->
  length words = r_length register /\ Forall is_word words.
Proof.
  intros Hreg Henc.
  pose proof (proj1 (Forall_forall _ _) catalog_layout _ (catalog_entry _ _ Hreg)) as Hl.
  simpl in Hl. destruct (encode_words register value words Henc) as [Hw Hn].
  split; [|exact Hw].
  apply layout_cases in Hl as [[Hty Hlen]|[[Hty Hlen]|Hty]].
  - rewrite Hty in Hn. rewrite Hn, Hlen. reflexivity.
  - destruct Hty as [Hty|Hty]; rewrite Hty in Hn; rewrite Hn, Hlen; reflexivity.
  - revert Henc. switch_on Hty. discriminate.
Qed.

Lemma catalog_encode_length_witness :
  REGISTERS !! "CHARGING_CURRENT_EM" = Some CHARGING_CURRENT_EM
  /\ encodeRegisterValue CHARGING_CURRENT_EM (of_Z 16) = Return [of_Z 0x4180; of_Z 0]
  /\ length [of_Z 0x4180; of_Z 0] = r_length CHARGING_CURRENT_EM
  /\ Forall is_word [of_Z 0x4180; of_Z 0].
Proof.
  assert (H1 : REGISTERS !! "CHARGING_CURRENT_EM" = Some CHARGING_CURRENT_EM)
    by (vm_compute; reflexivity).
  assert (H2 : encodeRegisterValue CHARGING_CURRENT_EM (of_Z 16)
               = Return [of_Z 0x4180; of_Z 0]) by (vm_compute; reflexivity).
  split; [exact H1|]. split; [exact H2|].
  apply (catalog_encode_length "CHARGING_CURRENT_EM" CHARGING_CURRENT_EM
           (of_Z 16) [of_Z 0x4180; of_Z 0] H1 H2).
Defined.

(** ** The budget of transport calls *)

Lemma within_calls_refl (c : Client) : within_calls 0 c c.
Proof. unfold within_calls. split; [lia | auto]. Qed.

Lemma within_calls_trans (n m : nat) (c1 c2 c3 : Client) :
  within_calls n c1 c2 -> within_calls m c2 c3 -> within_calls (n + m) c1 c3.
Proof. unfold within_calls. intros [H1 H1'] [H2 H2']. split; [lia | auto]. Qed.

Lemma within_calls_weaken (n m : nat) (c c' : Client) :
  (n <= m)%nat -> within_calls n c c' -> within_calls m c c'.
Proof. unfold within_calls. intros Hle [H H']. split; [lia | auto]. Qed.

Lemma read_attempt_within (register : Register) (c : Client) :
  within_calls 1 c (snd (read_attempt register c)).
Proof.
  unfold read_attempt, mbind, M_bind, get, await_client, lift, throw.
  destruct (isConnected c) eqn:Hc; simpl.
  - destruct (transport c (calls c) _); simpl;
      unfold within_calls; simpl; (split; [lia | auto]).
  - apply within_calls_weaken with 0%nat; [lia | apply within_calls_refl].
Qed.

Lemma write_attempt_within (register : Register) (value : number) (c : Client) :
  within_calls 1 c (snd (write_attempt register value c)).
Proof.
  unfold write_attempt, mbind, M_bind, get, await_client, lift, throw.
  destruct (isConnected c) eqn:Hc; simpl.
  - destruct (encodeRegisterValue register value) as [words|e]; simpl.
    + destruct (transport c (calls c) _); simpl;
        unfold within_calls; simpl; (split; [lia | auto]).
    + unfold within_calls. split; [lia | auto].
  - apply within_calls_weaken with 0%nat; [lia | apply within_calls_refl].
Qed.

Lemma final_failure_within {A} (cfg : Config) (e : JsError) (c : Client) :
  within_calls 0 c (snd (@final_failure A cfg e c)).
Proof.
  unfold final_failure, scheduleReconnect, mbind, M_bind, modify, emit, get, throw,
    setTimeout, setTimer, mret, M_ret.
  destruct (indicates_lost e); simpl.
  - destruct (reconnecting c); simpl; unfold within_calls; simpl;
      (split; [lia | discriminate]).
  - apply within_calls_refl.
Qed.

(** One pass through [try { attempt } catch { retry or fail }] costs the
    call of the attempt and those of the retry. *)
Lemma try_retry_within {A} (cfg : Config) (attempt retry : M A) (rc : Z) (n : nat) :
  (forall c, within_calls 1 c (snd (attempt c))) ->
  (forall c, within_calls n c (snd (retry c))) ->
  forall c, within_calls (S n) c
              (snd (try_catch attempt (retry_or_fail cfg retry rc) c)).
Proof.
  intros Ha Hr c. unfold try_catch. pose proof (Ha c) as H1.
  destruct (attempt c) as [[a|e] c1]; simpl in H1.
  - simpl. apply within_calls_weaken with 1%nat; [lia | assumption].
  - destruct (Z.ltb_spec rc (maxRetries cfg)).
    + rewrite retry_or_fail_again by assumption.
      apply (within_calls_trans 1 n c c1); [assumption|].
      apply (within_calls_trans 0 n c1 (observe (Delay 500) c1)); [|apply Hr].
      unfold within_calls. simpl. split; [lia | auto].
    + rewrite retry_or_fail_last by lia.
      apply (within_calls_trans 1 n c c1); [assumption|].
      apply within_calls_weaken with 0%nat; [lia | apply final_failure_within].
Qed.

Lemma throw_within {A} (e : JsError) (n : nat) (c : Client) :
  within_calls n c (snd (@throw A e c)).
Proof. apply within_calls_weaken with 0%nat; [lia | apply within_calls_refl]. Qed.

Lemma readRegister_body_within (cfg : Config) (retry : M JsValue) (name : string)
    (rc : Z) (n : nat) :
  (forall c, within_calls n c (snd (retry c))) ->
  forall c, within_calls (S n) c (snd (readRegister_body cfg retry name rc c)).
Proof.
  intros Hr c. unfold readRegister_body.
  destruct (REGISTERS_get name) as [register| |]; try apply throw_within.
  destruct (negb (includes (r_access register) "R")); try apply throw_within.
  apply try_retry_within; [apply read_attempt_within | exact Hr].
Qed.

Lemma writeRegister_body_within (cfg : Config) (retry : M unit) (name : string)
    (value : number) (rc : Z) (n : nat) :
  (forall c, within_calls n c (snd (retry c))) ->
  forall c, within_calls (S n) c (snd (writeRegister_body cfg retry name value rc c)).
Proof.
  intros Hr c. unfold writeRegister_body.
  destruct (REGISTERS_get name) as [register| |]; try apply throw_within.
  destruct (negb (includes (r_access register) "W")); try apply throw_within.
  apply try_retry_within; [apply write_attempt_within | exact Hr].
Qed.

Lemma readRegister_fuel_within (cfg : Config) (name : string) (fuel : nat) :
  forall (rc : Z) (c : Client),
    within_calls (S fuel) c (snd (readRegister_fuel cfg fuel name rc c)).
Proof.
  induction fuel as [|fuel IH]; intros rc c.
  - change (readRegister_fuel cfg 0 name rc)
      with (readRegister_body cfg (throw (Error "no retry left")) name rc).
    apply readRegister_body_within. intros c1. apply throw_within.
  - change (readRegister_fuel cfg (S fuel) name rc)
      with (readRegister_body cfg (readRegister_fuel cfg fuel name (rc + 1)) name rc).
    apply readRegister_body_within. intros c1. apply IH.
Qed.

Lemma writeRegister_fuel_within (cfg : Config) (name : string) (value : number)
    (fuel : nat) :
  forall (rc : Z) (c : Client),
    within_calls (S fuel) c (snd (writeRegister_fuel cfg fuel name value rc c)).
Proof.
  induction fuel as [|fuel IH]; intros rc c.
  - change (writeRegister_fuel cfg 0 name value rc)
      with (writeRegister_body cfg (throw (Error "no retry left")) name value rc).
    apply writeRegister_body_within. intros c1. apply throw_within.
  - change (writeRegister_fuel cfg (S fuel) name value rc)
      with (writeRegister_body cfg (writeRegister_fuel cfg fuel name value (rc + 1))
              name value rc).
    apply writeRegister_body_within. intros c1. apply IH.
Qed.

(** X15: whatever the transport does, a readRegister or writeRegister call
    makes at most maxRetries + 1 transport calls, and it never marks a
    disconnected session connected. *)
Theorem transport_calls_bounded (cfg : Config) (name : string) (value : number)
    (c : Client) :
  within_calls (S (Z.to_nat (maxRetries cfg))) c (snd (readRegister cfg name 0 c))
  /\ within_calls (S (Z.to_nat (maxRetries cfg))) c
       (snd (writeRegister cfg name value 0 c)).
Proof.
  unfold readRegister, writeRegister. rewrite Z.sub_0_r. split.
  - apply readRegister_fuel_within.
  - apply writeRegister_fuel_within.
Qed.

(** ** Recovery within the retries *)

Section Recovery.
Context {A : Type}.
Variable cfg : Config.
Variable attempt : M A.
Variable f : Z -> M A.
Variable rq : ModbusRTU.call.
Variable result : Buffer -> completion A.
Hypothesis f_unfold : forall rc c,
  f rc c = try_catch attempt (retry_or_fail cfg (f (rc + 1)) rc) c.
Hypothesis attempt_connected : forall c,
  isConnected c = true ->
  attempt c = (match transport c (calls c) rq with
               | Resolved buffer => result buffer
               | Rejected e => Throw e
               end, wire_step rq c).

(** [k] rejected attempts followed by a resolved one, within the retries
    that are left. *)
Lemma retry_loop_recovers (k : nat) :
  forall (rc : Z) (c : Client) (buffer : Buffer) (a : A),
    rc + Z.of_nat k <= maxRetries cfg ->
    isConnected c = true ->
    (forall j, (j < k)%nat -> exists e, transport c (calls c + j)%nat rq = Rejected e) ->
    transport c (calls c + k)%nat rq = Resolved buffer ->
    result buffer = Return a ->
    f rc c = (Return a, after_attempts (wire_step rq) k c).
Proof.
  induction k as [|k IH]; intros rc c buffer a Hrc Hc Hrej Hres Ha.
  - apply (retry_loop_success cfg attempt f f_unfold).
    rewrite attempt_connected by assumption.
    rewrite Nat.add_0_r in Hres. rewrite Hres, Ha. reflexivity.
  - destruct (Hrej 0%nat ltac:(lia)) as [e He]. rewrite Nat.add_0_r in He.
    rewrite (retry_loop_again cfg attempt f f_unfold rc c (wire_step rq c) e)
      by (try (rewrite attempt_connected by assumption; rewrite He; reflexivity); lia).
    simpl. apply IH with buffer.
    + lia.
    + exact Hc.
    + intros j Hj. simpl. destruct (Hrej (S j) ltac:(lia)) as [e' He'].
      exists e'. rewrite <- He'. f_equal. lia.
    + simpl. rewrite <- Hres. f_equal. lia.
    + exact Ha.
Qed.
End Recovery.

(** X16: a read or write whose first [k] attempts are rejected by the
    transport, whatever the errors (timeouts included), and whose next attempt
    is answered, succeeds when [k] is at most maxRetries: the call returns
    the decoded value (nothing for a write) after [k] pauses of 500 ms; the
    session stays connected, nothing is emitted and no reconnect is
    scheduled. *)
Theorem recovers_within_retries (cfg : Config) (rname wname : string)
    (rreg wreg : Register) (value : number) (words : list number) (k : nat)
    (buffer : Buffer) (v : JsValue) (c : Client) :
  REGISTERS !! rname = Some rreg -> includes (r_access rreg) "R" = true ->
  REGISTERS !! wname = Some wreg -> includes (r_access wreg) "W" = true ->
  encodeRegisterValue wreg value = Return words ->
  parseRegisterValue rreg buffer = Return v ->
  Z.of_nat k <= maxRetries cfg ->
  isConnected c = true ->
  (forall j rq, (j < k)%nat -> exists e, transport c (calls c + j)%nat rq = Rejected e) ->
  (forall rq, transport c (calls c + k)%nat rq = Resolved buffer) ->
  let rrq := ModbusRTU.readHoldingRegisters (r_address rreg) (r_length rreg) in
  let wrq := write_request wreg words in
  readRegister cfg rname 0 c = (Return v, after_attempts (wire_step rrq) k c)
  /\ writeRegister cfg wname value 0 c
     = (Return tt, after_attempts (wire_step wrq) k c)
  /\ (forall rq, let c' := after_attempts (wire_step rq) k c in
                 trace c' = trace c ++ failed_attempts rq k
                 /\ calls c' = (calls c + S k)%nat
                 /\ isConnected c' = true
                 /\ reconnecting c' = reconnecting c
                 /\ timers c' = timers c).
Proof.
  intros Hr Har Hw Haw Henc Hparse Hk Hc Hrej Hres rrq wrq.
  split; [|split].
  - apply (retry_loop_recovers cfg (read_attempt rreg) (readRegister cfg rname)
             rrq (parseRegisterValue rreg)
             (fun rc c => readRegister_known cfg rname rreg rc c Hr Har)
             (read_attempt_connected rreg) k 0 c buffer v);
      (assumption || auto).
  - apply (retry_loop_recovers cfg (write_attempt wreg value)
             (writeRegister cfg wname value)
             wrq (fun _ => Return tt)
             (fun rc c => writeRegister_known cfg wname wreg value rc c Hw Haw)
             (fun c H => write_attempt_connected wreg value words c H Henc)
             k 0 c buffer tt);
      (assumption || auto).
  - intros rq c'.
    destruct (after_attempts_wire rq k c) as (Ht & Hn & Hi & Hrc & Hm & _).
    subst c'. rewrite Hi. auto.
Qed.

Lemma recovers_within_retries_witness :
  let c := connected_client times_out_once in
  let rrq := ModbusRTU.readHoldingRegisters (r_address EVSE_STATE)
                                            (r_length EVSE_STATE) in
  let wrq := write_request HEARTBEAT_EM [of_Z 0x55AA] in
  (REGISTERS !! "EVSE_STATE" = Some EVSE_STATE
   /\ includes (r_access EVSE_STATE) "R" = true
   /\ REGISTERS !! "HEARTBEAT_EM" = Some HEARTBEAT_EM
   /\ includes (r_access HEARTBEAT_EM) "W" = true
   /\ encodeRegisterValue HEARTBEAT_EM (of_Z 0x55AA) = Return [of_Z 0x55AA]
   /\ parseRegisterValue EVSE_STATE [x00; x01] = Return (JNum (of_Z 1))
   /\ Z.of_nat 1 <= maxRetries default_config
   /\ isConnected c = true
   /\ (forall j rq, (j < 1)%nat ->
         exists e, transport c (calls c + j)%nat rq = Rejected e)
   /\ (forall rq, transport c (calls c + 1)%nat rq = Resolved [x00; x01]))
  /\ readRegister default_config "EVSE_STATE" 0 c
     = (Return (JNum (of_Z 1)), after_attempts (wire_step rrq) 1 c)
  /\ writeRegister default_config "HEARTBEAT_EM" (of_Z 0x55AA) 0 c
     = (Return tt, after_attempts (wire_step wrq) 1 c)
  /\ (forall rq, let c' := after_attempts (wire_step rq) 1 c in
                 trace c' = trace c ++ failed_attempts rq 1
                 /\ calls c' = (calls c + 2)%nat
                 /\ isConnected c' = true
                 /\ reconnecting c' = reconnecting c
                 /\ timers c' = timers c).
Proof.
  assert (H1 : REGISTERS !! "EVSE_STATE" = Some EVSE_STATE) by (vm_compute; reflexivity).
  assert (H2 : REGISTERS !! "HEARTBEAT_EM" = Some HEARTBEAT_EM) by (vm_compute; reflexivity).
  assert (H3 : encodeRegisterValue HEARTBEAT_EM (of_Z 0x55AA) = Return [of_Z 0x55AA])
    by (vm_compute; reflexivity).
  assert (H4 : parseRegisterValue EVSE_STATE [x00; x01] = Return (JNum (of_Z 1)))
    by (vm_compute; reflexivity).
  assert (H5 : forall j rq, (j < 1)%nat ->
            exists e, transport (connected_client times_out_once)
                        (calls (connected_client times_out_once) + j)%nat rq
                      = Rejected e).
  { intros j rq Hj. exists (Error "Timed Out").
    replace j with 0%nat by lia. reflexivity. }
  intros c rrq wrq. split.
  - repeat split; try assumption; try reflexivity. simpl. lia.
  - apply (recovers_within_retries default_config "EVSE_STATE" "HEARTBEAT_EM"
             EVSE_STATE HEARTBEAT_EM (of_Z 0x55AA) [of_Z 0x55AA] 1
             [x00; x01] (JNum (of_Z 1)) c);
      try assumption; try reflexivity. simpl. lia.
Defined.

(** ** Reading several registers *)

Lemma set_result_other (name : string) (v : option JsValue) (results : Results)
    (key : string) :
  key <> "__proto__" ->
  properties (set_result name v results) !! key
  = if decide (key = name) then Some v else properties results !! key.
Proof.
  intros Hkey. unfold set_result.
  destruct (String.eqb_spec name "__proto__") as [->|Hne].
  - rewrite decide_False by exact Hkey.
    destruct (prototype_null results); cbn [andb negb].
    + cbn [properties]. apply lookup_insert_ne. congruence.
    + destruct v; reflexivity.
  - cbn [andb properties]. destruct (decide (key = name)) as [->|Hk].
    + apply lookup_insert_eq.
    + apply lookup_insert_ne. congruence.
Qed.

Lemma set_result_name (name : string) (v : option JsValue) (results : Results) :
  name <> "__proto__" ->
  set_result name v results
  = {| properties := <[name := v]> (properties results);
       prototype_null := prototype_null results |}.
Proof.
  intros Hne. unfold set_result.
  destruct (String.eqb_spec name "__proto__"); [contradiction | reflexivity].
Qed.

Lemma set_result_proto (results : Results) :
  set_result "__proto__" None results
  = if prototype_null results
    then {| properties := <["__proto__" := None]> (properties results);
            prototype_null := true |}
    else {| properties := properties results; prototype_null := true |}.
Proof.
  unfold set_result. change (String.eqb "__proto__" "__proto__") with true.
  destruct (prototype_null results) eqn:E; cbn [andb negb]; reflexivity.
Qed.

Lemma readMultipleRegisters_step (cfg : Config) (name : string)
    (rest : list string) (results : Results) (c : Client) :
  exists v c1,
    readMultipleRegisters_loop cfg (name :: rest) results c
    = readMultipleRegisters_loop cfg rest (set_result name v results) c1
    /\ c1 = snd (readRegister cfg name 0 c)
    /\ (v = None <-> exists e, fst (readRegister cfg name 0 c) = Throw e).
Proof.
  change (readMultipleRegisters_loop cfg (name :: rest) results c)
    with ((try_catch
             (v ← readRegister cfg name 0; mret (set_result name (Some v) results))
             (fun _ => mret (set_result name None results))
           ≫= readMultipleRegisters_loop cfg rest) c).
  unfold try_catch, mbind, M_bind, mret, M_ret.
  destruct (readRegister cfg name 0 c) as [[v|e] c1].
  - exists (Some v), c1. split; [reflexivity|]. split; [reflexivity|].
    split; [discriminate | intros [e He]; discriminate].
  - exists None, c1. split; [reflexivity|]. split; [reflexivity|].
    split; [eauto | reflexivity].
Qed.

(** The read of the name [__proto__] always throws, so that [null] is what
    is assigned under that name. *)
Lemma readMultipleRegisters_step_proto (cfg : Config) (rest : list string)
    (results : Results) (c : Client) :
  exists c1,
    readMultipleRegisters_loop cfg ("__proto__" :: rest) results c
    = readMultipleRegisters_loop cfg rest (set_result "__proto__" None results) c1.
Proof.
  destruct (readMultipleRegisters_step cfg "__proto__" rest results c)
    as (v & c1 & Hstep & _ & Hv).
  assert (Hnone : v = None).
  { apply Hv. exists cannot_read_includes.
    rewrite (readRegister_inherited cfg "__proto__" 0 c) by (vm_compute; reflexivity).
    reflexivity. }
  subst v. exists c1. exact Hstep.
Qed.

Lemma readMultipleRegisters_loop_total (cfg : Config) (names : list string) :
  forall (results : Results) (c : Client),
    exists results' c',
      readMultipleRegisters_loop cfg names results c = (Return results', c')
      /\ (forall key, key <> "__proto__" ->
            (is_Some (properties results' !! key)
             <-> is_Some (properties results !! key) \/ key ∈ names))
      /\ (prototype_null results' = true
          <-> prototype_null results = true \/ "__proto__" ∈ names)
      /\ (is_Some (properties results' !! "__proto__")
          <-> is_Some (properties results !! "__proto__")
              \/ (if prototype_null results
                  then 1 <= occurrences "__proto__" names
                  else 2 <= occurrences "__proto__" names)%nat).
Proof.
  induction names as [|name rest IH]; intros results c.
  - exists results, c. split; [reflexivity|]. split; [|split].
    + intros key _. split; [auto | intros [H|H]; [exact H | inversion H]].
    + split; [auto | intros [H|H]; [exact H | inversion H]].
    + split; [auto|]. intros [H|H]; [exact H|].
      destruct (prototype_null results); simpl in H; lia.
  - destruct (decide (name = "__proto__")) as [->|Hne].
    + destruct (readMultipleRegisters_step_proto cfg rest results c) as (c1 & Hstep).
      destruct (IH (set_result "__proto__" None results) c1)
        as (results' & c' & Hrun & Hkeys & Hnull & Hproto).
      exists results', c'. split; [rewrite Hstep; exact Hrun|].
      rewrite set_result_proto in Hnull, Hproto.
      split; [|split].
      * intros key Hkey. rewrite (Hkeys key Hkey), set_result_other by exact Hkey.
        rewrite decide_False by exact Hkey. rewrite elem_of_cons. tauto.
      * rewrite elem_of_cons. split; [auto|]. intros _. apply Hnull.
        left. destruct (prototype_null results); reflexivity.
      * change (occurrences "__proto__" ("__proto__" :: rest))
          with (1 + occurrences "__proto__" rest)%nat.
        destruct (prototype_null results); cbn [properties prototype_null] in Hproto.
        -- rewrite lookup_insert_eq in Hproto.
           split; [intros _; right; lia|]. intros _. apply Hproto. left. eauto.
        -- rewrite Hproto. split; (intros [H|H]; [left; exact H | right; lia]).
    + destruct (readMultipleRegisters_step cfg name rest results c)
        as (v & c1 & Hstep & _ & _).
      destruct (IH (set_result name v results) c1)
        as (results' & c' & Hrun & Hkeys & Hnull & Hproto).
      exists results', c'. split; [rewrite Hstep; exact Hrun|].
      rewrite (set_result_name name v results Hne) in Hnull, Hproto.
      cbn [properties prototype_null] in Hnull, Hproto.
      rewrite lookup_insert_ne in Hproto by exact Hne.
      assert (Hocc : occurrences "__proto__" (name :: rest)
                     = occurrences "__proto__" rest).
      { cbn [occurrences]. destruct (String.eqb_spec name "__proto__");
          [contradiction | reflexivity]. }
      split; [|split].
      * intros key Hkey. rewrite (Hkeys key Hkey), set_result_other by exact Hkey.
        rewrite elem_of_cons. destruct (decide (key = name)) as [->|Hk].
        -- split; [auto|]. intros _. left. eauto.
        -- tauto.
      * rewrite Hnull, elem_of_cons. split.
        -- intros [H|H]; auto.
        -- intros [H|[H|H]]; [auto | congruence | auto].
      * rewrite Hocc. exact Hproto.
Qed.

(** X17: readMultipleRegisters never throws, whatever the names, the
    session and the transport. Apart from [__proto__], the own properties of
    the object it returns are exactly the requested names. The first
    assignment under the name [__proto__], of [null] since the read of that
    name always throws, replaces the prototype of the object by [null] and
    creates no property; every later one creates the own property: the
    object has an own property [__proto__] exactly when the name is requested
    at least twice, and a [null] prototype exactly when it is requested. *)
Theorem readMultipleRegisters_total (cfg : Config) (names : list string)
    (c : Client) :
  exists results c',
    readMultipleRegisters cfg names c = (Return results, c')
    /\ (forall key, key <> "__proto__" ->
          (is_Some (properties results !! key) <-> key ∈ names))
    /\ (is_Some (properties results !! "__proto__")
        <-> (2 <= occurrences "__proto__" names)%nat)
    /\ (prototype_null results = true <-> "__proto__" ∈ names).
Proof.
  destruct (readMultipleRegisters_loop_total cfg names empty_object c)
    as (results & c' & Hrun & Hkeys & Hnull & Hproto).
  cbn [empty_object properties prototype_null] in Hkeys, Hnull, Hproto.
  exists results, c'. split; [exact Hrun|]. split; [|split].
  - intros key Hkey. rewrite (Hkeys key Hkey), lookup_empty.
    split; [intros [[x Hx]|H]; [discriminate | exact H] | auto].
  - rewrite Hproto, lookup_empty.
    split; [intros [[x Hx]|H]; [discriminate | exact H] | auto].
  - rewrite Hnull. split; [intros [H|H]; [discriminate | exact H] | auto].
Qed.

Lemma REGISTERS_get_Own (name : string) (register : Register) :
  REGISTERS_get name = Own register -> REGISTERS !! name = Some register.
Proof.
  unfold REGISTERS_get. destruct (REGISTERS !! name) as [r|].
  - intros H. inversion H. reflexivity.
  - destruct (bool_decide _); discriminate.
Qed.

(** On a disconnected session every read throws, without a transport call
    and without any change of the connection state or of the timers. *)
Lemma readRegister_disconnected_any (cfg : Config) (name : string) (c : Client) :
  isConnected c = false ->
  exists e c',
    readRegister cfg name 0 c = (Throw e, c')
    /\ calls c' = calls c /\ isConnected c' = false
    /\ reconnecting c' = reconnecting c /\ timers c' = timers c.
Proof.
  intros Hc. destruct (REGISTERS_get name) as [register| |] eqn:E.
  - apply REGISTERS_get_Own in E.
    destruct (includes (r_access register) "R") eqn:Hacc.
    + rewrite (readRegister_disconnected cfg name register 0 c E Hacc Hc).
      destruct (after_attempts_id (Z.to_nat (maxRetries cfg - 0)) c)
        as (_ & Hk & Hi & Hr & Hm).
      eexists _, _. split; [reflexivity|]. rewrite Hi. auto.
    + rewrite (readRegister_not_readable cfg name register 0 c E Hacc).
      eexists _, _. split; [reflexivity|]. auto.
  - rewrite (readRegister_inherited cfg name 0 c E).
    eexists _, _. split; [reflexivity|]. auto.
  - rewrite (readRegister_undefined cfg name 0 c E).
    eexists _, _. split; [reflexivity|]. auto.
Qed.

(** What an assignment of [null] does to the own properties. *)
Lemma set_result_null (name : string) (results : Results) :
  (name <> "__proto__" ->
   properties (set_result name None results) !! name = Some None)
  /\ (forall key v,
        properties (set_result name None results) !! key = Some v ->
        properties results !! key = Some v \/ (v = None /\ key = name))
  /\ (forall key,
        properties results !! key = Some None ->
        properties (set_result name None results) !! key = Some None).
Proof.
  destruct (decide (name = "__proto__")) as [->|Hne].
  - rewrite set_result_proto.
    destruct (prototype_null results); cbn [properties].
    + split; [intros H; contradiction|]. split.
      * intros key v. destruct (decide (key = "__proto__")) as [->|Hk].
        -- rewrite lookup_insert_eq. intros H. inversion H. auto.
        -- rewrite lookup_insert_ne by congruence. auto.
      * intros key. destruct (decide (key = "__proto__")) as [->|Hk].
        -- rewrite lookup_insert_eq. reflexivity.
        -- rewrite lookup_insert_ne by congruence. auto.
    + split; [intros H; contradiction|]. split; auto.
  - rewrite (set_result_name name None results Hne). cbn [properties].
    split; [intros _; apply lookup_insert_eq|]. split.
    + intros key v. destruct (decide (key = name)) as [->|Hk].
      * rewrite lookup_insert_eq. intros H. inversion H. auto.
      * rewrite lookup_insert_ne by congruence. auto.
    + intros key. destruct (decide (key = name)) as [->|Hk].
      * rewrite lookup_insert_eq. reflexivity.
      * rewrite lookup_insert_ne by congruence. auto.
Qed.

Lemma readMultipleRegisters_loop_disconnected (cfg : Config) (names : list string) :
  forall (results : Results) (c : Client),
    isConnected c = false ->
    exists results' c',
      readMultipleRegisters_loop cfg names results c = (Return results', c')
      /\ (forall key, key ∈ names -> key <> "__proto__" ->
            properties results' !! key = Some None)
      /\ (forall key v, properties results' !! key = Some v ->
            properties results !! key = Some v \/ (v = None /\ key ∈ names))
      /\ (forall key, properties results !! key = Some None ->
            properties results' !! key = Some None)
      /\ calls c' = calls c /\ isConnected c' = false
      /\ reconnecting c' = reconnecting c /\ timers c' = timers c.
Proof.
  induction names as [|name rest IH]; intros results c Hc.
  - exists results, c. split; [reflexivity|].
    split; [intros key H; inversion H|]. auto 10.
  - destruct (readMultipleRegisters_step cfg name rest results c)
      as (v & c1 & Hstep & Hc1 & Hv).
    destruct (readRegister_disconnected_any cfg name c Hc)
      as (e & c1' & Hread & Hk & Hi & Hr & Hm).
    rewrite Hread in Hc1, Hv. simpl in Hc1, Hv. subst c1.
    assert (Hnone : v = None) by (apply Hv; eauto). subst v.
    destruct (IH (set_result name None results) c1' Hi)
      as (results' & c' & Hrun & Hin & Hown & Hkeep & Hk' & Hi' & Hr' & Hm').
    destruct (set_result_null name results) as (Hset & Hfrom & Hstay).
    exists results', c'. split; [rewrite Hstep; exact Hrun|].
    split; [|split; [|split]].
    + intros key Hkey Hproto. apply elem_of_cons in Hkey as [->|Hkey].
      * apply Hkeep, Hset, Hproto.
      * apply Hin; assumption.
    + intros key v Hv'. destruct (Hown key v Hv') as [H|[-> H]].
      * destruct (Hfrom key v H) as [H'|[-> ->]]; [auto|].
        right. split; [reflexivity | apply elem_of_cons; auto].
      * right. split; [reflexivity | apply elem_of_cons; auto].
    + intros key H. apply Hkeep, Hstay, H.
    + rewrite Hk', Hr', Hm'. auto.
Qed.



(** ** Connecting *)

Lemma connect_resolved (cfg : Config) (c : Client) (buffer : Buffer) :
  transport c (calls c) ModbusRTU.connectRTU = Resolved buffer ->
  connect cfg c
  = (Return tt,
     set_connectionCheckInterval (Some (nextTimer c))
       (set_timers (<[nextTimer c := monitor_timer]> (timers c)) (S (nextTimer c))
          (observe (Emit "connected")
             (set_reconnecting false
                (set_isConnected true (wire_step ModbusRTU.connectRTU c)))))).
Proof.
  intros Ht.
  unfold connect, try_catch, startConnectionMonitoring, mbind, M_bind,
    await_client, modify, emit, setInterval, setTimer.
  rewrite Ht. reflexivity.
Qed.

Lemma connect_rejected (cfg : Config) (c : Client) (e : JsError) :
  transport c (calls c) ModbusRTU.connectRTU = Rejected e ->
  connect cfg c
  = if errorListener c then
      (Throw e,
       snd (scheduleReconnect cfg
              (observe (EmitError e)
                 (set_isConnected false (wire_step ModbusRTU.connectRTU c)))))
    else (Throw e, set_isConnected false (wire_step ModbusRTU.connectRTU c)).
Proof.
  intros Ht.
  unfold connect, try_catch, mbind, M_bind, await_client, modify, emit_error, throw.
  rewrite Ht. simpl. destruct (errorListener c) eqn:Hl; [|reflexivity].
  simpl. unfold scheduleReconnect, mbind, M_bind, get, modify, setTimeout, setTimer.
  simpl. destruct (reconnecting c); reflexivity.
Qed.

(** X19: a connect() the transport accepts marks the session connected,
    clears the reconnect flag, emits [connected] and arms a new monitoring
    interval of 30 s, which it records as the session's. An interval recorded
    before is neither cancelled nor remembered: after the call it is still
    armed, and stopConnectionMonitoring cancels the new one only. *)
Theorem connect_arms_new_monitor (cfg : Config) (c : Client) (buffer : Buffer)
    (old : nat) :
  fresh_timers c ->
  transport c (calls c) ModbusRTU.connectRTU = Resolved buffer ->
  connectionCheckInterval c = Some old ->
  timers c !! old = Some monitor_timer ->
  let c1 := snd (connect cfg c) in
  let c2 := snd (stopConnectionMonitoring c1) in
  fst (connect cfg c) = Return tt
  /\ isConnected c1 = true
  /\ reconnecting c1 = false
  /\ trace c1 = trace c ++ [Wire ModbusRTU.connectRTU; Emit "connected"]
  /\ connectionCheckInterval c1 = Some (nextTimer c)
  /\ timers c1 = <[nextTimer c := monitor_timer]> (timers c)
  /\ timers c1 !! old = Some monitor_timer
  /\ connectionCheckInterval c2 = None
  /\ timers c2 = timers c
  /\ timers c2 !! old = Some monitor_timer.
Proof.
  intros Hfresh Ht Hold Harmed c1 c2. subst c2 c1.
  rewrite (connect_resolved cfg c buffer Ht). cbn [fst snd].
  assert (Hne : old <> nextTimer c).
  { intros ->. rewrite (Hfresh (nextTimer c) (le_n _)) in Harmed. discriminate. }
  assert (Hfree : timers c !! nextTimer c = None) by (apply Hfresh; lia).
  unfold stopConnectionMonitoring, mbind, M_bind, get, clearTimer, modify.
  simpl. rewrite <- app_assoc. simpl.
  rewrite (delete_insert_id _ _ _ Hfree).
  rewrite lookup_insert_ne by congruence.
  repeat split; assumption.
Qed.

Lemma connect_arms_new_monitor_witness :
  let c0 := new_client true always_resolves in
  let c := snd (connect default_config c0) in
  let c1 := snd (connect default_config c) in
  let c2 := snd (stopConnectionMonitoring c1) in
  (fresh_timers c
   /\ transport c (calls c) ModbusRTU.connectRTU = Resolved []
   /\ connectionCheckInterval c = Some 0%nat
   /\ timers c !! 0%nat = Some monitor_timer)
  /\ fst (connect default_config c) = Return tt
  /\ isConnected c1 = true
  /\ reconnecting c1 = false
  /\ trace c1 = trace c ++ [Wire ModbusRTU.connectRTU; Emit "connected"]
  /\ connectionCheckInterval c1 = Some (nextTimer c)
  /\ timers c1 = <[nextTimer c := monitor_timer]> (timers c)
  /\ timers c1 !! 0%nat = Some monitor_timer
  /\ connectionCheckInterval c2 = None
  /\ timers c2 = timers c
  /\ timers c2 !! 0%nat = Some monitor_timer.
Proof.
  assert (Hfresh : fresh_timers (snd (connect default_config
                                        (new_client true always_resolves)))).
  { intros id Hid. change (nextTimer _) with 1%nat in Hid.
    change (timers _) with (<[0%nat := monitor_timer]> (∅ : gmap nat Timer)).
    rewrite lookup_insert_ne by lia. apply lookup_empty. }
  intros c0 c c1 c2. split.
  - split; [exact Hfresh|]. repeat split; reflexivity.
  - apply (connect_arms_new_monitor default_config c [] 0%nat Hfresh);
      reflexivity.
Defined.

(** X20: a connect() the transport rejects throws the transport's error and
    leaves the session disconnected. With an ['error'] listener the error is
    emitted and a reconnect is requested; without one the emitter throws, so
    that scheduleReconnect is never reached: no timer is armed and the
    reconnect flag keeps its value. *)
Theorem connect_failure (cfg : Config) (c : Client) (e : JsError) :
  transport c (calls c) ModbusRTU.connectRTU = Rejected e ->
  let c' := snd (connect cfg c) in
  fst (connect cfg c) = Throw e
  /\ isConnected c' = false
  /\ calls c' = S (calls c)
  /\ (errorListener c = true ->
        trace c' = trace c ++ [Wire ModbusRTU.connectRTU; EmitError e]
        /\ reconnecting c' = true
        /\ timers c' = if reconnecting c then timers c
                       else <[nextTimer c := reconnect_timer cfg]> (timers c))
  /\ (errorListener c = false ->
        trace c' = trace c ++ [Wire ModbusRTU.connectRTU]
        /\ reconnecting c' = reconnecting c
        /\ timers c' = timers c).
Proof.
  intros Ht c'. subst c'. rewrite (connect_rejected cfg c e Ht).
  destruct (errorListener c) eqn:Hl.
  - unfold scheduleReconnect, mbind, M_bind, get, modify, setTimeout, setTimer.
    simpl. destruct (reconnecting c) eqn:Hr; simpl; rewrite <- app_assoc;
      repeat split; try discriminate; auto.
  - simpl. repeat split; try discriminate; auto.
Qed.

Lemma connect_failure_witness :
  let c := new_client false (always_rejects "Port Not Open") in
  let e := Error "Port Not Open" in
  let c' := snd (connect default_config c) in
  transport c (calls c) ModbusRTU.connectRTU = Rejected e
  /\ fst (connect default_config c) = Throw e
  /\ isConnected c' = false
  /\ calls c' = S (calls c)
  /\ (errorListener c = true ->
        trace c' = trace c ++ [Wire ModbusRTU.connectRTU; EmitError e]
        /\ reconnecting c' = true
        /\ timers c' = if reconnecting c then timers c
                       else <[nextTimer c := reconnect_timer default_config]> (timers c))
  /\ (errorListener c = false ->
        trace c' = trace c ++ [Wire ModbusRTU.connectRTU]
        /\ reconnecting c' = reconnecting c
        /\ timers c' = timers c).
Proof.
  intros c e c'. split; [reflexivity|].
  apply (connect_failure default_config c e). reflexivity.
Defined.

(** ** The heartbeat write *)

(** X21: sendHeartbeat never throws. On a connected session whose transport
    answers, it sends exactly one request, the single-register write of
    0x55AA to 0x0D00; on a disconnected session it sends nothing and returns
    only after the pauses of the retries. *)
Theorem sendHeartbeat_swallows_errors (cfg : Config) (c : Client) :
  fst (sendHeartbeat cfg c) = Return tt
  /\ (isConnected c = true -> resolves c (calls c) heartbeat_request ->
      sendHeartbeat cfg c = (Return tt, wire_step heartbeat_request c))
  /\ (isConnected c = false ->
      sendHeartbeat cfg c
      = (Return tt, after_attempts (fun c => c) (Z.to_nat (maxRetries cfg)) c)).
Proof.
  assert (Hreg : REGISTERS !! "HEARTBEAT_EM" = Some HEARTBEAT_EM)
    by (vm_compute; reflexivity).
  assert (Henc : encodeRegisterValue HEARTBEAT_EM (of_Z 0x55AA) = Return [of_Z 0x55AA])
    by (vm_compute; reflexivity).
  split; [|split].
  - unfold sendHeartbeat, try_catch.
    destruct (writeRegister cfg "HEARTBEAT_EM" (of_Z 21930) 0 c) as [[[]|e] c1];
      reflexivity.
  - intros Hc [buffer Hres]. unfold sendHeartbeat, try_catch.
    rewrite (writeRegister_known cfg "HEARTBEAT_EM" HEARTBEAT_EM _ 0 c Hreg eq_refl).
    unfold try_catch.
    rewrite (write_attempt_connected HEARTBEAT_EM _ [of_Z 0x55AA] c Hc Henc).
    change (write_request HEARTBEAT_EM [of_Z 21930]) with heartbeat_request.
    rewrite Hres. reflexivity.
  - intros Hc. unfold sendHeartbeat, try_catch.
    rewrite (writeRegister_disconnected cfg "HEARTBEAT_EM" HEARTBEAT_EM _ 0 c
               Hreg eq_refl Hc).
    rewrite Z.sub_0_r. reflexivity.
Qed.

(** ** Disconnecting *)

Lemma stop_both (c : Client) :
  (stopHeartbeat;; stopConnectionMonitoring) c
  = (Return tt,
     set_connectionCheckInterval None
       (set_heartbeatInterval None
          (set_timers (cleared (connectionCheckInterval c)
                         (cleared (heartbeatInterval c) (timers c)))
                      (nextTimer c) c))).
Proof.
  unfold stopHeartbeat, stopConnectionMonitoring, mbind, M_bind, get, clearTimer,
    modify, mret, M_ret.
  destruct c as [ic rc hb cc el tm nt tr ca tp].
  destruct hb as [h|], cc as [k|]; reflexivity.
Qed.

Lemma cleared_lookup (h : option nat) (t : gmap nat Timer) (id : nat) :
  cleared h t !! id = if bool_decide (h = Some id) then None else t !! id.
Proof.
  destruct h as [k|]; unfold cleared.
  - destruct (decide (k = id)) as [->|Hne].
    + rewrite bool_decide_eq_true_2 by reflexivity. apply lookup_delete_eq.
    + rewrite bool_decide_eq_false_2 by congruence.
      apply lookup_delete_ne. exact Hne.
  - rewrite bool_decide_eq_false_2 by discriminate. reflexivity.
Qed.

(** X22: disconnect() stops the heartbeat and the monitoring before it
    closes the port. When the port is closed or its close() succeeds, the
    session is marked disconnected and [disconnected] is emitted; when
    close() fails, its error is thrown, the session keeps its connection
    state and nothing is emitted, but the two intervals are cancelled
    already. In both cases only the two recorded intervals are cancelled: a
    pending reconnect or first heartbeat stays armed, and the reconnect flag
    is left as it was. *)
Theorem disconnect_effects (isOpen : bool) (close : Outcome) (c : Client) :
  let r := disconnect isOpen close c in
  heartbeatInterval (snd r) = None
  /\ connectionCheckInterval (snd r) = None
  /\ reconnecting (snd r) = reconnecting c
  /\ (forall id,
        timers (snd r) !! id
        = if bool_decide (heartbeatInterval c = Some id
                          \/ connectionCheckInterval c = Some id)
          then None else timers c !! id)
  /\ match isOpen, close with
     | true, Rejected error =>
         fst r = Throw error
         /\ isConnected (snd r) = isConnected c
         /\ trace (snd r) = trace c
     | _, _ =>
         fst r = Return tt
         /\ isConnected (snd r) = false
         /\ trace (snd r) = trace c ++ [Emit "disconnected"]
     end.
Proof.
  intros r. subst r.
  set (c1 := set_connectionCheckInterval None
               (set_heartbeatInterval None
                  (set_timers (cleared (connectionCheckInterval c)
                                 (cleared (heartbeatInterval c) (timers c)))
                              (nextTimer c) c))).
  assert (Hrun : disconnect isOpen close c
                 = match isOpen, close with
                   | true, Rejected error => (Throw error, c1)
                   | _, _ => (Return tt,
                              observe (Emit "disconnected") (set_isConnected false c1))
                   end).
  { pose proof (stop_both c) as Hstop. fold c1 in Hstop.
    unfold disconnect. unfold mbind, M_bind in Hstop |- *.
    destruct (stopHeartbeat c) as [[[]|e] c0].
    - rewrite Hstop. destruct isOpen; [destruct close|]; reflexivity.
    - discriminate Hstop. }
  assert (Htimers : forall id,
            timers c1 !! id
            = if bool_decide (heartbeatInterval c = Some id
                              \/ connectionCheckInterval c = Some id)
              then None else timers c !! id).
  { intros id. subst c1. cbn [timers set_connectionCheckInterval
                               set_heartbeatInterval set_timers].
    rewrite !cleared_lookup.
    destruct (decide (connectionCheckInterval c = Some id)) as [H1|H1];
      destruct (decide (heartbeatInterval c = Some id)) as [H2|H2];
      repeat first [ rewrite (bool_decide_eq_true_2 _ H1)
                   | rewrite (bool_decide_eq_true_2 _ H2)
                   | rewrite (bool_decide_eq_false_2 _ H1)
                   | rewrite (bool_decide_eq_false_2 _ H2) ];
      try (rewrite bool_decide_eq_true_2 by tauto; reflexivity).
    rewrite bool_decide_eq_false_2 by tauto. reflexivity. }
  rewrite Hrun.
  destruct isOpen; [destruct close as [buffer|error]|]; cbn [fst snd];
    repeat split; auto.
Qed.

(** ** The connection check *)

Lemma fire_interval (cfg : Config) (id : nat) (t : Timer) (c : Client) :
  timers c !! id = Some t -> t_kind t = Interval ->
  fire cfg id c = run_callback cfg (t_callback t) c.
Proof. intros H Hk. unfold fire. rewrite H, Hk. reflexivity. Qed.

Lemma check_failed (cfg : Config) (c c1 : Client) (e : JsError) :
  readRegister cfg "EVSE_STATE" 0 c = (Throw e, c1) ->
  run_callback cfg CbConnectionCheck c
  = (Return tt,
     snd (scheduleReconnect cfg
            (observe (Emit "connectionLost") (set_isConnected false c1)))).
Proof.
  intros H. unfold run_callback, try_catch, mbind at 1, M_bind at 1.
  rewrite H. unfold mbind, M_bind, modify, emit. simpl.
  unfold scheduleReconnect, mbind, M_bind, get, modify, setTimeout, setTimer.
  simpl. destruct (reconnecting c1); reflexivity.
Qed.

Lemma after_attempts_id_nextTimer (n : nat) :
  forall c : Client, nextTimer (after_attempts (fun c => c) n c) = nextTimer c.
Proof.
  induction n as [|n IH]; intros c; simpl; [reflexivity | rewrite IH; reflexivity].
Qed.

(** X23: while the session is disconnected the monitoring interval keeps
    running, and each of its ticks, after the pauses of the retries of its
    failing read, emits [connectionLost] again and calls scheduleReconnect.
    That call arms a reconnect timer when the flag [reconnecting] is clear;
    when the flag is set it arms nothing, whether a reconnect is pending or,
    as after a failed reconnect attempt, none is. No transport call is made
    and the interval stays armed. *)
Theorem monitor_tick_disconnected (cfg : Config) (id : nat) (c : Client) :
  fresh_timers c ->
  timers c !! id = Some monitor_timer ->
  isConnected c = false ->
  let r := fire cfg id c in
  fst r = Return tt
  /\ trace (snd r)
     = trace c ++ repeat (Delay 500) (Z.to_nat (maxRetries cfg))
       ++ [Emit "connectionLost"]
  /\ calls (snd r) = calls c
  /\ isConnected (snd r) = false
  /\ reconnecting (snd r) = true
  /\ timers (snd r) = (if reconnecting c then timers c
                       else <[nextTimer c := reconnect_timer cfg]> (timers c))
  /\ timers (snd r) !! id = Some monitor_timer
  /\ (reconnecting c = true -> timers (snd r) = timers c).
Proof.
  intros Hfresh Harmed Hc r. subst r.
  assert (Hreg : REGISTERS !! "EVSE_STATE" = Some EVSE_STATE)
    by (vm_compute; reflexivity).
  assert (Hne : id <> nextTimer c).
  { intros ->. rewrite (Hfresh (nextTimer c) (le_n _)) in Harmed. discriminate. }
  rewrite (fire_interval cfg id monitor_timer c Harmed eq_refl).
  change (t_callback monitor_timer) with CbConnectionCheck.
  rewrite (check_failed cfg c _ _
             (readRegister_disconnected cfg "EVSE_STATE" EVSE_STATE 0 c
                Hreg eq_refl Hc)).
  rewrite Z.sub_0_r.
  destruct (after_attempts_id (Z.to_nat (maxRetries cfg)) c)
    as (Ht & Hk & Hi & Hr & Hm).
  set (c1 := after_attempts (fun c => c) (Z.to_nat (maxRetries cfg)) c) in *.
  assert (Hn : nextTimer c1 = nextTimer c) by apply after_attempts_id_nextTimer.
  unfold scheduleReconnect, mbind, M_bind, get, modify, setTimeout, setTimer.
  simpl. rewrite Hr.
  destruct (reconnecting c) eqn:Hrc; simpl; rewrite ?Ht, ?Hk, ?Hm, ?Hn, <- ?app_assoc;
    repeat split; auto; try discriminate.
  rewrite lookup_insert_ne by congruence. exact Harmed.
Qed.

Lemma monitor_tick_disconnected_witness :
  let c := after_failed_reconnect in
  let r := fire default_config 0 c in
  (fresh_timers c
   /\ timers c !! 0%nat = Some monitor_timer
   /\ isConnected c = false)
  /\ (reconnecting c = true /\ timers c = {[ 0%nat := monitor_timer ]})
  /\ fst r = Return tt
  /\ trace (snd r)
     = trace c ++ repeat (Delay 500) (Z.to_nat (maxRetries default_config))
       ++ [Emit "connectionLost"]
  /\ calls (snd r) = calls c
  /\ isConnected (snd r) = false
  /\ reconnecting (snd r) = true
  /\ timers (snd r) = (if reconnecting c then timers c
                       else <[nextTimer c := reconnect_timer default_config]> (timers c))
  /\ timers (snd r) !! 0%nat = Some monitor_timer
  /\ (reconnecting c = true -> timers (snd r) = timers c).
Proof.
  assert (Htimers : timers after_failed_reconnect = {[ 0%nat := monitor_timer ]})
    by (vm_compute; reflexivity).
  assert (Hnext : nextTimer after_failed_reconnect = 2%nat)
    by (vm_compute; reflexivity).
  assert (Hfresh : fresh_timers after_failed_reconnect).
  { intros id Hid. rewrite Hnext in Hid. rewrite Htimers.
    apply lookup_singleton_ne. lia. }
  assert (Harmed : timers after_failed_reconnect !! 0%nat = Some monitor_timer)
    by (rewrite Htimers; apply lookup_singleton_eq).
  assert (Hc : isConnected after_failed_reconnect = false)
    by (vm_compute; reflexivity).
  assert (Hflag : reconnecting after_failed_reconnect = true)
    by (vm_compute; reflexivity).
  intros c r. split; [split; [exact Hfresh | split; [exact Harmed | exact Hc]]|].
  split; [split; [exact Hflag | exact Htimers]|].
  apply (monitor_tick_disconnected default_config 0%nat c Hfresh Harmed Hc).
Defined.

(** X24: a tick of the monitoring interval on a connected session whose
    transport rejects every attempt of the check read marks the session
    disconnected and calls scheduleReconnect (which arms a timer when the
    flag [reconnecting] is clear), whatever the error is. When the message
    of the last error contains [Port Not Open] or [Timed Out], the texts the
    read looks for, the read has made the transition already, so that
    [connectionLost] is emitted twice for the one loss; for every other
    error it is emitted once. The error of a closed port is of the first
    kind; the transport's timeout error, whose message is [Timed out], is of
    the second. *)
Theorem monitor_tick_failure (cfg : Config) (id : nat) (err : nat -> JsError)
    (c : Client) :
  fresh_timers c ->
  timers c !! id = Some monitor_timer ->
  isConnected c = true ->
  (forall k rq, (k <= Z.to_nat (maxRetries cfg))%nat ->
                transport c (calls c + k)%nat rq = Rejected (err k)) ->
  let n := Z.to_nat (maxRetries cfg) in
  let rq := ModbusRTU.readHoldingRegisters 0x0100 1 in
  let r := fire cfg id c in
  fst r = Return tt
  /\ trace (snd r)
     = trace c ++ failed_attempts rq n
       ++ (if indicates_lost (err n)
           then [Emit "connectionLost"; Emit "connectionLost"]
           else [Emit "connectionLost"])
  /\ isConnected (snd r) = false
  /\ reconnecting (snd r) = true
  /\ timers (snd r) = (if reconnecting c then timers c
                       else <[nextTimer c := reconnect_timer cfg]> (timers c))
  /\ indicates_lost PortNotOpenError = true
  /\ indicates_lost TransactionTimedOutError = false.
Proof.
  intros Hfresh Harmed Hc Hrej n rq r. subst r.
  destruct timeout_not_lost as (Hno & _ & Hyes).
  assert (Hreg : REGISTERS !! "EVSE_STATE" = Some EVSE_STATE)
    by (vm_compute; reflexivity).
  rewrite (fire_interval cfg id monitor_timer c Harmed eq_refl).
  change (t_callback monitor_timer) with CbConnectionCheck.
  pose proof (readRegister_all_rejected cfg c err Hc Hrej "EVSE_STATE" EVSE_STATE
                Hreg eq_refl) as Hread.
  change (ModbusRTU.readHoldingRegisters (r_address EVSE_STATE) (r_length EVSE_STATE))
    with rq in Hread.
  fold n in Hread.
  destruct (after_attempts_wire rq n c) as (Ht & Hk & Hi & Hr & Hm & Hn).
  destruct (indicates_lost (err n)) eqn:Hlost.
  - destruct (@final_failure_lost JsValue cfg (err n)
                (after_attempts (wire_step rq) n c) Hlost)
      as (c1 & Hfail & Hi1 & Hr1 & Ht1 & Hm1).
    rewrite Hfail in Hread. rewrite (check_failed cfg c c1 _ Hread).
    unfold scheduleReconnect, mbind, M_bind, get. simpl. rewrite Hr1. simpl.
    rewrite Ht1, Ht, Hr1, Hm1, Hr, Hm, Hn, <- !app_assoc.
    repeat split; assumption.
  - rewrite (final_failure_other cfg (err n) _ Hlost) in Hread.
    rewrite (check_failed cfg c _ _ Hread).
    unfold scheduleReconnect, mbind, M_bind, get, modify, setTimeout, setTimer.
    simpl. rewrite Hr.
    destruct (reconnecting c) eqn:Hrc; simpl; rewrite ?Ht, ?Hm, ?Hn, <- ?app_assoc;
      repeat split; auto.
Qed.

Lemma monitor_tick_failure_witness :
  let c := snd (connect default_config (new_client true connects_only)) in
  let err := fun _ : nat => PortNotOpenError in
  let n := Z.to_nat (maxRetries default_config) in
  let rq := ModbusRTU.readHoldingRegisters 0x0100 1 in
  let r := fire default_config 0 c in
  (fresh_timers c
   /\ timers c !! 0%nat = Some monitor_timer
   /\ isConnected c = true
   /\ (forall k rq, (k <= n)%nat ->
         transport c (calls c + k)%nat rq = Rejected (err k)))
  /\ fst r = Return tt
  /\ trace (snd r)
     = trace c ++ failed_attempts rq n
       ++ (if indicates_lost (err n)
           then [Emit "connectionLost"; Emit "connectionLost"]
           else [Emit "connectionLost"])
  /\ isConnected (snd r) = false
  /\ reconnecting (snd r) = true
  /\ timers (snd r) = (if reconnecting c then timers c
                       else <[nextTimer c := reconnect_timer default_config]> (timers c))
  /\ indicates_lost PortNotOpenError = true
  /\ indicates_lost TransactionTimedOutError = false.
Proof.
  assert (Hfresh : fresh_timers
            (snd (connect default_config (new_client true connects_only)))).
  { intros id Hid. change (nextTimer _) with 1%nat in Hid.
    change (timers _) with (<[0%nat := monitor_timer]> (∅ : gmap nat Timer)).
    rewrite lookup_insert_ne by lia. apply lookup_empty. }
  assert (Hrej : forall k rq,
            (k <= Z.to_nat (maxRetries default_config))%nat ->
            transport (snd (connect default_config (new_client true connects_only)))
              (calls (snd (connect default_config (new_client true connects_only))) + k)%nat
              rq
            = Rejected PortNotOpenError).
  { intros k rq _. change (calls _) with 1%nat. reflexivity. }
  intros c err n rq r. split.
  - split; [exact Hfresh|]. split; [reflexivity|]. split; [reflexivity|exact Hrej].
  - apply (monitor_tick_failure default_config 0%nat err c Hfresh);
      [reflexivity | reflexivity | exact Hrej].
Defined.

(** ** A reconnect that succeeds *)

(** X25: requests to schedule a reconnect made while one is pending are
    dropped, so that a single timer is armed. When that timer expires and
    connect() succeeds, the timer is consumed, the session is connected with
    its monitoring interval armed, and the reconnect flag is cleared: the
    next request arms a timer again. *)
Theorem reconnect_success_rearms (cfg : Config) (c : Client) (buffer : Buffer) :
  reconnecting c = false ->
  fresh_timers c ->
  transport c (calls c) ModbusRTU.connectRTU = Resolved buffer ->
  let c1 := snd (scheduleReconnect cfg c) in
  let r := fire cfg (nextTimer c) c1 in
  let c3 := snd (scheduleReconnect cfg (snd r)) in
  scheduleReconnect cfg c1 = (Return tt, c1)
  /\ timers c1 = <[nextTimer c := reconnect_timer cfg]> (timers c)
  /\ fst r = Return tt
  /\ isConnected (snd r) = true
  /\ reconnecting (snd r) = false
  /\ trace (snd r) = trace c ++ [Wire ModbusRTU.connectRTU; Emit "connected"]
  /\ timers (snd r) = <[S (nextTimer c) := monitor_timer]> (timers c)
  /\ timers c3 = <[S (S (nextTimer c)) := reconnect_timer cfg]> (timers (snd r)).
Proof.
  intros Hr Hfresh Ht c1 r c3. subst c3 r c1.
  assert (Hfree : timers c !! nextTimer c = None) by (apply Hfresh; lia).
  rewrite (scheduleReconnect_arms cfg c Hr). cbn [snd].
  split; [apply scheduleReconnect_pending; reflexivity|].
  split; [reflexivity|].
  assert (Hfire : exists c2,
            fire cfg (nextTimer c)
              (set_timers (<[nextTimer c := reconnect_timer cfg]> (timers c))
                          (S (nextTimer c)) (set_reconnecting true c))
            = (Return tt, c2)
            /\ isConnected c2 = true /\ reconnecting c2 = false
            /\ trace c2 = trace c ++ [Wire ModbusRTU.connectRTU; Emit "connected"]
            /\ timers c2 = <[S (nextTimer c) := monitor_timer]> (timers c)
            /\ nextTimer c2 = S (S (nextTimer c))).
  { unfold fire. simpl. rewrite lookup_insert_eq. simpl.
    rewrite (delete_insert_id _ _ _ Hfree).
    unfold try_catch.
    match goal with
    | |- context [connect cfg ?c0] =>
        rewrite (connect_resolved cfg c0 buffer Ht)
    end.
    eexists. split; [reflexivity|]. simpl. rewrite <- app_assoc. repeat split. }
  destruct Hfire as (c2 & Hfire & Hi2 & Hr2 & Ht2 & Hm2 & Hn2).
  rewrite Hfire. cbn [fst snd].
  rewrite (scheduleReconnect_arms cfg c2 Hr2). simpl. rewrite Hn2.
  repeat split; assumption.
Qed.

Lemma reconnect_success_rearms_witness :
  let c := new_client true always_resolves in
  let c1 := snd (scheduleReconnect default_config c) in
  let r := fire default_config (nextTimer c) c1 in
  let c3 := snd (scheduleReconnect default_config (snd r)) in
  (reconnecting c = false
   /\ fresh_timers c
   /\ transport c (calls c) ModbusRTU.connectRTU = Resolved [])
  /\ scheduleReconnect default_config c1 = (Return tt, c1)
  /\ timers c1 = <[nextTimer c := reconnect_timer default_config]> (timers c)
  /\ fst r = Return tt
  /\ isConnected (snd r) = true
  /\ reconnecting (snd r) = false
  /\ trace (snd r) = trace c ++ [Wire ModbusRTU.connectRTU; Emit "connected"]
  /\ timers (snd r) = <[S (nextTimer c) := monitor_timer]> (timers c)
  /\ timers c3 = <[S (S (nextTimer c)) := reconnect_timer default_config]>
                   (timers (snd r)).
Proof.
  assert (Hfresh : fresh_timers (new_client true always_resolves))
    by (intros id _; reflexivity).
  intros c c1 r c3. split.
  - split; [reflexivity|]. split; [exact Hfresh | reflexivity].
  - apply (reconnect_success_rearms default_config c []);
      [reflexivity | exact Hfresh | reflexivity].
Defined.

(** ** The controller *)

Lemma js_strict_eq_of_Z (a b : Z) : js_strict_eq (of_Z a) (of_Z b) = (a =? b).
Proof.
  unfold js_strict_eq. rewrite js_compare_of_Z, Z.eqb_compare.
  destruct (a ?= b); reflexivity.
Qed.

Lemma setChargingCurrent_out_of_range (cfg : Config) (z : Z) (c : Client) :
  z < MIN_CHARGING_CURRENT \/ MAX_CHARGING_CURRENT < z ->
  setChargingCurrent cfg (of_Z z) c = (Throw current_out_of_range, c).
Proof.
  intros H. unfold setChargingCurrent. rewrite js_lt_of_Z, js_gt_of_Z.
  replace ((z <? MIN_CHARGING_CURRENT) || (MAX_CHARGING_CURRENT <? z)) with true.
  - reflexivity.
  - symmetry. apply orb_true_iff.
    destruct H; [left; apply Z.ltb_lt | right; apply Z.ltb_lt]; assumption.
Qed.

(** X26: the controller validates before any I/O. For an integral current
    below 6 or above 32, setChargingCurrent, resumeCharging and
    startCharging throw the range error and leave the session as it was:
    nothing is written, and startCharging neither pauses nor writes the
    charging release. For an integer other than 0 and 1,
    setRequestedPhases throws likewise. *)
Theorem controller_validates_before_io (cfg : Config) (z p : Z) (c : Client) :
  z < 6 \/ 32 < z ->
  p <> 0 /\ p <> 1 ->
  setChargingCurrent cfg (of_Z z) c = (Throw current_out_of_range, c)
  /\ resumeCharging cfg (of_Z z) c = (Throw current_out_of_range, c)
  /\ startCharging cfg (of_Z z) c = (Throw current_out_of_range, c)
  /\ setRequestedPhases cfg (of_Z p) c = (Throw invalid_phases, c).
Proof.
  intros Hz [Hp0 Hp1].
  pose proof (setChargingCurrent_out_of_range cfg z c Hz) as Hset.
  split; [exact Hset|]. split; [exact Hset|]. split.
  - unfold startCharging, mbind, M_bind. rewrite Hset. reflexivity.
  - unfold setRequestedPhases. rewrite !js_strict_eq_of_Z.
    replace (p =? 0) with false by (symmetry; apply Z.eqb_neq; assumption).
    replace (p =? 1) with false by (symmetry; apply Z.eqb_neq; assumption).
    reflexivity.
Qed.

Lemma controller_validates_before_io_witness :
  let c := connected_client always_resolves in
  (33 < 6 \/ 32 < 33)
  /\ (2 <> 0 /\ 2 <> 1)
  /\ setChargingCurrent default_config (of_Z 33) c = (Throw current_out_of_range, c)
  /\ resumeCharging default_config (of_Z 33) c = (Throw current_out_of_range, c)
  /\ startCharging default_config (of_Z 33) c = (Throw current_out_of_range, c)
  /\ setRequestedPhases default_config (of_Z 2) c = (Throw invalid_phases, c).
Proof.
  assert (Hz : 33 < 6 \/ 32 < 33) by (right; lia).
  assert (Hp : 2 <> 0 /\ 2 <> 1) by (split; lia).
  intros c. split; [exact Hz|]. split; [exact Hp|].
  apply (controller_validates_before_io default_config 33 2 c Hz Hp).
Defined.

(** The words of every permitted current, and what the device reads from
    them. *)
Lemma permitted_current_words (z : Z) :
  6 <= z <= 32 ->
  exists words,
    encodeRegisterValue CHARGING_CURRENT_EM (of_Z z) = Return words
    /\ returns_number
         (parseRegisterValue CHARGING_CURRENT_EM (buffer_of_registers words)) z.
Proof.
  intros Hz. rewrite <- (Z2Nat.id z) in * by lia.
  set (n := Z.to_nat z) in *. clearbody n.
  do 33 (destruct n as [|n];
         [ first [ lia
                 | eexists; split; [vm_compute; reflexivity|];
                   eexists; split; vm_compute; reflexivity ] |]).
  lia.
Qed.

Lemma writeRegister_accepted (cfg : Config) (name : string) (register : Register)
    (value : number) (words : list number) (c : Client) :
  REGISTERS !! name = Some register ->
  includes (r_access register) "W" = true ->
  encodeRegisterValue register value = Return words ->
  isConnected c = true ->
  resolves c (calls c) (write_request register words) ->
  writeRegister cfg name value 0 c
  = (Return tt, wire_step (write_request register words) c).
Proof.
  intros Hreg Hacc Henc Hc [buffer Hres].
  rewrite (writeRegister_known cfg name register value 0 c Hreg Hacc).
  unfold try_catch.
  rewrite (write_attempt_connected register value words c Hc Henc), Hres.
  reflexivity.
Qed.

Lemma setChargingCurrent_accepted (cfg : Config) (z : Z) (words : list number)
    (c : Client) :
  6 <= z <= 32 ->
  encodeRegisterValue CHARGING_CURRENT_EM (of_Z z) = Return words ->
  isConnected c = true ->
  resolves c (calls c) (ModbusRTU.writeRegisters 0x0302 words) ->
  setChargingCurrent cfg (of_Z z) c
  = (Return tt, wire_step (ModbusRTU.writeRegisters 0x0302 words) c).
Proof.
  intros Hz Henc Hc Hres.
  unfold setChargingCurrent. rewrite js_lt_of_Z, js_gt_of_Z.
  replace (z <? MIN_CHARGING_CURRENT) with false
    by (symmetry; apply Z.ltb_ge; unfold MIN_CHARGING_CURRENT; lia).
  replace (MAX_CHARGING_CURRENT <? z) with false
    by (symmetry; apply Z.ltb_ge; unfold MAX_CHARGING_CURRENT; lia).
  cbn [orb].
  apply (writeRegister_accepted cfg "CHARGING_CURRENT_EM" CHARGING_CURRENT_EM
           (of_Z z) words c); try assumption.
  - vm_compute. reflexivity.
  - reflexivity.
Qed.

(** X27: for every integral current from 6 to 32, setChargingCurrent on a
    connected session whose transport answers sends one request, the write
    of the two float words of the current to 0x0302, and the words it sends
    decode to the same current. *)
Theorem setChargingCurrent_writes_current (cfg : Config) (z : Z) (c : Client) :
  6 <= z <= 32 ->
  isConnected c = true ->
  (forall rq, resolves c (calls c) rq) ->
  exists words,
    encodeRegisterValue CHARGING_CURRENT_EM (of_Z z) = Return words
    /\ setChargingCurrent cfg (of_Z z) c
       = (Return tt, wire_step (ModbusRTU.writeRegisters 0x0302 words) c)
    /\ returns_number
         (parseRegisterValue CHARGING_CURRENT_EM (buffer_of_registers words)) z.
Proof.
  intros Hz Hc Hres.
  destruct (permitted_current_words z Hz) as (words & Henc & Hdec).
  exists words. split; [exact Henc|]. split; [|exact Hdec].
  apply setChargingCurrent_accepted; (assumption || apply Hres).
Qed.

Lemma setChargingCurrent_writes_current_witness :
  let c := connected_client always_resolves in
  6 <= 16 <= 32
  /\ isConnected c = true
  /\ (forall rq, resolves c (calls c) rq)
  /\ exists words,
       encodeRegisterValue CHARGING_CURRENT_EM (of_Z 16) = Return words
       /\ setChargingCurrent default_config (of_Z 16) c
          = (Return tt, wire_step (ModbusRTU.writeRegisters 0x0302 words) c)
       /\ returns_number
            (parseRegisterValue CHARGING_CURRENT_EM (buffer_of_registers words)) 16.
Proof.
  assert (Hz : 6 <= 16 <= 32) by lia.
  assert (Hres : forall rq,
            resolves (connected_client always_resolves)
                     (calls (connected_client always_resolves)) rq)
    by (intros rq; exists []; reflexivity).
  intros c. split; [exact Hz|]. split; [reflexivity|]. split; [exact Hres|].
  apply (setChargingCurrent_writes_current default_config 16 c Hz eq_refl Hres).
Defined.

(** X28: startCharging on a connected session whose transport answers
    writes the current, waits 100 ms and then writes 1 to the charging
    release at 0x0D05, in this order and with nothing else. Whenever setting
    the current fails, startCharging fails with the same error in the same
    state: the release is not written. *)
Theorem startCharging_sequence (cfg : Config) (z : Z) (c : Client) :
  6 <= z <= 32 ->
  isConnected c = true ->
  (forall n rq, resolves c n rq) ->
  (exists words c',
     encodeRegisterValue CHARGING_CURRENT_EM (of_Z z) = Return words
     /\ startCharging cfg (of_Z z) c = (Return tt, c')
     /\ trace c' = trace c ++ [Wire (ModbusRTU.writeRegisters 0x0302 words);
                               Delay 100;
                               Wire (ModbusRTU.writeRegister 0x0D05 (of_Z 1))]
     /\ calls c' = (calls c + 2)%nat
     /\ isConnected c' = true)
  /\ (forall current e c1,
        setChargingCurrent cfg current c = (Throw e, c1) ->
        startCharging cfg current c = (Throw e, c1)).
Proof.
  intros Hz Hc Hres. split.
  - destruct (permitted_current_words z Hz) as (words & Henc & _).
    pose proof (setChargingCurrent_accepted cfg z words c Hz Henc Hc (Hres _ _))
      as Hset.
    exists words. eexists. split; [exact Henc|].
    unfold startCharging, mbind at 1, M_bind at 1. rewrite Hset.
    unfold mbind, M_bind, delay, modify.
    rewrite (writeRegister_accepted cfg "CHARGING_RELEASE_EM" CHARGING_RELEASE_EM
               (of_Z 1) [of_Z 1]).
    + split; [reflexivity|]. simpl. rewrite <- !app_assoc. simpl.
      repeat split; (assumption || lia).
    + vm_compute. reflexivity.
    + reflexivity.
    + vm_compute. reflexivity.
    + exact Hc.
    + apply Hres.
  - intros current e c1 Hset. unfold startCharging, mbind, M_bind.
    rewrite Hset. reflexivity.
Qed.

Lemma startCharging_sequence_witness :
  let c := connected_client always_resolves in
  6 <= 6 <= 32
  /\ isConnected c = true
  /\ (forall n rq, resolves c n rq)
  /\ (exists words c',
        encodeRegisterValue CHARGING_CURRENT_EM (of_Z 6) = Return words
        /\ startCharging default_config (of_Z 6) c = (Return tt, c')
        /\ trace c' = trace c ++ [Wire (ModbusRTU.writeRegisters 0x0302 words);
                                  Delay 100;
                                  Wire (ModbusRTU.writeRegister 0x0D05 (of_Z 1))]
        /\ calls c' = (calls c + 2)%nat
        /\ isConnected c' = true)
  /\ (forall current e c1,
        setChargingCurrent default_config current c = (Throw e, c1) ->
        startCharging default_config current c = (Throw e, c1)).
Proof.
  assert (Hz : 6 <= 6 <= 32) by lia.
  assert (Hres : forall n rq, resolves (connected_client always_resolves) n rq)
    by (intros n rq; exists []; reflexivity).
  intros c. split; [exact Hz|]. split; [reflexivity|]. split; [exact Hres|].
  apply (startCharging_sequence default_config 6 c Hz eq_refl Hres).
Defined.

(** X29: for a non-negative integral number of seconds, formatDuration
    prints hours, minutes and seconds that add up to the input, with minutes
    and seconds below 60. *)
Theorem formatDuration_parts (seconds : Z) :
  0 <= seconds < 2 ^ 53 ->
  exists h m s,
    formatDuration seconds
    = pretty h +:+ "h " +:+ pretty m +:+ "m " +:+ pretty s +:+ "s"
    /\ seconds = h * 3600 + m * 60 + s
    /\ 0 <= h /\ 0 <= m < 60 /\ 0 <= s < 60.
Proof.
  intros Hs.
  exists (seconds / 3600), (Z.rem seconds 3600 / 60), (Z.rem seconds 60).
  split; [reflexivity|].
  rewrite !Z.rem_mod_nonneg by lia.
  Z.div_mod_to_equations. lia.
Qed.

Lemma formatDuration_parts_witness :
  0 <= 3725 < 2 ^ 53
  /\ exists h m s,
       formatDuration 3725
       = pretty h +:+ "h " +:+ pretty m +:+ "m " +:+ pretty s +:+ "s"
       /\ 3725 = h * 3600 + m * 60 + s
       /\ 0 <= h /\ 0 <= m < 60 /\ 0 <= s < 60.
Proof.
  assert (H : 0 <= 3725 < 2 ^ 53) by lia.
  split; [exact H|]. apply (formatDuration_parts 3725 H).
Defined.

Lemma land_ones_int32 (x : Z) (k : Z) :
  0 <= k <= 32 -> Z.land (int32 x) (Z.ones k) = x mod 2 ^ k.
Proof.
  intros Hk. rewrite Z.land_ones by lia. unfold int32.
  assert (Hsplit : 2 ^ 32 = 2 ^ (32 - k) * 2 ^ k).
  { rewrite <- Z.pow_add_r by lia. f_equal. lia. }
  set (q := (x + 2 ^ 31) / 2 ^ 32).
  assert (Hq : (x + 2 ^ 31) mod 2 ^ 32 = x + 2 ^ 31 - 2 ^ 32 * q).
  { unfold q. pose proof (Z.div_mod (x + 2 ^ 31) (2 ^ 32) ltac:(lia)). lia. }
  rewrite Hq.
  replace (x + 2 ^ 31 - 2 ^ 32 * q - 2 ^ 31) with (x + (- (2 ^ (32 - k) * q)) * 2 ^ k)
    by (rewrite Hsplit; ring).
  apply Z_mod_plus_full.
Qed.

Lemma js_field (z : Z) (sh k : Z) :
  0 <= sh < 32 -> 0 <= k < 32 -> sh + k <= 32 ->
  js_and (js_sar (of_Z z) (of_Z sh)) (of_Z (Z.ones k))
  = of_Z ((z / 2 ^ sh) mod 2 ^ k).
Proof.
  intros Hsh Hk Hsum. unfold js_and, js_sar.
  rewrite !ToInt32_of_Z, ToUint32_of_Z.
  assert (H0 : 0 < 2 ^ sh) by (apply Z.pow_pos_nonneg; lia).
  assert (H1 : 0 < 2 ^ k) by (apply Z.pow_pos_nonneg; lia).
  assert (Ho : int32 (Z.ones k) = Z.ones k).
  { apply int32_small. rewrite Z.ones_equiv.
    assert (2 ^ k <= 2 ^ 31) by (apply Z.pow_le_mono_r; lia). lia. }
  replace (sh mod 2 ^ 32 mod 32) with sh.
  2:{ rewrite (Z.mod_small sh (2 ^ 32)) by lia. rewrite Z.mod_small by lia.
      reflexivity. }
  f_equal. rewrite Ho, land_ones_int32 by lia.
  rewrite Z.shiftr_div_pow2 by lia. unfold int32.
  assert (Hsplit : 2 ^ 32 = 2 ^ sh * 2 ^ k * 2 ^ (32 - sh - k)).
  { rewrite <- !Z.pow_add_r by lia. f_equal. lia. }
  set (a := 2 ^ sh) in *. set (b := 2 ^ k) in *.
  set (d := 2 ^ (32 - sh - k)) in *.
  set (q := (z + 2 ^ 31) / 2 ^ 32).
  assert (Hq : (z + 2 ^ 31) mod 2 ^ 32 = z + 2 ^ 31 - 2 ^ 32 * q).
  { unfold q. pose proof (Z.div_mod (z + 2 ^ 31) (2 ^ 32) ltac:(lia)). lia. }
  rewrite Hq.
  replace (z + 2 ^ 31 - 2 ^ 32 * q - 2 ^ 31) with (z + (- (b * d * q)) * a)
    by (rewrite Hsplit; ring).
  rewrite Z.div_add by lia.
  replace (z / a + - (b * d * q)) with (z / a + (- (d * q)) * b) by ring.
  apply Z_mod_plus_full.
Qed.

(** X30: formatModbusVersion prints three fields of its argument read as a
    32-bit integer: bits 8 to 15, bits 4 to 7 and bits 0 to 3, in decimal and
    separated by dots. *)
Theorem formatModbusVersion_fields (z : Z) :
  formatModbusVersion (of_Z z)
  = pretty ((z / 2 ^ 8) mod 2 ^ 8) +:+ "." +:+ pretty ((z / 2 ^ 4) mod 2 ^ 4)
    +:+ "." +:+ pretty (z mod 2 ^ 4).
Proof.
  unfold formatModbusVersion.
  change (of_Z 255) with (of_Z (Z.ones 8)).
  change (of_Z 15) with (of_Z (Z.ones 4)).
  rewrite !js_field by lia.
  assert (Hlow : js_and (of_Z z) (of_Z (Z.ones 4)) = of_Z (z mod 2 ^ 4)).
  { unfold js_and. rewrite !ToInt32_of_Z.
    rewrite (int32_small (Z.ones 4)) by (change (Z.ones 4) with 15; lia).
    rewrite land_ones_int32 by lia. reflexivity. }
  rewrite Hlow, !to_integer_of_Z. reflexivity.
Qed.
